(** * orthoseg.model.model_helper: the model registry and its retention cycle

    A shallow embedding of [src/orthoseg/model/model_helper.py]: the file
    name codec ([format_model_filename] / [parse_model_filename]), the
    registry scan ([get_models], [get_max_data_version], [get_best_model]),
    the retention cycle ([save_and_clean_models]) and the checkpoint
    callback ([ModelCheckpointExt]), followed by the properties of the
    specification, C1 to C10, and by further properties of the code,
    marked X.

    Modelling conventions.
    - Python [str] is [string], for the code points below 256 (Latin-1);
      [str.isdigit], and the white space and the digits [int] and [float]
      read, are the ones of Python on these code points.  Python [int] is
      [Z].
    - Python [float] is binary64, [Float.t]: a finite value is kept as the
      rational it is exactly, beside [-0.0], the two infinities and [nan];
      [+], [-] and [/ 2] round the exact result to the nearest binary64,
      ties to even, and overflow to an infinity; [float(s)] rounds the
      decimal it reads the same way; [format(x, ".5f")] rounds the exact
      value half-to-even; a comparison with [nan] is [False].
    - A raised exception is a value of [result]; what a function logs,
      prints or asks of the file system is recorded, in order, in a trace
      of [event]s.
    - The model directory is a list of entries (name, is-a-directory) in
      the order the file system lists them, and a path inside it is the
      name of an entry: the cycle is modelled for names without ['/'],
      while [parse_model_filename] takes the name, the stem and the suffix
      of any path as [pathlib] does on POSIX.  Saving and deleting are
      assumed not to fail; what a save leaves on disk is what keras writes
      for the path and the kind of save.
    - A pandas frame is the list of its rows, with a flag for the frame
      without columns that [pd.DataFrame([])] is; [sort_values] puts the
      rows whose key is [nan] last, and [argmax] returns the first [nan]
      when there is one.
    - Of keras a callback sees two things: the model attached to it, of
      which only "is not [None]" matters here, and the metrics of the
      epoch, a dict that is read with [get]. *)

From Stdlib Require Import Bool Arith List Permutation Sorted.
From Stdlib Require Import Ascii String.
From Stdlib Require Import ZArith NArith QArith Qabs Qpower Lqa Lia.
From Stdlib Require Import DecimalString DecimalN DecimalPos DecimalFacts.
Import ListNotations.

Open Scope string_scope.
Open Scope Z_scope.

(* ================================================================== *)
(** * Strings, the Python way *)
(* ================================================================== *)

Module Str.

(** [all_chars p s]: every character of [s] satisfies [p]. *)
Fixpoint all_chars (p : ascii -> bool) (s : string) : bool :=
  match s with
  | EmptyString => true
  | String c r => p c && all_chars p r
  end.

(** The decimal digits, ['0'] to ['9']: the digits [int()] and [float()]
    read. *)
Definition is_digit (c : ascii) : bool :=
  let n := nat_of_ascii c in (48 <=? n)%nat && (n <=? 57)%nat.

(** The characters [str.isdigit()] accepts: the decimal digits and the
    superscripts U+00B2, U+00B3 and U+00B9. *)
Definition is_digit_char (c : ascii) : bool :=
  let n := nat_of_ascii c in
  is_digit c || (n =? 178)%nat || (n =? 179)%nat || (n =? 185)%nat.

(** The white space [int()] and [float()] skip around a number: tab to
    carriage return, the space, U+0085 and U+00A0. *)
Definition is_space (c : ascii) : bool :=
  let n := nat_of_ascii c in
  ((9 <=? n)%nat && (n <=? 13)%nat) || (n =? 32)%nat
  || (n =? 133)%nat || (n =? 160)%nat.

Definition isnt (x c : ascii) : bool := negb (Ascii.eqb c x).

(** [s.isdigit()]: not empty, and only characters [str.isdigit] accepts. *)
Definition isdigit (s : string) : bool :=
  negb (s =? "")%string && all_chars is_digit_char s.

(** [s.isdecimal()]: not empty, and decimal digits only. *)
Definition isdecimal (s : string) : bool :=
  negb (s =? "")%string && all_chars is_digit s.

(** [s.endswith(suf)]. *)
Fixpoint endswith (s suf : string) : bool :=
  (s =? suf)%string ||
  match s with
  | EmptyString => false
  | String _ r => endswith r suf
  end.

(** [s.split(c)] for a one-character separator: never the empty list. *)
Fixpoint split (c : ascii) (s : string) : list string :=
  match s with
  | EmptyString => [EmptyString]
  | String a r =>
      if Ascii.eqb a c then EmptyString :: split c r
      else match split c r with
           | h :: t => String a h :: t
           | [] => [String a EmptyString]
           end
  end.

(** [sep.join(l)]. *)
Fixpoint join (sep : string) (l : list string) : string :=
  match l with
  | [] => EmptyString
  | [x] => x
  | x :: r => x ++ sep ++ join sep r
  end.

(** Cut [s] at its last [c]: the text before it and the text after it
    ([s.rfind(c)] with the two slices around the index). *)
Fixpoint rsplit (c : ascii) (s : string) : option (string * string) :=
  match s with
  | EmptyString => None
  | String a r =>
      match rsplit c r with
      | Some (b, t) => Some (String a b, t)
      | None => if Ascii.eqb a c then Some (EmptyString, r) else None
      end
  end.

(** Cut [s] at its first character satisfying [p]. *)
Fixpoint break (p : ascii -> bool) (s : string) : string * option string :=
  match s with
  | EmptyString => (EmptyString, None)
  | String a r =>
      if p a then (EmptyString, Some r)
      else let '(b, t) := break p r in (String a b, t)
  end.

Fixpoint lstrip (s : string) : string :=
  match s with
  | EmptyString => EmptyString
  | String a r => if is_space a then lstrip r else s
  end.

Fixpoint rstrip (s : string) : string :=
  match s with
  | EmptyString => EmptyString
  | String a r =>
      match rstrip r with
      | EmptyString => if is_space a then EmptyString else String a EmptyString
      | r' => String a r'
      end
  end.

Definition strip (s : string) : string := rstrip (lstrip s).

Fixpoint zeros (n : nat) : string :=
  match n with
  | O => EmptyString
  | S k => String "0" (zeros k)
  end.

(** Left-pad with ['0'] up to [width] characters. *)
Definition lpad0 (width : nat) (s : string) : string :=
  zeros (width - String.length s) ++ s.

(** [str(n)] for a natural number. *)
Definition of_N (n : N) : string := NilEmpty.string_of_uint (N.to_uint n).

(** Value of a string of decimal digits (leading zeros allowed), read
    from the left. *)
Definition digit_val (c : ascii) : N := N.of_nat (nat_of_ascii c - 48).

Fixpoint to_N_acc (acc : N) (s : string) : N :=
  match s with
  | EmptyString => acc
  | String c r => to_N_acc (10 * acc + digit_val c) r
  end.

Definition to_N (s : string) : N := to_N_acc 0 s.

(** The last [k] decimal digits of [m], most significant first. *)
Definition digit_char (d : Z) : ascii := ascii_of_nat (48 + Z.to_nat d).

Fixpoint fixed (k : nat) (m : Z) : string :=
  match k with
  | O => EmptyString
  | S k' => fixed k' (m / 10) ++ String (digit_char (m mod 10)) EmptyString
  end.

(** [str(z)]. *)
Definition of_Z (z : Z) : string :=
  if z <? 0 then "-" ++ of_N (Z.abs_N z) else of_N (Z.to_N z).

(** [format(z, "02d")]: sign, then zero padding up to two characters. *)
Definition fmt_02d (z : Z) : string :=
  if z <? 0 then "-" ++ lpad0 1 (of_N (Z.abs_N z))
  else lpad0 2 (of_N (Z.to_N z)).

(** Optional sign in front of [s]. *)
Definition sign_split (s : string) : bool * string :=
  match s with
  | String "-" r => (true, r)
  | String "+" r => (false, r)
  | _ => (false, s)
  end.

(** [int(s)]: surrounding white space, an optional sign, decimal digits.
    [None] is [ValueError].  (Digit grouping with ['_'] is left out: no
    argument of [int] in this module can hold an underscore.) *)
Definition py_int (s : string) : option Z :=
  let '(neg, body) := sign_split (strip s) in
  if isdecimal body then
    Some (if neg then - Z.of_N (to_N body) else Z.of_N (to_N body))
  else None.

Definition is_exp_mark (c : ascii) : bool :=
  Ascii.eqb c "e" || Ascii.eqb c "E".

(** The exponent part of a float literal: absent, or a signed integer. *)
Definition exponent (e : option string) : option Z :=
  match e with
  | None => Some 0
  | Some t =>
      let '(neg, body) := sign_split t in
      if isdecimal body then
        Some (if neg then - Z.of_N (to_N body) else Z.of_N (to_N body))
      else None
  end.

(** The value of an unsigned decimal literal of [float()]: digits with
    an optional fraction and an optional exponent.  [None]: not such a
    literal. *)
Definition literal (body : string) : option Q :=
  let '(mant, ex) := break is_exp_mark body in
  let '(ip, fpo) := break (Ascii.eqb ".") mant in
  let fp := match fpo with Some f => f | None => EmptyString end in
  if all_chars is_digit ip && all_chars is_digit fp
     && negb ((ip =? "")%string && (fp =? "")%string) then
    match exponent ex with
    | Some e =>
        let k := String.length fp in
        let m := (Z.of_N (to_N ip) * 10 ^ Z.of_nat k + Z.of_N (to_N fp))%Z in
        Some (Qmake m (Z.to_pos (10 ^ Z.of_nat k)) * Qpower (10 # 1) e)%Q
    | None => None
    end
  else None.

(** [s.lower()] on the letters ['A'] to ['Z']. *)
Definition lower_char (c : ascii) : ascii :=
  let n := nat_of_ascii c in
  if (65 <=? n)%nat && (n <=? 90)%nat then ascii_of_nat (n + 32) else c.

Fixpoint lower (s : string) : string :=
  match s with
  | EmptyString => EmptyString
  | String c r => String (lower_char c) (lower r)
  end.

(** Round a non-negative rational to the nearest integer, ties to even. *)
Definition round_half_even (q : Q) : Z :=
  let n := Qnum q in
  let d := Zpos (Qden q) in
  let fl := n / d in
  let r := n mod d in
  if 2 * r <? d then fl
  else if d <? 2 * r then fl + 1
  else if Z.even fl then fl else fl + 1.

(** [format(x, ".5f")] of a finite [x]: the sign, the integer part, the
    point and five digits of the correctly rounded value. *)
Definition fmt_5f (x : Q) : string :=
  let n := round_half_even (Qabs x * (100000 # 1))%Q in
  (if Qnum x <? 0 then "-" else "")
  ++ of_N (Z.to_N (n / 100000)) ++ "." ++ fixed 5 (n mod 100000).

End Str.

(* ================================================================== *)
(** * Floats *)
(* ================================================================== *)

Module Float.

(** A binary64 value.  [Fin q] is the finite value that is exactly [q],
    [+0.0] when [q] is zero. *)
Inductive t : Type :=
| Fin (q : Q)
| NegZero
| Inf (neg : bool)
| NaN.

(** [q * 2^k]. *)
Definition shift (q : Q) (k : Z) : Q :=
  if 0 <=? k then (q * inject_Z (2 ^ k))%Q
  else (q / inject_Z (2 ^ (- k)))%Q.

(** The binary exponent of [n/d]: the [e] with [2^e <= n/d < 2^(e+1)]. *)
Definition exponent (n d : positive) : Z :=
  let e := Z.log2 (Zpos n) - Z.log2 (Zpos d) in
  if Qle_bool (shift 1 e) (Zpos n # d) then e else e - 1.

(** [n/d] rounded to binary64, to nearest and ties to even: 53 bits of
    mantissa above the exponent [-1022], the multiples of [2^-1074] below
    it.  [None]: the rounded value is [2^1024] or more. *)
Definition round_pos (n d : positive) : option Q :=
  let e := Z.max (exponent n d) (-1022) in
  let m := Str.round_half_even (shift (Zpos n # d) (52 - e)) in
  let v := shift (inject_Z m) (e - 52) in
  if Qle_bool (inject_Z (2 ^ 1024)) v then None else Some (Qred v).

(** The float nearest to the rational [q], taken in lowest terms. *)
Definition of_Q (q : Q) : t :=
  let r := Qred q in
  match Qnum r with
  | Z0 => Fin 0
  | Zpos n =>
      match round_pos n (Qden r) with
      | Some v => Fin v
      | None => Inf false
      end
  | Zneg n =>
      match round_pos n (Qden r) with
      | Some v => if Qeq_bool v 0 then NegZero else Fin (- v)
      | None => Inf true
      end
  end.

Definition is_nan (x : t) : bool :=
  match x with NaN => true | _ => false end.

(** The value of a finite float. *)
Definition num (x : t) : Q :=
  match x with Fin q => q | _ => 0%Q end.

(** The order of two floats; [None] when one is [nan]. *)
Definition compare (x y : t) : option comparison :=
  match x, y with
  | NaN, _ | _, NaN => None
  | Inf a, Inf b =>
      Some (if a then if b then Eq else Lt else if b then Gt else Eq)
  | Inf a, _ => Some (if a then Lt else Gt)
  | _, Inf b => Some (if b then Gt else Lt)
  | _, _ => Some (Qcompare (num x) (num y))
  end.

(** [x >= y] and [x > y]. *)
Definition ge (x y : t) : bool :=
  match compare x y with
  | Some Gt | Some Eq => true
  | _ => false
  end.

Definition gt (x y : t) : bool :=
  match compare x y with
  | Some Gt => true
  | _ => false
  end.

(** [-x]. *)
Definition opp (x : t) : t :=
  match x with
  | Fin q => if Qeq_bool q 0 then NegZero else Fin (- q)
  | NegZero => Fin 0
  | Inf neg => Inf (negb neg)
  | NaN => NaN
  end.

(** [x + y]: an exact sum that is zero is [+0.0], but [-0.0 + -0.0]. *)
Definition add (x y : t) : t :=
  match x, y with
  | NaN, _ | _, NaN => NaN
  | Inf a, Inf b => if Bool.eqb a b then Inf a else NaN
  | Inf a, _ => Inf a
  | _, Inf b => Inf b
  | NegZero, NegZero => NegZero
  | _, _ => of_Q (num x + num y)
  end.

(** [x - y]. *)
Definition sub (x y : t) : t := add x (opp y).

(** [x / 2]. *)
Definition half (x : t) : t :=
  match x with
  | Fin q => of_Q (q / 2)
  | _ => x
  end.

Definition one : t := Fin 1.

(** [float(s)]: white space, a sign, then [nan], [inf], [infinity] in
    any case, or a decimal literal.  [None] is [ValueError].  (Digit
    grouping with ['_'] is left out: no argument of [float] in this module
    can hold an underscore.) *)
Definition of_string (s : string) : option t :=
  let '(neg, body) := Str.sign_split (Str.strip s) in
  if (Str.lower body =? "nan")%string then Some NaN
  else if (Str.lower body =? "inf")%string
          || (Str.lower body =? "infinity")%string then Some (Inf neg)
  else
    match Str.literal body with
    | Some q =>
        Some (if Qeq_bool q 0 then if neg then NegZero else Fin 0
              else of_Q (if neg then - q else q))
    | None => None
    end.

(** [format(x, ".5f")]. *)
Definition fmt_5f (x : t) : string :=
  match x with
  | Fin q => Str.fmt_5f q
  | NegZero => "-0.00000"
  | Inf neg => if neg then "-inf" else "inf"
  | NaN => "nan"
  end.

End Float.

(* ================================================================== *)
(** * Exceptions, traces and the model directory *)
(* ================================================================== *)

Inductive exception : Type :=
| IndexError
| ValueError
| KeyError (column : string)
| Exception (msg : string).

Inductive result (A : Type) : Type :=
| Return (a : A)
| Raise (e : exception).
Arguments Return {A} a.
Arguments Raise {A} e.

(** The messages of [logger.warning] and [logger.debug], by their text. *)
Inductive log_record : Type :=
| WarnDirNeedsTf (filepath : string)
| WarnBadSuffix (filepath : string)
| WarnTooFewFields (filepath : string)
| WarnNoAccuracy (filepath : string)
| DebugKeep (filename : string)
| DebugDelete (filename : string)
| DebugSaveStart
| DebugSaveReady.

(** The python objects a caller hands over as [new_model] and
    [model_template_for_save]. *)
Inductive model_handle : Type :=
| NewModel
| TemplateForSave.

Inductive printed : Type :=
| BetterOnesFoundFor (filename : string)
| BetterOne (filename : string)
| BestModel (acc_combined acc_train acc_val : Float.t) (epoch : Z).

(** What a run does to the outside world, in the order it does it. *)
Inductive event : Type :=
| Log (r : log_record)
| Print (p : printed)
| Save (source : model_handle) (path : string)
| SaveWeights (source : model_handle) (path : string)
| Rmtree (path : string)
| Unlink (path : string).

(** A computation that logs and may raise. *)
Definition W (A : Type) : Type := (list event * result A)%type.

Definition ret {A} (a : A) : W A := ([], Return a).
Definition raise {A} (e : exception) : W A := ([], Raise e).
Definition emit (ev : event) : W unit := ([ev], Return tt).

Definition bind {A B} (m : W A) (k : A -> W B) : W B :=
  match m with
  | (tr, Return a) => let '(tr', r) := k a in ((tr ++ tr')%list, r)
  | (tr, Raise e) => (tr, Raise e)
  end.

Notation "x <- m ;; k" := (bind m (fun x => k))
  (at level 61, m at next level, right associativity).
Notation "' p <- m ;; k" := (bind m (fun x => let 'p := x in k))
  (at level 61, p pattern, m at next level, right associativity).
Notation "m ;;; k" := (bind m (fun _ => k))
  (at level 61, right associativity).

Definition trace_of {A} (m : W A) : list event := fst m.
Definition outcome {A} (m : W A) : result A := snd m.

(** [l[i]] for a non-negative [i]. *)
Definition index {A} (l : list A) (i : nat) : W A :=
  match nth_error l i with
  | Some a => ret a
  | None => raise IndexError
  end.

(** [l[-1]]. *)
Definition index_last {A} (l : list A) : W A :=
  match rev l with
  | a :: _ => ret a
  | [] => raise IndexError
  end.

Definition int (s : string) : W Z :=
  match Str.py_int s with
  | Some z => ret z
  | None => raise ValueError
  end.

Definition float (s : string) : W Float.t :=
  match Float.of_string s with
  | Some x => ret x
  | None => raise ValueError
  end.

(** One entry of the model directory. *)
Record entry : Type := { e_name : string; e_is_dir : bool }.

Definition directory : Type := list entry.

(** [Path(p).exists()], [Path(p).is_dir()], [model_dir.glob("*" + suffix)]. *)
Definition exists_ (d : directory) (p : string) : bool :=
  existsb (fun e => (e_name e =? p)%string) d.

Definition is_dir (d : directory) (p : string) : bool :=
  existsb (fun e => (e_name e =? p)%string && e_is_dir e) d.

Definition glob (d : directory) (suffix : string) : list string :=
  map e_name (filter (fun e => Str.endswith (e_name e) suffix) d).

(** [shutil.rmtree(p)] and [Path(p).unlink()] on the directory. *)
Definition remove (d : directory) (p : string) : directory :=
  filter (fun e => negb (e_name e =? p)%string) d.

(** [Path.name] of pathlib on POSIX: the last of the parts of the path,
    which are the pieces between the ['/'] that are neither empty nor
    ["."]; empty when there is none. *)
Definition name (path : string) : string :=
  last (filter (fun part => negb (part =? "")%string
                            && negb (part =? ".")%string)
          (Str.split "/" path)) EmptyString.

(** [Path.suffix] and [Path.stem]: with [i = name.rfind(".")], the suffix
    is [name[i:]] and the stem [name[:i]] when [0 < i < len(name) - 1];
    otherwise the suffix is empty and the stem is the name. *)
Definition suffix (path : string) : string :=
  match Str.rsplit "." (name path) with
  | Some (b, t) =>
      if negb (b =? "")%string && negb (t =? "")%string
      then String "." t else EmptyString
  | None => EmptyString
  end.

Definition stem (path : string) : string :=
  match Str.rsplit "." (name path) with
  | Some (b, t) =>
      if negb (b =? "")%string && negb (t =? "")%string then b
      else name path
  | None => name path
  end.

(* ================================================================== *)
(** * Model records *)
(* ================================================================== *)

(** The ['filepath'] cell of a row: [parse_model_filename] stores the
    [Path] it was given, [save_and_clean_models] stores [str(new_model_path)]
    for the candidate.  Python's [==] between a [Path] and a [str] is
    [False] whatever they spell. *)
Inductive filepath_cell : Type :=
| PathObj (p : string)
| StrObj (p : string).

Definition cell_eqb (a b : filepath_cell) : bool :=
  match a, b with
  | PathObj p, PathObj q => (p =? q)%string
  | StrObj p, StrObj q => (p =? q)%string
  | _, _ => false
  end.

(** [Path(cell)]. *)
Definition cell_path (a : filepath_cell) : string :=
  match a with PathObj p => p | StrObj p => p end.

Record ModelInfo : Type := {
  filepath : filepath_cell;
  filename : string;
  basefilename : option string;
  segment_subject : string;
  traindata_version : Z;
  model_architecture : string;
  hyperparams_version : Z;
  acc_combined : Float.t;
  acc_train : Float.t;
  acc_val : Float.t;
  epoch : Z;
  save_format : string
}.

(** A pandas frame of model rows; [pd.DataFrame([])] has no columns. *)
Record DataFrame : Type := { has_columns : bool; rows : list ModelInfo }.

Definition DataFrame_of (l : list ModelInfo) : DataFrame :=
  {| has_columns := match l with [] => false | _ => true end; rows := l |}.

(** [df.loc[df[column] == value]]: [KeyError] without the column. *)
Definition loc (column : string) (p : ModelInfo -> bool) (df : DataFrame)
  : W DataFrame :=
  if has_columns df
  then ret {| has_columns := true; rows := filter p (rows df) |}
  else raise (KeyError column).

(* ================================================================== *)
(** * The file name codec *)
(* ================================================================== *)

Definition format_model_basefilename
    (segment_subject : string) (traindata_version : Z)
    (model_architecture : string) (hyperparams_version : Z) : string :=
  let filename :=
    segment_subject ++ "_" ++ Str.fmt_02d traindata_version ++ "_"
    ++ model_architecture in
  if 0 <? hyperparams_version
  then filename ++ "+" ++ Str.fmt_02d hyperparams_version
  else filename.

Definition format_model_filename
    (segment_subject : string) (traindata_version : Z)
    (model_architecture : string) (hyperparams_version : Z)
    (acc_train acc_val acc_combined : Float.t) (epoch : Z)
    (save_format : string) : string :=
  let filename :=
    format_model_basefilename segment_subject traindata_version
      model_architecture hyperparams_version in
  let filename :=
    filename ++ "_" ++ Float.fmt_5f acc_combined
    ++ "_" ++ Float.fmt_5f acc_train
    ++ "_" ++ Float.fmt_5f acc_val ++ "_" ++ Str.of_Z epoch in
  if (save_format =? "tf")%string then filename ++ "_tf"
  else filename ++ ".hdf5".

(** Lines 140-147: the hyper parameter version, when the architecture
    token carries one. *)
Definition parse_train_info (model_train_info : string) : W (Z * string) :=
  let model_train_info_values := Str.split "+" model_train_info in
  last_value <- index_last model_train_info_values ;;
  if Str.isdigit last_value
  then hyperparams_version <- int last_value ;;
       ret (hyperparams_version,
            Str.join "+" (removelast model_train_info_values))
  else ret (0, model_train_info).

(** Lines 149-160: the accuracies and the epoch. *)
Definition parse_accuracies (filepath : string) (param_values : list string)
  : W (Float.t * Float.t * Float.t * Z) :=
  if (3 <? List.length param_values)%nat
  then s3 <- index param_values 3 ;; acc_combined <- float s3 ;;
       s4 <- index param_values 4 ;; acc_train <- float s4 ;;
       s5 <- index param_values 5 ;; acc_val <- float s5 ;;
       s6 <- index param_values 6 ;; epoch <- int s6 ;;
       ret (acc_combined, acc_train, acc_val, epoch)
  else emit (Log (WarnNoAccuracy filepath)) ;;;
       ret (Float.Fin 0, Float.Fin 0, Float.Fin 0, 0).

(** Lines 132-179 of [parse_model_filename]: the fields of [filename]. *)
Definition parse_fields (filepath save_format filename : string)
  : W (option ModelInfo) :=
  let param_values := Str.split "_" filename in
  (if (List.length param_values <? 3)%nat
   then emit (Log (WarnTooFewFields filepath)) else ret tt) ;;;
  segment_subject <- index param_values 0 ;;
  s1 <- index param_values 1 ;;
  traindata_version <- int s1 ;;
  model_train_info <- index param_values 2 ;;
  '(hyperparams_version, model_architecture) <-
    parse_train_info model_train_info ;;
  '(acc_combined, acc_train, acc_val, epoch) <-
    parse_accuracies filepath param_values ;;
  let basefilename :=
    format_model_basefilename segment_subject traindata_version
      model_architecture hyperparams_version in
  ret (Some {| filepath := PathObj filepath;
               filename := filename;
               basefilename := Some basefilename;
               segment_subject := segment_subject;
               traindata_version := traindata_version;
               model_architecture := model_architecture;
               hyperparams_version := hyperparams_version;
               acc_combined := acc_combined;
               acc_train := acc_train;
               acc_val := acc_val;
               epoch := epoch;
               save_format := save_format |}).

Definition parse_model_filename (d : directory) (filepath : string)
  : W (option ModelInfo) :=
  if is_dir d filepath then
    if negb (Str.endswith (name filepath) "_tf")
    then emit (Log (WarnDirNeedsTf filepath)) ;;; ret None
    else parse_fields filepath "tf" (name filepath)
  else
    let filename := stem filepath in
    if existsb (String.eqb (suffix filepath)) [".h5"; ".hdf5"]
    then parse_fields filepath "h5" filename
    else emit (Log (WarnBadSuffix filepath)) ;;; ret None.

(* ================================================================== *)
(** * The registry scan *)
(* ================================================================== *)

(** The loop of [get_models] over the listed paths. *)
Fixpoint parse_all (d : directory) (model_paths : list string)
  : W (list ModelInfo) :=
  match model_paths with
  | [] => ret []
  | model_path :: more =>
      model_info <- parse_model_filename d model_path ;;
      rest <- parse_all d more ;;
      ret (match model_info with
           | Some i => i :: rest
           | None => rest
           end)
  end.

Definition opt_filter {A} (f : option A) (p : A -> ModelInfo -> bool)
    (l : list ModelInfo) : list ModelInfo :=
  match f with
  | Some a => filter (p a) l
  | None => l
  end.

Definition get_models (d : directory)
    (segment_subject' : option string) (model_architecture' : option string)
    (traindata_version' : option Z) (hyperparams_version' : option Z)
  : W DataFrame :=
  let model_paths := (glob d ".hdf5" ++ glob d ".h5" ++ glob d "_tf")%list in
  model_info_list <- parse_all d model_paths ;;
  let model_info_df := DataFrame_of model_info_list in
  if (0 <? List.length (rows model_info_df))%nat then
    let l := rows model_info_df in
    let l := opt_filter segment_subject'
               (fun s r => (segment_subject r =? s)%string) l in
    let l := opt_filter model_architecture'
               (fun s r => (model_architecture r =? s)%string) l in
    let l := opt_filter traindata_version'
               (fun v r => traindata_version r =? v) l in
    let l := opt_filter hyperparams_version'
               (fun v r => hyperparams_version r =? v) l in
    ret {| has_columns := true; rows := l |}
  else ret model_info_df.

(** [series.max()] of a non-empty column. *)
Definition column_max (x : Z) (l : list Z) : Z := fold_left Z.max l x.

Definition get_max_data_version (d : directory) : W Z :=
  models_df <- get_models d None None None None ;;
  match map traindata_version (rows models_df) with
  | x :: l => ret (column_max x l)
  | [] => ret (-1)
  end.

(** [values.argmax()] of numpy: the first [nan] when there is one, else
    the first row that attains the maximum. *)
Fixpoint argmax (best : ModelInfo) (l : list ModelInfo) : ModelInfo :=
  match l with
  | [] => best
  | r :: t =>
      if Float.is_nan (acc_combined best) then best
      else if Float.is_nan (acc_combined r)
              || Float.gt (acc_combined r) (acc_combined best)
      then argmax r t else argmax best t
  end.

Definition best_row (df : DataFrame) : W (option ModelInfo) :=
  match rows df with
  | r :: t => ret (Some (argmax r t))
  | [] => ret None
  end.

Definition get_best_model (d : directory)
    (segment_subject' : option string) (traindata_version' : option Z)
    (model_architecture' : option string) (hyperparams_version' : option Z)
  : W (option ModelInfo) :=
  model_info_df <- get_models d segment_subject' model_architecture'
                     traindata_version' hyperparams_version' ;;
  match traindata_version' with
  | None =>
      max_data_version <- get_max_data_version d ;;
      if max_data_version =? -1 then ret None
      else
        model_info_df <- loc "traindata_version"
          (fun r => traindata_version r =? max_data_version) model_info_df ;;
        best_row model_info_df
  | Some _ => best_row model_info_df
  end.

Definition file (n : string) : entry := {| e_name := n; e_is_dir := false |}.
Definition dir (n : string) : entry := {| e_name := n; e_is_dir := true |}.

(* ================================================================== *)
(** * The retention cycle *)
(* ================================================================== *)

(** The parameters of [save_and_clean_models] ([model_save_dir] is the
    [directory] the run is given). *)
Module Args.
Record t : Type := {
  segment_subject : string;
  traindata_version : Z;
  model_architecture : string;
  hyperparams_version : Z;
  monitor_metric_mode : string;
  new_model : bool;                    (* [new_model is not None] *)
  new_model_monitor_train : option Float.t;
  new_model_monitor_val : option Float.t;
  new_model_epoch : option Z;
  save_format : string;
  save_best_only : bool;
  save_weights_only : bool;
  model_template_for_save : bool;      (* [... is not None] *)
  verbose : bool;
  debug : bool;
  only_report : bool
}.
End Args.

(** Lines 419-432: the scores stored for the candidate, as
    [(acc_combined, acc_train, acc_val)]. *)
Definition new_model_acc (monitor_metric_mode : string)
    (new_model_monitor_train new_model_monitor_val : Float.t)
  : Float.t * Float.t * Float.t :=
  let new_model_monitor_combined :=
    Float.half (Float.add new_model_monitor_train new_model_monitor_val) in
  if (monitor_metric_mode =? "max")%string
  then (new_model_monitor_combined,
        new_model_monitor_train,
        new_model_monitor_val)
  else (Float.sub Float.one new_model_monitor_combined,
        Float.sub Float.one new_model_monitor_train,
        Float.sub Float.one new_model_monitor_val).

(** Lines 434-459: the row appended for the candidate. *)
Definition new_model_row (a : Args.t) (t v : Float.t) (new_model_epoch : Z)
  : ModelInfo :=
  let '(new_model_acc_combined, new_model_acc_train, new_model_acc_val) :=
    new_model_acc (Args.monitor_metric_mode a) t v in
  let new_model_filename :=
    format_model_filename (Args.segment_subject a) (Args.traindata_version a)
      (Args.model_architecture a) (Args.hyperparams_version a)
      new_model_acc_train new_model_acc_val new_model_acc_combined
      new_model_epoch (Args.save_format a) in
  {| filepath := StrObj new_model_filename;
     filename := new_model_filename;
     basefilename := None;
     segment_subject := Args.segment_subject a;
     traindata_version := Args.traindata_version a;
     model_architecture := Args.model_architecture a;
     hyperparams_version := Args.hyperparams_version a;
     acc_combined := new_model_acc_combined;
     acc_train := new_model_acc_train;
     acc_val := new_model_acc_val;
     epoch := new_model_epoch;
     save_format := Args.save_format a |}.

(** [df.sort_values(by="acc_combined", ascending=False)]: descending,
    the rows whose [acc_combined] is [nan] last.  Rows with equal scores
    stay in frame order here; pandas does not promise an order among them,
    and what is proved of the loop below relies on the order of rows with
    different scores only. *)
Fixpoint insert_desc (x : ModelInfo) (l : list ModelInfo)
  : list ModelInfo :=
  match l with
  | [] => [x]
  | y :: t =>
      if Float.ge (acc_combined x) (acc_combined y)
      then x :: l else y :: insert_desc x t
  end.

Definition sort_values (l : list ModelInfo) : list ModelInfo :=
  (fold_right insert_desc []
     (filter (fun r => negb (Float.is_nan (acc_combined r))) l)
   ++ filter (fun r => Float.is_nan (acc_combined r)) l)%list.

(** Lines 470-472 and 478-482: the rows that make [model_info] useless. *)
Definition better_ones (save_best_only : bool)
    (model_info_df : list ModelInfo) (model_info : ModelInfo)
  : list ModelInfo :=
  if save_best_only then
    filter (fun r =>
              negb (cell_eqb (filepath r) (filepath model_info))
              && Float.ge (acc_combined r) (acc_combined model_info))
           model_info_df
  else
    filter (fun r =>
              negb (cell_eqb (filepath r) (filepath model_info))
              && Float.ge (acc_combined r) (acc_combined model_info)
              && Float.ge (acc_train r) (acc_train model_info)
              && Float.ge (acc_val r) (acc_val model_info))
           model_info_df.

(** Lines 468-484: the value of [keep_model]. *)
Definition keep_model (save_best_only : bool)
    (model_info_df : list ModelInfo) (model_info : ModelInfo) : bool :=
  match better_ones save_best_only model_info_df model_info with
  | [] => true
  | _ :: _ => false
  end.

(** What [save] and [save_weights] of the model object (keras, outside
    this module) leave on disk for the paths of this module, which end in
    [_tf] for the ['tf'] format and in [.hdf5] otherwise.  [save] writes a
    directory tree at a path in [_tf] and a single file at a path in
    [.hdf5]; so does [save_weights] at a path in [.hdf5], but at a path in
    [_tf] it writes a checkpoint: the files [<path>.index] and
    [<path>.data-00000-of-00001], the file [checkpoint] beside them, and
    nothing at the path itself. *)
Definition persisted (a : Args.t) (path : string) : list entry :=
  if Args.save_weights_only a && (Args.save_format a =? "tf")%string
  then [file (path ++ ".index"); file (path ++ ".data-00000-of-00001");
        file "checkpoint"]
  else [{| e_name := path;
           e_is_dir := (Args.save_format a =? "tf")%string |}].

(** Writing entries to the directory: an entry that is there already is
    written over. *)
Definition write (d : directory) (entries : list entry) : directory :=
  fold_left (fun d e => if exists_ d (e_name e) then d else (d ++ [e])%list)
    entries d.

(** Lines 496-505: which object is saved, and how. *)
Definition save_call (a : Args.t) (path : string) : event :=
  let source :=
    if Args.model_template_for_save a then TemplateForSave else NewModel in
  if Args.save_weights_only a then SaveWeights source path
  else Save source path.

(** The state the loop works on: the directory and the trace so far. *)
Definition world : Type := (directory * list event)%type.

(** Lines 465-521: one iteration of the loop. *)
Definition loop_body (a : Args.t) (model_info_df : list ModelInfo)
    (new_model_path : option string) (w : world) (model_info : ModelInfo)
  : world :=
  let '(d, tr) := w in
  if keep_model (Args.save_best_only a) model_info_df model_info then
    let tr := (tr ++ [Log (DebugKeep (filename model_info))])%list in
    match new_model_path with
    | Some p =>
        if negb (Args.only_report a)
           && cell_eqb (filepath model_info) (StrObj p)
           && negb (exists_ d p)
        then (write d (persisted a p),
              (tr ++ [Log DebugSaveStart; save_call a p; Log DebugSaveReady])%list)
        else (d, tr)
    | None => (d, tr)
    end
  else
    let p := cell_path (filepath model_info) in
    let '(d, tr) :=
      if Args.only_report a
      then (d, (tr ++ [Log (DebugDelete (filename model_info))])%list)
      else if exists_ d p
      then (remove d p,
            (tr ++ [Log (DebugDelete (filename model_info));
                    if is_dir d p then Rmtree p else Unlink p])%list)
      else (d, tr) in
    if Args.debug a
    then (d, (tr ++ Print (BetterOnesFoundFor (filename model_info))
                 :: map (fun r => Print (BetterOne (filename r)))
                        (better_ones (Args.save_best_only a)
                           model_info_df model_info))%list)
    else (d, tr).

(** Lines 410-459: the frame with the candidate appended, and its path. *)
Definition with_new_model (a : Args.t) (model_info_df : DataFrame)
  : result (option string * DataFrame) :=
  if Args.new_model a then
    match Args.new_model_monitor_train a, Args.new_model_monitor_val a,
          Args.new_model_epoch a with
    | Some t, Some v, Some e =>
        let row := new_model_row a t v e in
        Return (Some (filename row),
                {| has_columns := true;
                   rows := (rows model_info_df ++ [row])%list |})
    | _, _, _ =>
        Raise (Exception "If new_model is not None, new_model_monitor_... parameters cannot be None either")
    end
  else Return (None, model_info_df).

(** Lines 523-530: the report of the best model. *)
Definition report_best (a : Args.t) (d : directory) : W unit :=
  if Args.verbose a || Args.debug a then
    best_model <- get_best_model d (Some (Args.segment_subject a))
                    (Some (Args.traindata_version a))
                    (Some (Args.model_architecture a)) None ;;
    match best_model with
    | Some b =>
        emit (Print (BestModel (acc_combined b) (acc_train b) (acc_val b)
                       (epoch b)))
    | None => ret tt
    end
  else ret tt.

(** [save_and_clean_models]: the directory it leaves, what it did and how
    it ended. *)
Definition save_and_clean_models (a : Args.t) (d : directory)
  : directory * W unit :=
  if negb (existsb (String.eqb (Args.monitor_metric_mode a)) ["min"; "max"])
  then (d, raise (Exception "Invalid value for mode"))
  else if negb (existsb (String.eqb (Args.save_format a)) ["h5"; "tf"])
  then (d, raise (Exception "Invalid value for save_format"))
  else
    match get_models d (Some (Args.segment_subject a))
            (Some (Args.model_architecture a))
            (Some (Args.traindata_version a))
            (Some (Args.hyperparams_version a)) with
    | (tr0, Raise e) => (d, (tr0, Raise e))
    | (tr0, Return model_info_df) =>
        match with_new_model a model_info_df with
        | Raise e => (d, (tr0, Raise e))
        | Return (new_model_path, model_info_df) =>
            if negb (has_columns model_info_df)
            then (d, (tr0, Raise (KeyError "acc_combined")))
            else
              let model_info_sorted_df := sort_values (rows model_info_df) in
              let '(d', tr1) :=
                fold_left (loop_body a (rows model_info_df) new_model_path)
                  model_info_sorted_df (d, tr0) in
              let '(tr2, r) := report_best a d' in
              (d', ((tr1 ++ tr2)%list, r))
        end
    end.

(** The file system calls of a trace. *)
Definition is_persist (ev : event) : bool :=
  match ev with Save _ _ | SaveWeights _ _ => true | _ => false end.

Definition is_delete (ev : event) : bool :=
  match ev with Rmtree _ | Unlink _ => true | _ => false end.

Definition fs_calls (tr : list event) : list event :=
  filter (fun ev => is_persist ev || is_delete ev) tr.

Definition run_dir (a : Args.t) (d : directory) : directory :=
  fst (save_and_clean_models a d).

Definition run_calls (a : Args.t) (d : directory) : list event :=
  fs_calls (trace_of (snd (save_and_clean_models a d))).

Definition run_outcome (a : Args.t) (d : directory) : result unit :=
  outcome (snd (save_and_clean_models a d)).

(* ================================================================== *)
(** * Vocabulary of the properties *)
(* ================================================================== *)

(** Classes of characters the codec relies on. *)
Definition not_space (c : ascii) : bool := negb (Str.is_space c).
Definition not_exp (c : ascii) : bool := negb (Str.is_exp_mark c).
Definition not_dot (c : ascii) : bool := negb (Ascii.eqb "." c).

(** [s] holds no underscore, the separator of the fields of a name. *)
Definition no_underscore (s : string) : Prop :=
  Str.all_chars (Str.isnt "_") s = true.

(** A score that has five decimals: the float nearest to a multiple of
    [10^-5], below [2^52 * 10^-5] in magnitude. *)
Definition five_decimals (x : Float.t) : Prop :=
  exists k : Z, Z.abs k < 2 ^ 52 /\ x = Float.of_Q (k # 100000).

(** [s] holds no slash, the separator of the parts of a path. *)
Definition no_slash (s : string) : Prop :=
  Str.all_chars (Str.isnt "/") s = true.

(** The characters the pieces of a formatted name are made of, next to
    those of the subject and the architecture: a class [q] of characters
    that holds them all. *)
Definition piece_class (q : ascii -> bool) : Prop :=
  forallb q ["0"; "1"; "2"; "3"; "4"; "5"; "6"; "7"; "8"; "9";
             "-"; "."; "+"; "i"; "n"; "f"; "a"]%char = true.

(** The float written [q] in decimal. *)
Definition dec (q : Q) : Float.t := Float.of_Q q.

(** [x == y] on floats, and [x] and [y] are the same number or both [nan]. *)
Definition feq (x y : Float.t) : Prop := Float.compare x y = Some Eq.

Definition same (x y : Float.t) : Prop :=
  feq x y \/ (x = Float.NaN /\ y = Float.NaN).

(** The architecture token of a name: the architecture, and the version
    of the hyper parameters when it is positive. *)
Definition train_info (arch : string) (hv : Z) : string :=
  if 0 <? hv then arch ++ "+" ++ Str.fmt_02d hv else arch.

(** The claim's wording of a well-formed architecture: it does not end
    with ['+'] and digits. *)
Definition no_plus_digits_suffix (arch : string) : Prop :=
  forall a n, arch = a ++ "+" ++ n -> Str.isdigit n = false.

(** The rows [get_models] decodes, before any filter. *)
Definition scan (d : directory) : W (list ModelInfo) :=
  parse_all d (glob d ".hdf5" ++ glob d ".h5" ++ glob d "_tf")%list.

(** The equality filters of [get_models]. *)
Definition select (segment_subject' model_architecture' : option string)
    (traindata_version' hyperparams_version' : option Z)
    (l : list ModelInfo) : list ModelInfo :=
  opt_filter hyperparams_version' (fun v r => hyperparams_version r =? v)
    (opt_filter traindata_version' (fun v r => traindata_version r =? v)
       (opt_filter model_architecture'
          (fun s r => (model_architecture r =? s)%string)
          (opt_filter segment_subject'
             (fun s r => (segment_subject r =? s)%string) l))).

(** The highest train data version of some rows, [-1] without rows. *)
Definition max_traindata_version (l : list ModelInfo) : Z :=
  match map traindata_version l with
  | x :: t => column_max x t
  | [] => -1
  end.

(** Arguments of a retention cycle for the models of ["roads"], train data
    version 1, architecture ["unet"], saved as ['h5'], without reports. *)
Definition cycle_args (save_best_only : bool) (monitor_metric_mode : string)
    (candidate : option (Float.t * Float.t * Z)) : Args.t :=
  {| Args.segment_subject := "roads";
     Args.traindata_version := 1;
     Args.model_architecture := "unet";
     Args.hyperparams_version := 0;
     Args.monitor_metric_mode := monitor_metric_mode;
     Args.new_model := match candidate with Some _ => true | None => false end;
     Args.new_model_monitor_train :=
       match candidate with Some (t, _, _) => Some t | None => None end;
     Args.new_model_monitor_val :=
       match candidate with Some (_, v, _) => Some v | None => None end;
     Args.new_model_epoch :=
       match candidate with Some (_, _, e) => Some e | None => None end;
     Args.save_format := "h5";
     Args.save_best_only := save_best_only;
     Args.save_weights_only := false;
     Args.model_template_for_save := false;
     Args.verbose := false;
     Args.debug := false;
     Args.only_report := false |}.

(** A row as [parse_model_filename] builds it for the ['h5'] file
    ["roads_01_unet_<scores>_<epoch>.hdf5"]. *)
Definition roads_row (stem' : string) (c t v : Float.t) (e : Z) : ModelInfo :=
  {| filepath := PathObj (stem' ++ ".hdf5");
     filename := stem';
     basefilename := Some "roads_01_unet";
     segment_subject := "roads";
     traindata_version := 1;
     model_architecture := "unet";
     hyperparams_version := 0;
     acc_combined := c; acc_train := t; acc_val := v;
     epoch := e; save_format := "h5" |}.

(** Two models of different subjects and train data versions. *)
Definition two_subjects : directory :=
  [file "roads_01_unet_0.80000_0.79000_0.81000_5.hdf5";
   file "trees_02_unet_0.70000_0.69000_0.71000_3.hdf5"].

(** The two models of the scenario of the specification: the first is
    better than the second on the three scores. *)
Definition model_a : ModelInfo :=
  roads_row "roads_01_unet_0.80000_0.79000_0.81000_5"
    (dec (8 # 10)) (dec (79 # 100)) (dec (81 # 100)) 5.

Definition model_b : ModelInfo :=
  roads_row "roads_01_unet_0.75000_0.74000_0.76000_3"
    (dec (75 # 100)) (dec (74 # 100)) (dec (76 # 100)) 3.

(** Two models with the same [acc_combined], the best of the directory. *)
Definition tied : directory :=
  [file "roads_01_unet_0.80000_0.79000_0.81000_5.hdf5";
   file "roads_01_unet_0.80000_0.74000_0.86000_3.hdf5"].

(** Two epochs with the same three scores. *)
Definition plateau : directory :=
  [file "roads_01_unet_0.80000_0.79000_0.81000_5.hdf5";
   file "roads_01_unet_0.80000_0.79000_0.81000_6.hdf5"].

(** The rows of the directory a cycle looks at: those of its identity. *)
Definition existing (a : Args.t) (d : directory) : W DataFrame :=
  get_models d (Some (Args.segment_subject a))
    (Some (Args.model_architecture a))
    (Some (Args.traindata_version a))
    (Some (Args.hyperparams_version a)).

(** The row of the candidate of a cycle, when it is given one. *)
Definition candidate (a : Args.t) : option ModelInfo :=
  if Args.new_model a then
    match Args.new_model_monitor_train a, Args.new_model_monitor_val a,
          Args.new_model_epoch a with
    | Some t, Some v, Some e => Some (new_model_row a t v e)
    | _, _, _ => None
    end
  else None.

(** The rows a cycle classifies: the existing ones, then the candidate. *)
Definition candidate_set (a : Args.t) (d : directory) : list ModelInfo :=
  match outcome (existing a d) with
  | Return df =>
      match with_new_model a df with
      | Return (_, df') => rows df'
      | Raise _ => []
      end
  | Raise _ => []
  end.

(** One iteration of the loop, from an empty trace: the directory it
    leaves and the events it adds. *)
Definition step_dir (a : Args.t) (df : list ModelInfo) (p : option string)
    (d : directory) (mi : ModelInfo) : directory :=
  fst (loop_body a df p (d, []) mi).

Definition step_events (a : Args.t) (df : list ModelInfo) (p : option string)
    (d : directory) (mi : ModelInfo) : list event :=
  snd (loop_body a df p (d, []) mi).

Fixpoint loop_dir (a : Args.t) (df : list ModelInfo) (p : option string)
    (d : directory) (l : list ModelInfo) : directory :=
  match l with
  | [] => d
  | mi :: r => loop_dir a df p (step_dir a df p d mi) r
  end.

Fixpoint loop_events (a : Args.t) (df : list ModelInfo) (p : option string)
    (d : directory) (l : list ModelInfo) : list event :=
  match l with
  | [] => []
  | mi :: r =>
      (step_events a df p d mi
       ++ loop_events a df p (step_dir a df p d mi) r)%list
  end.

(** The path an event deletes. *)
Definition deleted_path (ev : event) : option string :=
  match ev with
  | Rmtree p | Unlink p => Some p
  | _ => None
  end.



(** A computation that touches no file. *)
Definition quiet {A} (m : W A) : Prop := fs_calls (trace_of m) = [].

(** [r] has the identity the cycle [a] works on. *)
Definition of_identity (a : Args.t) (r : ModelInfo) : bool :=
  (segment_subject r =? Args.segment_subject a)%string
  && (model_architecture r =? Args.model_architecture a)%string
  && (traindata_version r =? Args.traindata_version a)
  && (hyperparams_version r =? Args.hyperparams_version a).

(** The arguments pass the two checks of lines 395-400. *)
Definition valid_args (a : Args.t) : bool :=
  existsb (String.eqb (Args.monitor_metric_mode a)) ["min"; "max"]
  && existsb (String.eqb (Args.save_format a)) ["h5"; "tf"].




(** The counterexample to the idempotence of C9: one model at 0.5 on the
    three scores, and a candidate whose scores differ from 0.5 in the sixth
    decimal. *)
Definition half : directory :=
  [file "roads_01_unet_0.50000_0.50000_0.50000_4.hdf5"].

Definition near_half : option (Float.t * Float.t * Z) :=
  Some (dec (500001 # 1000000), dec (499999 # 1000000), 5).

(** [r] and [r'] carry the same three scores. *)
Definition same_scores (r r' : ModelInfo) : Prop :=
  same (acc_combined r) (acc_combined r')
  /\ same (acc_train r) (acc_train r')
  /\ same (acc_val r) (acc_val r').

(** The comparison of the policy: [r] makes [mi] useless. *)
Definition at_least_as_good (save_best_only : bool) (r mi : ModelInfo)
  : Prop :=
  Float.ge (acc_combined r) (acc_combined mi) = true
  /\ (save_best_only = false ->
      Float.ge (acc_train r) (acc_train mi) = true
      /\ Float.ge (acc_val r) (acc_val mi) = true).

(** Two cycles on the same identity with the same policy. *)
Definition same_cycle (a a2 : Args.t) : Prop :=
  Args.segment_subject a2 = Args.segment_subject a
  /\ Args.traindata_version a2 = Args.traindata_version a
  /\ Args.model_architecture a2 = Args.model_architecture a
  /\ Args.hyperparams_version a2 = Args.hyperparams_version a
  /\ Args.save_best_only a2 = Args.save_best_only a.

(** The two models of the scenario of the specification on disk, and a
    better candidate whose scores have five decimals. *)
Definition scenario : directory :=
  [file "roads_01_unet_0.80000_0.79000_0.81000_5.hdf5";
   file "roads_01_unet_0.75000_0.74000_0.76000_3.hdf5"].

Definition better_candidate : option (Float.t * Float.t * Z) :=
  Some (dec (9 # 10), dec (92 # 100), 6).

(* ================================================================== *)
(** * Vocabulary of the further properties *)
(* ================================================================== *)

(** Two rows tie under a policy: the same [acc_combined] for best-only,
    the same three scores for pareto. *)
Definition tie (save_best_only : bool) (r r' : ModelInfo) : Prop :=
  if save_best_only then feq (acc_combined r) (acc_combined r')
  else feq (acc_combined r) (acc_combined r')
       /\ feq (acc_train r) (acc_train r')
       /\ feq (acc_val r) (acc_val r').

(** No two rows of the frame with different filepaths tie. *)
Definition no_ties (save_best_only : bool) (df : list ModelInfo) : Prop :=
  forall r r', In r df -> In r' df -> filepath r <> filepath r' ->
               ~ tie save_best_only r r'.

(** What a score [x] is read back as, [y], from its [".5f"] form: [nan],
    the infinities and [-0.0] as themselves, a finite [x] as the float
    nearest to a multiple [k * 10^-5] that is within [0.000005] of [x] - a
    zero with the sign of [x] when [k] is zero. *)
Definition rounded (x y : Float.t) : Prop :=
  match x with
  | Float.Fin q =>
      exists k : Z,
        (Qabs ((k # 100000) - q) <= 1 # 200000)%Q
        /\ y = (if k =? 0
                then if Qnum q <? 0 then Float.NegZero else Float.Fin 0
                else Float.of_Q (k # 100000))
  | _ => y = x
  end.

(** The arguments [a] with other values for [verbose] and [debug]. *)
Definition with_reports (verbose debug : bool) (a : Args.t) : Args.t :=
  {| Args.segment_subject := Args.segment_subject a;
     Args.traindata_version := Args.traindata_version a;
     Args.model_architecture := Args.model_architecture a;
     Args.hyperparams_version := Args.hyperparams_version a;
     Args.monitor_metric_mode := Args.monitor_metric_mode a;
     Args.new_model := Args.new_model a;
     Args.new_model_monitor_train := Args.new_model_monitor_train a;
     Args.new_model_monitor_val := Args.new_model_monitor_val a;
     Args.new_model_epoch := Args.new_model_epoch a;
     Args.save_format := Args.save_format a;
     Args.save_best_only := Args.save_best_only a;
     Args.save_weights_only := Args.save_weights_only a;
     Args.model_template_for_save := Args.model_template_for_save a;
     Args.verbose := verbose;
     Args.debug := debug;
     Args.only_report := Args.only_report a |}.

(** The arguments of [cycle_args] for a save of the weights only, in the
    ['tf'] format. *)
Definition weights_args (save_best_only : bool) (monitor_metric_mode : string)
    (candidate : option (Float.t * Float.t * Z)) : Args.t :=
  let a := cycle_args save_best_only monitor_metric_mode candidate in
  {| Args.segment_subject := Args.segment_subject a;
     Args.traindata_version := Args.traindata_version a;
     Args.model_architecture := Args.model_architecture a;
     Args.hyperparams_version := Args.hyperparams_version a;
     Args.monitor_metric_mode := Args.monitor_metric_mode a;
     Args.new_model := Args.new_model a;
     Args.new_model_monitor_train := Args.new_model_monitor_train a;
     Args.new_model_monitor_val := Args.new_model_monitor_val a;
     Args.new_model_epoch := Args.new_model_epoch a;
     Args.save_format := "tf";
     Args.save_best_only := save_best_only;
     Args.save_weights_only := true;
     Args.model_template_for_save := false;
     Args.verbose := false;
     Args.debug := false;
     Args.only_report := false |}.

(** The paths [get_models] lists in a directory. *)
Definition model_paths (d : directory) : list string :=
  (glob d ".hdf5" ++ glob d ".h5" ++ glob d "_tf")%list.

(* ================================================================== *)
(** * The checkpoint callback *)
(* ================================================================== *)

(** [logs.get(key)] on the metrics keras hands to a callback, as the items
    of the dict. *)
Fixpoint get (logs : list (string * Float.t)) (key : string)
  : option Float.t :=
  match logs with
  | [] => None
  | (k, v) :: more => if (k =? key)%string then Some v else get more key
  end.

(** The record [on_epoch_end] logs before it calls the retention cycle. *)
Inductive callback_record : Type :=
| DebugStartInCallback.

Module ModelCheckpointExt.

(** The attributes [__init__] stores ([model_save_dir] is the [directory]
    an epoch is given). *)
Record t : Type := {
  segment_subject : string;
  traindata_version : Z;
  model_architecture : string;
  hyperparams_version : Z;
  monitor_metric_mode : string;
  monitor_metric_train : string;
  monitor_metric_validation : string;
  save_format : string;
  save_best_only : bool;
  save_weights_only : bool;
  model_template_for_save : bool;       (* [... is not None] *)
  verbose : bool;
  only_report : bool
}.

(** Lines 307-327. *)
Definition __init__
    (segment_subject : string) (traindata_version : Z)
    (model_architecture : string) (hyperparams_version : Z)
    (monitor_metric_mode monitor_metric_train monitor_metric_validation
       save_format : string)
    (save_best_only save_weights_only model_template_for_save verbose
       only_report : bool) : result t :=
  if negb (existsb (String.eqb monitor_metric_mode) ["min"; "max"])
  then Raise (Exception "Invalid value for mode")
  else if negb (existsb (String.eqb save_format) ["h5"; "tf"])
  then Raise (Exception "Invalid value for save_format")
  else Return {| segment_subject := segment_subject;
                 traindata_version := traindata_version;
                 model_architecture := model_architecture;
                 hyperparams_version := hyperparams_version;
                 monitor_metric_mode := monitor_metric_mode;
                 monitor_metric_train := monitor_metric_train;
                 monitor_metric_validation := monitor_metric_validation;
                 save_format := save_format;
                 save_best_only := save_best_only;
                 save_weights_only := save_weights_only;
                 model_template_for_save := model_template_for_save;
                 verbose := verbose;
                 only_report := only_report |}.

(** Lines 332-348: the arguments of the call of [save_and_clean_models].
    [model] says whether [self.model], the model keras attached to the
    callback, is not [None]; [debug] is left at its default. *)
Definition epoch_args (self : t) (model : bool) (epoch : Z)
    (logs : list (string * Float.t)) : Args.t :=
  {| Args.segment_subject := segment_subject self;
     Args.traindata_version := traindata_version self;
     Args.model_architecture := model_architecture self;
     Args.hyperparams_version := hyperparams_version self;
     Args.monitor_metric_mode := monitor_metric_mode self;
     Args.new_model := model;
     Args.new_model_monitor_train := get logs (monitor_metric_train self);
     Args.new_model_monitor_val := get logs (monitor_metric_validation self);
     Args.new_model_epoch := Some epoch;
     Args.save_format := save_format self;
     Args.save_best_only := save_best_only self;
     Args.save_weights_only := save_weights_only self;
     Args.model_template_for_save := model_template_for_save self;
     Args.verbose := verbose self;
     Args.debug := false;
     Args.only_report := only_report self |}.

(** Lines 329-348: the record logged on entry, then the cycle. *)
Definition on_epoch_end (self : t) (model : bool) (epoch : Z)
    (logs : list (string * Float.t)) (d : directory)
  : callback_record * (directory * W unit) :=
  (DebugStartInCallback,
   save_and_clean_models (epoch_args self model epoch logs) d).

End ModelCheckpointExt.

(** The directory an epoch leaves, its file system calls and how it ended. *)
Definition epoch_dir (self : ModelCheckpointExt.t) (model : bool) (epoch : Z)
    (logs : list (string * Float.t)) (d : directory) : directory :=
  fst (snd (ModelCheckpointExt.on_epoch_end self model epoch logs d)).

Definition epoch_calls (self : ModelCheckpointExt.t) (model : bool)
    (epoch : Z) (logs : list (string * Float.t)) (d : directory) : list event :=
  fs_calls (trace_of (snd (snd (ModelCheckpointExt.on_epoch_end
                                  self model epoch logs d)))).

Definition epoch_outcome (self : ModelCheckpointExt.t) (model : bool)
    (epoch : Z) (logs : list (string * Float.t)) (d : directory) : result unit :=
  outcome (snd (snd (ModelCheckpointExt.on_epoch_end
                       self model epoch logs d))).

(** The message of the exception of lines 414-417. *)
Definition missing_monitor : exception :=
  Exception "If new_model is not None, new_model_monitor_... parameters cannot be None either".

(* ================================================================== *)
(** * The definitions at work *)
(* ================================================================== *)

Example split_ex :
  Str.split "_" "roads_01_unet+03" = ["roads"; "01"; "unet+03"].
Proof. reflexivity. Qed.

(** [0.1], [0.1 + 0.2] and [0.3] as binary64 values. *)
Example of_Q_ex :
  dec (1 # 10) = Float.Fin (3602879701896397 # 36028797018963968)
  /\ Float.add (dec (1 # 10)) (dec (2 # 10))
     = Float.Fin (1351079888211149 # 4503599627370496)
  /\ dec (3 # 10) = Float.Fin (5404319552844595 # 18014398509481984)
  /\ Float.ge (dec (3 # 10)) (Float.add (dec (1 # 10)) (dec (2 # 10)))
     = false.
Proof. vm_compute. auto. Qed.

(** Overflow, underflow and the comparisons with [nan]. *)
Example float_edges_ex :
  Float.add (dec (inject_Z (17 * 10 ^ 307))) (dec (inject_Z (17 * 10 ^ 307)))
  = Float.Inf false
  /\ Float.half (Float.opp (Float.of_Q (Float.shift 1 (-1074))))
     = Float.NegZero
  /\ Float.sub Float.one Float.NegZero = Float.one
  /\ Float.ge Float.NaN Float.NaN = false
  /\ Float.ge Float.one Float.NaN = false
  /\ Float.ge (Float.Fin 0) Float.NegZero = true.
Proof. vm_compute. auto 10. Qed.

Example fmt_5f_ex :
  Float.fmt_5f (dec (8 # 10)) = "0.80000"
  /\ Float.fmt_5f (dec (-(1 # 8))) = "-0.12500"
  /\ Float.fmt_5f (dec (800004 # 1000000)) = "0.80000"
  /\ Float.fmt_5f (dec (5 # 1000000)) = "0.00001"
  /\ Float.fmt_5f (dec (-(1 # 1000000000))) = "-0.00000"
  /\ Float.fmt_5f Float.NaN = "nan"
  /\ Float.fmt_5f (Float.Inf true) = "-inf".
Proof. vm_compute. auto 10. Qed.

Example of_string_ex :
  Float.of_string "0.81000" = Some (dec (81 # 100))
  /\ Float.of_string "-1.5e1" = Some (dec (-15 # 1))
  /\ Float.of_string " 7 " = Some (dec 7)
  /\ Float.of_string "NaN" = Some Float.NaN
  /\ Float.of_string "-Infinity" = Some (Float.Inf true)
  /\ Float.of_string "1e999" = Some (Float.Inf false)
  /\ Float.of_string "-0.00000" = Some Float.NegZero
  /\ Float.of_string "1.2.3" = None /\ Float.of_string "" = None.
Proof. vm_compute. auto 10. Qed.

Example py_int_ex :
  Str.py_int " -12 " = Some (-12) /\ Str.py_int "007" = Some 7
  /\ Str.py_int "1.0" = None
  /\ Str.isdigit (String (ascii_of_nat 178) "") = true
  /\ Str.py_int (String (ascii_of_nat 178) "") = None.
Proof. vm_compute. auto. Qed.

Example fmt_02d_ex : (Str.fmt_02d 1, Str.fmt_02d 123, Str.fmt_02d (-1)) = ("01", "123", "-1").
Proof. reflexivity. Qed.

Example name_ex :
  (name "a/b_01.hdf5", stem "a/b_01.hdf5", suffix "a/b_01.hdf5")
  = ("b_01.hdf5", "b_01", ".hdf5")
  /\ (name "x_tf/", stem ".hidden", suffix "x.tar.gz") = ("x_tf", ".hidden", ".gz").
Proof. vm_compute. auto. Qed.

Example parse_ex1 :
  outcome (parse_model_filename [] "roads_01_unet+03_0.80000_0.79000_0.81000_5.hdf5")
  = Return (Some {| filepath := PathObj "roads_01_unet+03_0.80000_0.79000_0.81000_5.hdf5";
                    filename := "roads_01_unet+03_0.80000_0.79000_0.81000_5";
                    basefilename := Some "roads_01_unet+03";
                    segment_subject := "roads"; traindata_version := 1;
                    model_architecture := "unet"; hyperparams_version := 3;
                    acc_combined := dec (8 # 10);
                    acc_train := dec (79 # 100);
                    acc_val := dec (81 # 100);
                    epoch := 5; save_format := "h5" |}).
Proof. vm_compute. reflexivity. Qed.

Example format_ex1 :
  format_model_filename "roads" 1 "unet" 3 (dec (79 # 100)) (dec (81 # 100))
    (dec (8 # 10)) 5 "h5"
  = "roads_01_unet+03_0.80000_0.79000_0.81000_5.hdf5"
  /\ format_model_filename "roads" 1 "unet" 0 (dec (79 # 100)) (dec (81 # 100))
       (dec (8 # 10)) 5 "tf"
  = "roads_01_unet_0.80000_0.79000_0.81000_5_tf"
  /\ format_model_filename "roads" 1 "unet" 0 Float.NaN Float.NaN Float.NaN
       5 "h5"
  = "roads_01_unet_nan_nan_nan_5.hdf5".
Proof. vm_compute. auto. Qed.

(** The scores stored for a candidate in ['min'] mode, in binary64. *)
Example new_model_acc_ex :
  new_model_acc "min" (dec (2 # 10)) (dec (3 # 10))
  = (dec (75 # 100), dec (8 # 10), dec (7 # 10))
  /\ new_model_acc "min" (dec (1 # 10)) (dec (2 # 10))
     = (dec (85 # 100), dec (9 # 10), dec (8 # 10))
  /\ Float.half (Float.add (dec (9 # 10)) (dec (8 # 10)))
     = Float.Fin (1914029841632461 # 2251799813685248)
  /\ dec (85 # 100) = Float.Fin (7656119366529843 # 9007199254740992).
Proof. vm_compute. auto. Qed.
(* ================================================================== *)
(** * Facts about strings and numerals *)
(* ================================================================== *)

Module StrFacts.
Import Str.

Lemma append_assoc (a b c : string) : (a ++ b) ++ c = a ++ (b ++ c).
Proof. induction a as [|x a IH]; simpl; [reflexivity | now rewrite IH]. Qed.

Lemma append_nil_r (a : string) : a ++ "" = a.
Proof. induction a as [|x a IH]; simpl; [reflexivity | now rewrite IH]. Qed.

Lemma length_append (a b : string) :
  String.length (a ++ b) = (String.length a + String.length b)%nat.
Proof. induction a as [|x a IH]; simpl; [reflexivity | now rewrite IH]. Qed.

Lemma all_chars_app p a b :
  all_chars p (a ++ b) = all_chars p a && all_chars p b.
Proof.
  induction a as [|x a IH]; simpl; [reflexivity|].
  now rewrite IH, andb_assoc.
Qed.

Lemma all_chars_impl (p q : ascii -> bool) s :
  (forall c, p c = true -> q c = true) ->
  all_chars p s = true -> all_chars q s = true.
Proof.
  intros Hpq. induction s as [|x s IH]; simpl; [reflexivity|].
  intros H. apply andb_true_iff in H as [Hx Hs].
  now rewrite (Hpq _ Hx), IH.
Qed.

Lemma split_nonempty c s : split c s <> [].
Proof.
  destruct s as [|a r]; simpl; [discriminate|].
  destruct (Ascii.eqb a c); [discriminate|].
  destruct (split c r); discriminate.
Qed.

Lemma split_app c a b :
  split c (a ++ String c b) = (split c a ++ split c b)%list.
Proof.
  induction a as [|x a IH]; simpl.
  - now rewrite Ascii.eqb_refl.
  - destruct (Ascii.eqb x c); [now rewrite IH|].
    rewrite IH. destruct (split c a) as [|h t] eqn:E.
    + now apply split_nonempty in E.
    + reflexivity.
Qed.

Lemma split_none c a : all_chars (isnt c) a = true -> split c a = [a].
Proof.
  induction a as [|x a IH]; simpl; [reflexivity|].
  unfold isnt at 1. intros H. apply andb_true_iff in H as [Hx Ha].
  apply negb_true_iff in Hx. rewrite Hx, (IH Ha). reflexivity.
Qed.

Lemma split_piece c a b :
  all_chars (isnt c) a = true -> split c (a ++ String c b) = a :: split c b.
Proof. intros H. now rewrite split_app, (split_none _ _ H). Qed.

Lemma join_split c a : join (String c "") (split c a) = a.
Proof.
  induction a as [|x a IH]; simpl; [reflexivity|].
  destruct (Ascii.eqb_spec x c) as [->|Hx].
  - pose proof (split_nonempty c a) as Hne.
    destruct (split c a) as [|h t]; [congruence|].
    change (join (String c "") ("" :: h :: t))
      with (String c (join (String c "") (h :: t))).
    now rewrite IH.
  - destruct (split c a) as [|h t] eqn:E; [now apply split_nonempty in E|].
    destruct t as [|h' t'].
    + simpl in *. now subst.
    + change (join (String c "") (String x h :: h' :: t'))
        with (String x (join (String c "") (h :: h' :: t'))).
      now rewrite IH.
Qed.

Lemma rsplit_none c s : all_chars (isnt c) s = true -> rsplit c s = None.
Proof.
  induction s as [|x s IH]; simpl; [reflexivity|].
  unfold isnt at 1. intros H. apply andb_true_iff in H as [Hx Hs].
  apply negb_true_iff in Hx. now rewrite (IH Hs), Hx.
Qed.

Lemma rsplit_app c s t :
  all_chars (isnt c) t = true -> rsplit c (s ++ String c t) = Some (s, t).
Proof.
  intros Ht. induction s as [|x s IH]; simpl.
  - now rewrite (rsplit_none _ _ Ht), Ascii.eqb_refl.
  - now rewrite IH.
Qed.

Lemma endswith_app a suf : endswith (a ++ suf) suf = true.
Proof.
  induction a as [|x a IH]; simpl.
  - destruct suf; simpl; rewrite ?String.eqb_refl, ?Ascii.eqb_refl; reflexivity.
  - rewrite IH. apply orb_true_r.
Qed.

Lemma break_none p s :
  all_chars (fun c => negb (p c)) s = true -> break p s = (s, None).
Proof.
  induction s as [|x s IH]; simpl; [reflexivity|].
  intros H. apply andb_true_iff in H as [Hx Hs].
  apply negb_true_iff in Hx. now rewrite Hx, (IH Hs).
Qed.

Lemma break_app p a c b :
  all_chars (fun c => negb (p c)) a = true -> p c = true ->
  break p (a ++ String c b) = (a, Some b).
Proof.
  intros Ha Hc. induction a as [|x a IH]; simpl.
  - now rewrite Hc.
  - simpl in Ha. apply andb_true_iff in Ha as [Hx Ha].
    apply negb_true_iff in Hx. now rewrite Hx, (IH Ha).
Qed.

Lemma lstrip_id s :
  all_chars (fun c => negb (is_space c)) s = true -> lstrip s = s.
Proof.
  destruct s as [|x s]; simpl; [reflexivity|].
  intros H. apply andb_true_iff in H as [Hx _].
  apply negb_true_iff in Hx. now rewrite Hx.
Qed.

Lemma rstrip_id s :
  all_chars (fun c => negb (is_space c)) s = true -> rstrip s = s.
Proof.
  induction s as [|x s IH]; simpl; [reflexivity|].
  intros H. apply andb_true_iff in H as [Hx Hs].
  apply negb_true_iff in Hx. rewrite (IH Hs), Hx.
  destruct s; reflexivity.
Qed.

Lemma strip_id s :
  all_chars (fun c => negb (is_space c)) s = true -> strip s = s.
Proof. intros H. unfold strip. now rewrite (lstrip_id _ H), rstrip_id. Qed.


Lemma to_N_acc_app acc a b : to_N_acc acc (a ++ b) = to_N_acc (to_N_acc acc a) b.
Proof. revert acc. induction a as [|x a IH]; intros acc; simpl; [reflexivity | apply IH]. Qed.

Lemma to_N_acc_zeros k s : to_N_acc 0 (zeros k ++ s) = to_N_acc 0 s.
Proof. induction k as [|k IH]; simpl; [reflexivity | exact IH]. Qed.

Lemma to_N_acc_pos_uint d p :
  to_N_acc (Npos p) (NilEmpty.string_of_uint d) = Npos (Pos.of_uint_acc d p).
Proof.
  revert p. induction d; intros p;
    cbn [NilEmpty.string_of_uint to_N_acc Pos.of_uint_acc]; try reflexivity;
    rewrite <- IHd; f_equal;
    match goal with |- context [digit_val ?c] =>
      let v := eval vm_compute in (digit_val c) in
      change (digit_val c) with v
    end; lia.
Qed.

Lemma to_N_uint d : to_N (NilEmpty.string_of_uint d) = N.of_uint d.
Proof.
  unfold to_N. induction d; simpl; try reflexivity; try exact IHd;
    apply to_N_acc_pos_uint.
Qed.

Lemma to_N_of_N n : to_N (of_N n) = n.
Proof. unfold of_N. rewrite to_N_uint. apply DecimalN.Unsigned.of_to. Qed.

Lemma digits_uint d : all_chars is_digit (NilEmpty.string_of_uint d) = true.
Proof. induction d; simpl; try reflexivity; exact IHd. Qed.

Lemma digits_of_N n : all_chars is_digit (of_N n) = true.
Proof. apply digits_uint. Qed.

Lemma of_N_nonempty n : of_N n <> "".
Proof.
  unfold of_N. destruct n as [|p]; simpl; [discriminate|].
  pose proof (DecimalPos.Unsigned.to_uint_nonnil p) as H.
  destruct (Pos.to_uint p); simpl; try discriminate. congruence.
Qed.

Lemma isdecimal_of_N n : isdecimal (of_N n) = true.
Proof.
  unfold isdecimal. rewrite digits_of_N, andb_true_r.
  apply negb_true_iff, String.eqb_neq, of_N_nonempty.
Qed.

(** A string of decimal digits is a string of digits for [str.isdigit]. *)
Lemma isdecimal_isdigit s : isdecimal s = true -> isdigit s = true.
Proof.
  unfold isdecimal, isdigit. intros H. apply andb_true_iff in H as [-> H].
  cbn [andb]. revert H. apply all_chars_impl. intros c Hc.
  unfold is_digit_char. now rewrite Hc.
Qed.

Lemma digits_zeros k : all_chars is_digit (zeros k) = true.
Proof. induction k; simpl; auto. Qed.

Lemma digits_lpad0 w s :
  all_chars is_digit s = true -> all_chars is_digit (lpad0 w s) = true.
Proof. intros H. unfold lpad0. now rewrite all_chars_app, digits_zeros, H. Qed.

Lemma to_N_lpad0 w s : to_N (lpad0 w s) = to_N s.
Proof. apply to_N_acc_zeros. Qed.


Lemma is_digit_cases c :
  is_digit c = true ->
  In c ["0"; "1"; "2"; "3"; "4"; "5"; "6"; "7"; "8"; "9"]%char.
Proof.
  destruct c as [[] [] [] [] [] [] [] []]; vm_compute; intros H;
    try discriminate; tauto.
Qed.

(** A character class that holds the ten digits holds every digit. *)
Lemma digit_class (q : ascii -> bool) :
  forallb q ["0"; "1"; "2"; "3"; "4"; "5"; "6"; "7"; "8"; "9"]%char = true ->
  forall c, is_digit c = true -> q c = true.
Proof.
  intros Hq c Hc. rewrite forallb_forall in Hq.
  apply Hq, is_digit_cases, Hc.
Qed.

Lemma digits_class (q : ascii -> bool) s :
  forallb q ["0"; "1"; "2"; "3"; "4"; "5"; "6"; "7"; "8"; "9"]%char = true ->
  all_chars is_digit s = true -> all_chars q s = true.
Proof. intros Hq. apply all_chars_impl, digit_class, Hq. Qed.

Lemma digit_char_digit m :
  0 <= m < 10 -> is_digit (digit_char m) = true.
Proof.
  intros H. assert (E : In m [0;1;2;3;4;5;6;7;8;9]) by (simpl; lia).
  simpl in E. repeat (destruct E as [<-|E]; [reflexivity|]). destruct E.
Qed.

Lemma digit_val_char m : 0 <= m < 10 -> digit_val (digit_char m) = Z.to_N m.
Proof.
  intros H. assert (E : In m [0;1;2;3;4;5;6;7;8;9]) by (simpl; lia).
  simpl in E. repeat (destruct E as [<-|E]; [reflexivity|]). destruct E.
Qed.

Lemma length_fixed k m : String.length (fixed k m) = k.
Proof.
  revert m. induction k as [|k IH]; intros m; cbn [fixed]; [reflexivity|].
  rewrite length_append, IH. cbn [String.length]. lia.
Qed.

Lemma digits_fixed k m : all_chars is_digit (fixed k m) = true.
Proof.
  revert m. induction k as [|k IH]; intros m; cbn [fixed]; [reflexivity|].
  rewrite all_chars_app, IH. cbn [all_chars andb].
  rewrite digit_char_digit; [reflexivity|]. apply Z.mod_pos_bound. lia.
Qed.

Lemma to_N_acc_fixed k m acc :
  Z.of_N (to_N_acc acc (fixed k m))
  = Z.of_N acc * 10 ^ Z.of_nat k + m mod 10 ^ Z.of_nat k.
Proof.
  revert m acc. induction k as [|k IH]; intros m acc.
  - cbn [fixed to_N_acc Z.of_nat]. rewrite Z.pow_0_r, Z.mod_1_r. lia.
  - cbn [fixed]. rewrite to_N_acc_app. cbn [to_N_acc].
    assert (Hd : 0 <= m mod 10 < 10) by (apply Z.mod_pos_bound; lia).
    rewrite (digit_val_char _ Hd).
    rewrite N2Z.inj_add, N2Z.inj_mul, IH, Z2N.id by lia.
    change (Z.of_N 10) with 10.
    rewrite Nat2Z.inj_succ, Z.pow_succ_r by lia.
    assert (Hp : 0 < 10 ^ Z.of_nat k) by (apply Z.pow_pos_nonneg; lia).
    rewrite (Z.rem_mul_r m 10 (10 ^ Z.of_nat k)) by lia.
    ring.
Qed.

Lemma endswith_inv s suf :
  endswith s suf = true -> exists a, s = a ++ suf.
Proof.
  induction s as [|c s IH]; cbn [endswith].
  - rewrite orb_false_r. intros E. apply String.eqb_eq in E. exists "".
    now subst.
  - intros E. apply orb_true_iff in E as [E|E].
    + apply String.eqb_eq in E. exists "". now subst.
    + destruct (IH E) as [a ->]. exists (String c a). reflexivity.
Qed.

Lemma same_length_suffix a b s1 s2 :
  a ++ s1 = b ++ s2 -> String.length s1 = String.length s2 -> s1 = s2.
Proof.
  revert b. induction a as [|x a IH]; intros b E L.
  - destruct b as [|y b]; [exact E|]. exfalso.
    apply (f_equal String.length) in E. cbn [append] in E.
    cbn [String.length] in E. rewrite length_append in E. lia.
  - destruct b as [|y b].
    + exfalso. apply (f_equal String.length) in E. cbn [append] in E.
      cbn [String.length] in E. rewrite length_append in E. lia.
    + cbn [append] in E. injection E as _ E. exact (IH b E L).
Qed.

(** The files of a checkpoint match none of the patterns of
    [get_models]. *)
Lemma checkpoint_files_unlisted q suf :
  In suf [".hdf5"; ".h5"; "_tf"] ->
  endswith (q ++ ".index") suf = false
  /\ endswith (q ++ ".data-00000-of-00001") suf = false
  /\ endswith "checkpoint" suf = false.
Proof.
  intros Hs. repeat split;
    match goal with |- ?g = false => destruct g eqn:E end;
    try reflexivity; exfalso; apply endswith_inv in E as [b E];
    destruct Hs as [<-|[<-|[<-|[]]]].
  - change (q ++ ".index") with (q ++ ("." ++ "index")) in E.
    rewrite <- append_assoc in E.
    apply same_length_suffix in E; [discriminate E | reflexivity].
  - change (q ++ ".index") with (q ++ (".in" ++ "dex")) in E.
    rewrite <- append_assoc in E.
    apply same_length_suffix in E; [discriminate E | reflexivity].
  - change (q ++ ".index") with (q ++ (".in" ++ "dex")) in E.
    rewrite <- append_assoc in E.
    apply same_length_suffix in E; [discriminate E | reflexivity].
  - change (q ++ ".data-00000-of-00001")
      with (q ++ (".data-00000-of-" ++ "00001")) in E.
    rewrite <- append_assoc in E.
    apply same_length_suffix in E; [discriminate E | reflexivity].
  - change (q ++ ".data-00000-of-00001")
      with (q ++ (".data-00000-of-00" ++ "001")) in E.
    rewrite <- append_assoc in E.
    apply same_length_suffix in E; [discriminate E | reflexivity].
  - change (q ++ ".data-00000-of-00001")
      with (q ++ (".data-00000-of-00" ++ "001")) in E.
    rewrite <- append_assoc in E.
    apply same_length_suffix in E; [discriminate E | reflexivity].
  - change "checkpoint" with ("check" ++ "point") in E.
    apply same_length_suffix in E; [discriminate E | reflexivity].
  - change "checkpoint" with ("checkpo" ++ "int") in E.
    apply same_length_suffix in E; [discriminate E | reflexivity].
  - change "checkpoint" with ("checkpo" ++ "int") in E.
    apply same_length_suffix in E; [discriminate E | reflexivity].
Qed.

End StrFacts.

(* ================================================================== *)
(** * Floats: the order and the rounding *)
(* ================================================================== *)

Module FloatFacts.
Import Float.

(** ** The order *)

Lemma ge_nan_r x : ge x NaN = false.
Proof. destruct x; reflexivity. Qed.

Lemma ge_nan_l x : ge NaN x = false.
Proof. reflexivity. Qed.

Lemma gt_nan_r x : gt x NaN = false.
Proof. destruct x; reflexivity. Qed.

Lemma gt_nan_l x : gt NaN x = false.
Proof. reflexivity. Qed.

Lemma is_nan_eq x : is_nan x = true -> x = NaN.
Proof. destruct x; try discriminate; reflexivity. Qed.

Lemma ge_not_nan x y : ge x y = true -> is_nan x = false /\ is_nan y = false.
Proof. destruct x, y; cbn; try discriminate; auto. Qed.

Lemma gt_ge x y : gt x y = true -> ge x y = true.
Proof. unfold gt, ge. destruct (compare x y) as [[]|]; congruence. Qed.

Lemma compare_antisym x y :
  compare y x = option_map CompOpp (compare x y).
Proof.
  destruct x as [p| |[]|], y as [q| |[]|]; cbn [compare num option_map CompOpp];
    try reflexivity; now rewrite <- Qcompare_antisym.
Qed.

Lemma Qcompare_ge p q :
  match (p ?= q)%Q with Gt | Eq => true | Lt => false end = true
  <-> (q <= p)%Q.
Proof.
  rewrite Qle_alt, <- (Qcompare_antisym p q).
  destruct (p ?= q)%Q; cbn; split; congruence.
Qed.

(** [x >= y], case by case. *)
Lemma ge_iff x y :
  ge x y = true <->
  match x, y with
  | NaN, _ | _, NaN => False
  | Inf a, Inf b => a = false \/ b = true
  | Inf a, _ => a = false
  | _, Inf b => b = true
  | _, _ => (num y <= num x)%Q
  end.
Proof.
  unfold ge.
  destruct x as [p| |[]|], y as [q| |[]|]; cbn [compare];
    try apply Qcompare_ge; cbn;
    (split; intros H; try reflexivity; try discriminate H; try tauto;
     try (destruct H as [H|H]; discriminate H); auto).
Qed.

Lemma ge_refl x : is_nan x = false -> ge x x = true.
Proof.
  intros H. apply ge_iff.
  destruct x as [q| |[]|]; cbn in *; try discriminate; auto; apply Qle_refl.
Qed.

Lemma ge_trans x y z : ge x y = true -> ge y z = true -> ge x z = true.
Proof.
  intros H1 H2. apply ge_iff in H1, H2. apply ge_iff.
  destruct x as [p| |[]|], y as [q| |[]|], z as [r| |[]|]; cbn [num] in *;
    try tauto; try discriminate;
    try (destruct H1; discriminate); try (destruct H2; discriminate);
    try (eapply Qle_trans; eassumption); auto.
Qed.

Lemma ge_total x y :
  is_nan x = false -> is_nan y = false -> ge x y = true \/ ge y x = true.
Proof.
  intros Hx Hy. rewrite !ge_iff.
  destruct x as [p| |[]|], y as [q| |[]|]; cbn in *; try discriminate; auto;
    try (destruct (Qlt_le_dec p q); [right | left]; auto using Qlt_le_weak);
    try (destruct (Qlt_le_dec 0 q); [right | left]; auto using Qlt_le_weak);
    try (destruct (Qlt_le_dec p 0); [right | left]; auto using Qlt_le_weak).
  left. apply Qle_refl.
Qed.

Lemma gt_iff x y : gt x y = true <-> ge x y = true /\ ge y x = false.
Proof.
  unfold gt, ge. rewrite (compare_antisym x y).
  destruct (compare x y) as [[]|]; cbn; split; try tauto; try discriminate;
    intros [? ?]; discriminate.
Qed.

Lemma gt_or_ge x y :
  is_nan x = false -> is_nan y = false -> gt x y = true \/ ge y x = true.
Proof.
  intros Hx Hy. destruct (ge y x) eqn:E; [now right|]. left.
  apply gt_iff. split; [|exact E].
  destruct (ge_total x y Hx Hy) as [H|H]; [exact H | congruence].
Qed.


(** ** Equal scores *)

Lemma feq_ge x y : feq x y -> ge x y = true /\ ge y x = true.
Proof.
  unfold feq, ge. intros H. rewrite (compare_antisym x y), H. now split.
Qed.

Lemma ge_antisym x y : ge x y = true -> ge y x = true -> feq x y.
Proof.
  unfold feq, ge. rewrite (compare_antisym x y).
  destruct (compare x y) as [[]|]; cbn; intros; try discriminate; reflexivity.
Qed.

Lemma feq_refl x : is_nan x = false -> feq x x.
Proof.
  unfold feq. destruct x as [q| |[]|]; cbn; try discriminate; try reflexivity.
  intros _. f_equal. apply Qeq_alt, Qeq_refl.
Qed.

Lemma same_refl x : same x x.
Proof.
  destruct (is_nan x) eqn:E; [right | left; now apply feq_refl].
  apply is_nan_eq in E. now split.
Qed.

Lemma same_ge x x' y y' :
  same x x' -> same y y' -> ge x y = true -> ge x' y' = true.
Proof.
  intros Hx Hy H. destruct (ge_not_nan _ _ H) as [Nx Ny].
  destruct Hx as [Hx|[-> _]]; [|discriminate Nx].
  destruct Hy as [Hy|[-> _]]; [|discriminate Ny].
  apply feq_ge in Hx as [_ Hx]. apply feq_ge in Hy as [Hy _].
  apply ge_trans with y; [|exact Hy]. now apply ge_trans with x.
Qed.

(** ** Rounding *)

Lemma round_half_even_near q :
  (0 <= q)%Q ->
  0 <= Str.round_half_even q
  /\ (inject_Z (Str.round_half_even q) - (1 # 2) <= q)%Q
  /\ (q <= inject_Z (Str.round_half_even q) + (1 # 2))%Q.
Proof.
  destruct q as [n d]. unfold Qle, Str.round_half_even, Qminus, Qplus, Qopp,
    inject_Z. cbn [Qnum Qden]. intros Hn. rewrite Z.mul_1_r in Hn.
  pose proof (Z.div_mod n (Z.pos d) ltac:(lia)) as Hdm.
  pose proof (Z.mod_pos_bound n (Z.pos d) ltac:(lia)) as Hr.
  assert (Hfl : 0 <= n / Z.pos d) by (apply Z.div_pos; lia).
  set (fl := n / Z.pos d) in *. set (r := n mod Z.pos d) in *.
  change (Z.pos (1 * 2)) with 2.
  destruct (Z.ltb_spec (2 * r) (Z.pos d)); [repeat split; nia|].
  destruct (Z.ltb_spec (Z.pos d) (2 * r)); [repeat split; nia|].
  destruct (Z.even fl); repeat split; nia.
Qed.

(** The integer within one half of a rational is its rounding. *)
Lemma round_half_even_unique q z :
  (0 <= q)%Q -> (inject_Z z - (1 # 2) < q)%Q -> (q < inject_Z z + (1 # 2))%Q ->
  Str.round_half_even q = z.
Proof.
  intros Hq Hlo Hhi.
  destruct (round_half_even_near q Hq) as (_ & Hm1 & Hm2).
  set (m := Str.round_half_even q) in *.
  assert (H1 : (inject_Z m < inject_Z z + 1)%Q) by lra.
  assert (H2 : (inject_Z z < inject_Z m + 1)%Q) by lra.
  change 1%Q with (inject_Z 1) in H1, H2.
  rewrite <- inject_Z_plus in H1, H2.
  rewrite <- Zlt_Qlt in H1, H2. lia.
Qed.

Lemma shift_Qpower q k : (shift q k == q * 2 ^ k)%Q.
Proof.
  unfold shift. destruct (Z.leb_spec 0 k).
  - now rewrite Zpower_Qpower by lia.
  - rewrite Zpower_Qpower by lia. unfold Qdiv.
    now rewrite <- Qpower_opp, Z.opp_involutive.
Qed.

Lemma pow2_pos k : (0 < 2 ^ k)%Q.
Proof. apply Qpower_0_lt. reflexivity. Qed.

Lemma pow2_plus a b : (2 ^ (a + b) == 2 ^ a * 2 ^ b)%Q.
Proof. apply Qpower_plus. discriminate. Qed.

(** The lower bound of the binary exponent. *)
Lemma exponent_le n d : (2 ^ exponent n d <= Zpos n # d)%Q.
Proof.
  unfold exponent.
  set (a := Z.log2 (Z.pos n)). set (b := Z.log2 (Z.pos d)).
  destruct (Qle_bool (shift 1 (a - b)) (Z.pos n # d)) eqn:E.
  - apply Qle_bool_iff in E.
    assert (H1 : (shift 1 (a - b) == 2 ^ (a - b))%Q)
      by (rewrite shift_Qpower; ring).
    now rewrite H1 in E.
  - clear E.
    destruct (Z.log2_spec (Z.pos n) ltac:(lia)) as [Ha _].
    destruct (Z.log2_spec (Z.pos d) ltac:(lia)) as [_ Hb].
    fold a in Ha. fold b in Hb.
    assert (Ha0 : 0 <= a) by apply Z.log2_nonneg.
    assert (Hb0 : 0 <= b) by apply Z.log2_nonneg.
    replace (a - b - 1) with (a + - (b + 1)) by lia.
    rewrite pow2_plus, Qpower_opp.
    rewrite <- (Zpower_Qpower 2 a Ha0), <- (Zpower_Qpower 2 (b + 1)) by lia.
    change (Z.succ b) with (b + 1) in Hb.
    assert (HB : 0 < 2 ^ (b + 1)) by (apply Z.pow_pos_nonneg; lia).
    destruct (2 ^ (b + 1)) as [|B|B] eqn:EB; try lia.
    unfold Qle, Qmult, Qinv, inject_Z. cbn [Qnum Qden].
    rewrite ?Z.mul_1_r, ?Z.mul_1_l, ?Pos.mul_1_l, ?Pos.mul_1_r. nia.
Qed.

(** A positive rational in the normal range is rounded with a relative
    error of [2^-53] at most. *)
Lemma round_pos_near n d :
  (2 ^ (-1022) <= Zpos n # d)%Q -> (Zpos n # d < 2 ^ 1023)%Q ->
  exists v, round_pos n d = Some v
            /\ (Qabs (v - (Zpos n # d)) <= (Zpos n # d) * 2 ^ (-53))%Q.
Proof.
  intros Hlo Hhi. unfold round_pos.
  set (q := Z.pos n # d) in *.
  pose proof (exponent_le n d) as He0. fold q in He0.
  set (e := Z.max (exponent n d) (-1022)).
  assert (He : (2 ^ e <= q)%Q).
  { unfold e. destruct (Z.max_spec (exponent n d) (-1022)) as [[_ ->]|[_ ->]];
      assumption. }
  assert (Hq0 : (0 <= shift q (52 - e))%Q).
  { rewrite shift_Qpower. apply Qmult_le_0_compat; [discriminate|].
    apply Qlt_le_weak, pow2_pos. }
  destruct (round_half_even_near _ Hq0) as (_ & Hm1 & Hm2).
  set (m := Str.round_half_even (shift q (52 - e))) in *.
  rewrite shift_Qpower in Hm1, Hm2.
  assert (Hv : (shift (inject_Z m) (e - 52) == inject_Z m * 2 ^ (e - 52))%Q)
    by apply shift_Qpower.
  set (v := shift (inject_Z m) (e - 52)) in *.
  assert (Hone : (2 ^ (52 - e) * 2 ^ (e - 52) == 1)%Q).
  { rewrite <- pow2_plus. replace (52 - e + (e - 52)) with 0 by lia.
    reflexivity. }
  assert (He53 : (2 ^ (e - 52) == 2 ^ e * 2 ^ (-52))%Q).
  { rewrite <- pow2_plus. now replace (e + -52) with (e - 52) by lia. }
  pose proof (pow2_pos (e - 52)) as Hp. pose proof (pow2_pos (52 - e)) as Hp'.
  assert (Hdist : (Qabs (v - q) <= 2 ^ (e - 52) * (1 # 2))%Q).
  { apply Qabs_Qle_condition. rewrite Hv.
    assert (Eq : (q == q * 2 ^ (52 - e) * 2 ^ (e - 52))%Q).
    { rewrite <- Qmult_assoc, Hone. ring. }
    set (c := (2 ^ (e - 52))%Q) in *. set (y := (q * 2 ^ (52 - e))%Q) in *.
    split.
    - setoid_replace (inject_Z m * c - q)%Q
        with ((inject_Z m - y) * c)%Q by (rewrite Eq at 1; ring).
      setoid_replace (- (c * (1 # 2)))%Q with ((- (1 # 2)) * c)%Q by ring.
      apply Qmult_le_compat_r; [lra | apply Qlt_le_weak, Hp].
    - setoid_replace (inject_Z m * c - q)%Q
        with ((inject_Z m - y) * c)%Q by (rewrite Eq at 1; ring).
      setoid_replace (c * (1 # 2))%Q with ((1 # 2) * c)%Q by ring.
      apply Qmult_le_compat_r; [lra | apply Qlt_le_weak, Hp]. }
  assert (Hbound : (2 ^ (e - 52) * (1 # 2) <= q * 2 ^ (-53))%Q).
  { rewrite He53.
    setoid_replace (2 ^ e * 2 ^ (-52) * (1 # 2))%Q with (2 ^ e * 2 ^ (-53))%Q
      by (change (2 ^ (-53))%Q with (2 ^ (-52) * (1 # 2))%Q; ring).
    apply Qmult_le_compat_r; [exact He | apply Qlt_le_weak, pow2_pos]. }
  assert (Hfin : Qle_bool (inject_Z (2 ^ 1024)) v = false).
  { destruct (Qle_bool (inject_Z (2 ^ 1024)) v) eqn:E; [|reflexivity].
    exfalso. apply Qle_bool_iff in E.
    apply Qabs_Qle_condition in Hdist as [_ Hup].
    assert (Hq2 : (v <= q + q * 2 ^ (-53))%Q) by lra.
    assert (Hsmall : (q * 2 ^ (-53) <= q)%Q).
    { setoid_replace q with (q * 1)%Q at 2 by ring.
      apply Qmult_le_l; [|discriminate].
      apply Qlt_le_trans with (2 ^ (-1022))%Q; [apply pow2_pos | exact Hlo]. }
    assert (H1024 : (inject_Z (2 ^ 1024) == 2 ^ 1023 + 2 ^ 1023)%Q)
      by reflexivity.
    lra. }
  rewrite Hfin. exists (Qred v). split; [reflexivity|].
  rewrite Qred_correct. eapply Qle_trans; eassumption.
Qed.


Lemma of_Q_Qeq p q : (p == q)%Q -> of_Q p = of_Q q.
Proof. intros H. unfold of_Q. now rewrite (Qred_complete p q H). Qed.

(** A rational in the normal range becomes a finite float, with a
    relative error of [2^-53] at most. *)
Lemma of_Q_normal q :
  (2 ^ (-1022) <= Qabs q)%Q -> (Qabs q < 2 ^ 1023)%Q ->
  exists v, of_Q q = Fin v
            /\ (Qabs (v - q) <= Qabs q * 2 ^ (-53))%Q.
Proof.
  intros Hlo Hhi. unfold of_Q.
  pose proof (Qred_correct q) as Hr.
  pose proof (pow2_pos (-1022)) as Hmin.
  pose proof (pow2_pos (-53)) as Heps.
  assert (Heps1 : (2 ^ (-53) < 1)%Q) by reflexivity.
  set (r := Qred q) in *. clearbody r.
  rewrite <- Hr in Hlo, Hhi.
  assert (Ha : (Qabs q == Qabs r)%Q) by now rewrite Hr.
  setoid_rewrite Ha. clear Ha.
  destruct r as [[|n|n] d]; cbn [Qnum Qden].
  - exfalso. change (Qabs (0 # d)) with (0 # d) in Hlo.
    assert (E : (0 # d == 0)%Q) by reflexivity. rewrite E in Hlo.
    revert Hlo Hmin. generalize (2 ^ (-1022))%Q. intros; lra.
  - change (Qabs (Z.pos n # d)) with (Z.pos n # d) in *.
    destruct (round_pos_near n d Hlo Hhi) as (v & -> & Hv).
    exists v. split; [reflexivity|].
    setoid_replace (v - q)%Q with (v - (Z.pos n # d))%Q by (rewrite <- Hr; ring).
    exact Hv.
  - change (Qabs (Z.neg n # d)) with (Z.pos n # d) in *.
    destruct (round_pos_near n d Hlo Hhi) as (v & -> & Hv).
    assert (Hpos : (0 < v)%Q).
    { apply Qabs_Qle_condition in Hv as [Hv _].
      revert Hv Hlo Hmin Heps Heps1.
      generalize (2 ^ (-1022))%Q (2 ^ (-53))%Q (Z.pos n # d). intros lo eps a.
      intros. assert (a * eps < a)%Q; [|lra].
      setoid_replace a with (a * 1)%Q at 2 by ring.
      apply Qmult_lt_l; lra. }
    destruct (Qeq_bool v 0) eqn:E.
    { apply Qeq_bool_iff in E. rewrite E in Hpos. discriminate. }
    exists (- v)%Q. split; [reflexivity|].
    setoid_replace (- v - q)%Q with (- (v - (Z.pos n # d)))%Q.
    + rewrite Qabs_opp. exact Hv.
    + rewrite <- Hr. setoid_replace (Z.neg n # d) with (- (Z.pos n # d))%Q
        by reflexivity. ring.
Qed.

End FloatFacts.

(* ================================================================== *)
(** * Facts about computations that log and raise *)
(* ================================================================== *)

Module MonadFacts.

Lemma outcome_bind {A B} (m : W A) (k : A -> W B) :
  outcome (bind m k)
  = match outcome m with
    | Return a => outcome (k a)
    | Raise e => Raise e
    end.
Proof.
  destruct m as [tr [a|e]]; cbn [bind outcome snd]; [|reflexivity].
  destruct (k a); reflexivity.
Qed.

Lemma trace_bind {A B} (m : W A) (k : A -> W B) :
  trace_of (bind m k)
  = match outcome m with
    | Return a => (trace_of m ++ trace_of (k a))%list
    | Raise e => trace_of m
    end.
Proof.
  destruct m as [tr [a|e]]; cbn [bind outcome trace_of fst snd]; [|reflexivity].
  destruct (k a); reflexivity.
Qed.

End MonadFacts.

(* ================================================================== *)
(** * The codec: what is formatted parses back *)
(* ================================================================== *)

Module CodecFacts.
Import Str StrFacts.

Lemma sign_split_digits a b :
  all_chars is_digit a = true -> a <> "" ->
  sign_split (a ++ b) = (false, a ++ b).
Proof.
  destruct a as [|c a]; [congruence|]. intros H _.
  cbn [all_chars] in H. apply andb_true_iff in H as [Hc _].
  apply is_digit_cases in Hc. simpl in Hc.
  repeat (destruct Hc as [<-|Hc]; [reflexivity|]). destruct Hc.
Qed.

Lemma py_int_digits s :
  isdecimal s = true -> py_int s = Some (Z.of_N (to_N s)).
Proof.
  intros H. unfold py_int.
  pose proof H as H'. unfold isdecimal in H'.
  apply andb_true_iff in H' as [Hne Hd].
  apply negb_true_iff, String.eqb_neq in Hne.
  rewrite strip_id by (apply (digits_class not_space); [reflexivity | exact Hd]).
  rewrite <- (append_nil_r s) at 1.
  rewrite (sign_split_digits s "" Hd Hne), append_nil_r, H. reflexivity.
Qed.

(** What [int()] makes of a string that passes [str.isdigit] is not
    negative. *)
Lemma py_int_isdigit_nonneg s z :
  isdigit s = true -> py_int s = Some z -> 0 <= z.
Proof.
  unfold isdigit. intros H. apply andb_true_iff in H as [_ Hd].
  assert (Hsp : all_chars not_space s = true).
  { apply (all_chars_impl is_digit_char); [|exact Hd].
    intros c. destruct c as [[] [] [] [] [] [] [] []]; vm_compute;
      intros Hc; try discriminate Hc; reflexivity. }
  unfold py_int. rewrite (strip_id s Hsp).
  assert (Hs : sign_split s = (false, s)).
  { destruct s as [|c r]; [reflexivity|].
    cbn [all_chars] in Hd. apply andb_true_iff in Hd as [Hc _].
    destruct c as [[] [] [] [] [] [] [] []]; try reflexivity;
      vm_compute in Hc; discriminate Hc. }
  rewrite Hs. destruct (isdecimal s); [|discriminate].
  intros E. injection E as <-. apply N2Z.is_nonneg.
Qed.

Lemma py_int_of_Z z : 0 <= z -> py_int (of_Z z) = Some z.
Proof.
  intros Hz. unfold of_Z. destruct (Z.ltb_spec z 0) as [?|_]; [lia|].
  rewrite py_int_digits by apply isdecimal_of_N.
  now rewrite to_N_of_N, Z2N.id.
Qed.

Lemma isdecimal_lpad0 w s : isdecimal s = true -> isdecimal (lpad0 w s) = true.
Proof.
  unfold isdecimal. intros H. apply andb_true_iff in H as [Hne Hd].
  rewrite (digits_lpad0 _ _ Hd), andb_true_r.
  apply negb_true_iff, String.eqb_neq.
  apply negb_true_iff, String.eqb_neq in Hne.
  unfold lpad0. destruct (zeros (w - String.length s)); simpl; [exact Hne | discriminate].
Qed.

Lemma isdecimal_fmt_02d z : 0 <= z -> isdecimal (fmt_02d z) = true.
Proof.
  intros Hz. unfold fmt_02d. destruct (Z.ltb_spec z 0) as [?|_]; [lia|].
  apply isdecimal_lpad0, isdecimal_of_N.
Qed.

Lemma to_N_fmt_02d z : 0 <= z -> Z.of_N (to_N (fmt_02d z)) = z.
Proof.
  intros Hz. unfold fmt_02d. destruct (Z.ltb_spec z 0) as [?|_]; [lia|].
  now rewrite to_N_lpad0, to_N_of_N, Z2N.id.
Qed.

Lemma py_int_fmt_02d z : 0 <= z -> py_int (fmt_02d z) = Some z.
Proof.
  intros Hz. rewrite py_int_digits by now apply isdecimal_fmt_02d.
  now rewrite to_N_fmt_02d.
Qed.


Lemma all_chars_5f (q : ascii -> bool) (neg : bool) ip fr :
  forallb q ["0"; "1"; "2"; "3"; "4"; "5"; "6"; "7"; "8"; "9"]%char = true ->
  q "-"%char = true -> q "."%char = true ->
  all_chars q ((if neg then "-" else "") ++ of_N ip ++ "." ++ fixed 5 fr) = true.
Proof.
  intros Hd Hm Hp.
  rewrite !all_chars_app.
  rewrite (digits_class q _ Hd (digits_of_N ip)).
  rewrite (digits_class q _ Hd (digits_fixed 5 fr)).
  destruct neg; cbn [all_chars]; rewrite ?Hm, ?Hp; reflexivity.
Qed.

Lemma lower_digits a b :
  all_chars is_digit a = true -> a <> "" ->
  (lower (a ++ b) =? "nan")%string = false
  /\ (lower (a ++ b) =? "inf")%string = false
  /\ (lower (a ++ b) =? "infinity")%string = false.
Proof.
  destruct a as [|c a]; [congruence|]. intros H _.
  cbn [all_chars] in H. apply andb_true_iff in H as [Hc _].
  apply is_digit_cases in Hc. simpl in Hc.
  repeat (destruct Hc as [<-|Hc]; [repeat split; reflexivity|]). destruct Hc.
Qed.

Lemma literal_5f ip fr :
  0 <= fr < 100000 ->
  literal (of_N ip ++ "." ++ fixed 5 fr)
  = Some (Qmake (Z.of_N ip * 100000 + fr) 100000 * 1)%Q.
Proof.
  intros Hfr. unfold literal.
  assert (He : break is_exp_mark (of_N ip ++ "." ++ fixed 5 fr)
               = (of_N ip ++ "." ++ fixed 5 fr, None)).
  { apply break_none. apply (all_chars_5f not_exp false); reflexivity. }
  rewrite He.
  assert (Hb : break (Ascii.eqb ".") (of_N ip ++ "." ++ fixed 5 fr)
               = (of_N ip, Some (fixed 5 fr))).
  { apply break_app; [|reflexivity].
    apply (digits_class not_dot); [reflexivity | apply digits_of_N]. }
  rewrite Hb.
  rewrite digits_of_N, digits_fixed.
  assert (Hne : (of_N ip =? "")%string = false)
    by (apply String.eqb_neq, of_N_nonempty).
  rewrite Hne. cbn [andb negb exponent].
  rewrite length_fixed, to_N_of_N.
  unfold to_N. rewrite to_N_acc_fixed.
  change (10 ^ Z.of_nat 5) with 100000.
  change (Z.to_pos 100000) with 100000%positive.
  change (Z.of_N 0 * 100000) with 0. rewrite Z.add_0_l.
  rewrite Z.mod_small by lia.
  reflexivity.
Qed.

Lemma of_string_5f (neg : bool) ip fr :
  0 <= fr < 100000 ->
  Float.of_string ((if neg then "-" else "") ++ of_N ip ++ "." ++ fixed 5 fr)
  = Some (let q := (Qmake (Z.of_N ip * 100000 + fr) 100000 * 1)%Q in
          if Qeq_bool q 0 then if neg then Float.NegZero else Float.Fin 0
          else Float.of_Q (if neg then - q else q)).
Proof.
  intros Hfr. unfold Float.of_string.
  rewrite strip_id by (apply (all_chars_5f not_space); reflexivity).
  assert (Hs : sign_split ((if neg then "-" else "") ++ of_N ip ++ "." ++ fixed 5 fr)
               = (neg, of_N ip ++ "." ++ fixed 5 fr)).
  { destruct neg; [reflexivity|]. cbn [append].
    apply sign_split_digits; [apply digits_of_N | apply of_N_nonempty]. }
  rewrite Hs.
  destruct (lower_digits (of_N ip) ("." ++ fixed 5 fr) (digits_of_N ip)
              (of_N_nonempty ip)) as (-> & -> & ->).
  cbn [orb]. now rewrite literal_5f.
Qed.

(** A score with five decimals is read back from its [".5f"] form. *)
Lemma of_string_fmt_5f x :
  five_decimals x -> Float.of_string (Float.fmt_5f x) = Some x.
Proof.
  intros (k & Hk & ->).
  destruct (Z.eq_dec k 0) as [->|Hk0]; [reflexivity|].
  set (a := (Z.abs k # 100000)%Q).
  assert (Ha1 : (inject_Z (Z.abs k) == a * (100000 # 1))%Q).
  { unfold a, Qeq, Qmult, inject_Z. cbn [Qnum Qden]. lia. }
  assert (Ha2 : (a * (100000 # 1) < 4503599627370496 # 1)%Q).
  { rewrite <- Ha1. change (4503599627370496 # 1)%Q with (inject_Z (2 ^ 52)).
    now rewrite <- Zlt_Qlt. }
  assert (Ha3 : ((1 # 100000) <= a)%Q).
  { unfold a, Qle. cbn [Qnum Qden]. lia. }
  destruct (FloatFacts.of_Q_normal (k # 100000)) as (v & Ev & Hv).
  { change (Qabs (k # 100000)) with a.
    apply Qle_trans with (1 # 100000)%Q; [discriminate | exact Ha3]. }
  { change (Qabs (k # 100000)) with a.
    apply Qlt_trans with (4503599627370496 # 1)%Q; [lra | reflexivity]. }
  change (Qabs (k # 100000)) with a in Hv.
  change (2 ^ (-53))%Q with (1 # 9007199254740992)%Q in Hv.
  apply Qabs_Qle_condition in Hv as [Hv1 Hv2].
  rewrite Ev. cbn [Float.fmt_5f]. unfold fmt_5f.
  assert (Hcase : (0 < k /\ (k # 100000 == a)%Q /\ (0 < v)%Q /\ (Qabs v == v)%Q)
                  \/ (k < 0 /\ (k # 100000 == - a)%Q /\ (v < 0)%Q
                      /\ (Qabs v == - v)%Q)).
  { destruct (Z.lt_total 0 k) as [Hp|[?|Hn]]; [left|lia|right].
    - assert (E : (k # 100000 == a)%Q)
        by (unfold a, Qeq; cbn [Qnum Qden]; lia).
      rewrite E in Hv1, Hv2. assert (0 < v)%Q by lra.
      repeat split; try assumption. apply Qabs_pos. lra.
    - assert (E : (k # 100000 == - a)%Q)
        by (unfold a, Qeq, Qopp; cbn [Qnum Qden]; lia).
      rewrite E in Hv1, Hv2. assert (v < 0)%Q by lra.
      repeat split; try assumption. apply Qabs_neg. lra. }
  assert (Hn : round_half_even (Qabs v * (100000 # 1)) = Z.abs k).
  { apply FloatFacts.round_half_even_unique.
    - apply Qmult_le_0_compat; [apply Qabs_nonneg | discriminate].
    - destruct Hcase as [(_ & E & _ & ->)|(_ & E & _ & ->)];
        rewrite E in Hv1, Hv2; lra.
    - destruct Hcase as [(_ & E & _ & ->)|(_ & E & _ & ->)];
        rewrite E in Hv1, Hv2; lra. }
  rewrite Hn.
  assert (Hsg : (Qnum v <? 0) = (k <? 0)).
  { destruct Hcase as [(Hs & _ & Hq & _)|(Hs & _ & Hq & _)];
      unfold Qlt in Hq; cbn [Qnum Qden] in Hq;
      destruct (Z.ltb_spec (Qnum v) 0), (Z.ltb_spec k 0);
      try reflexivity; lia. }
  rewrite Hsg.
  assert (Hfr : 0 <= Z.abs k mod 100000 < 100000)
    by (apply Z.mod_pos_bound; lia).
  rewrite (of_string_5f (k <? 0) _ _ Hfr). cbv zeta.
  assert (Hq : 0 <= Z.abs k / 100000) by (apply Z.div_pos; lia).
  rewrite Z2N.id by exact Hq.
  assert (Hk' : Z.abs k / 100000 * 100000 + Z.abs k mod 100000 = Z.abs k).
  { pose proof (Z.div_mod (Z.abs k) 100000). lia. }
  rewrite Hk'. fold a.
  assert (Hnz : Qeq_bool (a * 1) 0 = false).
  { destruct (Qeq_bool (a * 1) 0) eqn:E; [|reflexivity].
    apply Qeq_bool_iff in E. lra. }
  rewrite Hnz, <- Ev. f_equal. apply FloatFacts.of_Q_Qeq.
  destruct Hcase as [(Hs & E & _)|(Hs & E & _)]; rewrite E.
  - destruct (Z.ltb_spec k 0); [lia | ring].
  - destruct (Z.ltb_spec k 0); [ring | lia].
Qed.

End CodecFacts.

(* ================================================================== *)
(** * The round trip of the codec (C5) *)
(* ================================================================== *)

Module RoundTrip.
Import Str StrFacts CodecFacts MonadFacts.

Lemma append_nonempty a c b : a ++ String c b <> "".
Proof. destruct a; discriminate. Qed.

Lemma split_join c l :
  l <> [] -> Forall (fun p => all_chars (isnt c) p = true) l ->
  split c (join (String c "") l) = l.
Proof.
  induction l as [|x l IH]; [congruence|]. intros _ H.
  inversion H as [|? ? Hx Hl]; subst.
  destruct l as [|y r].
  - cbn [join]. now apply split_none.
  - change (join (String c "") (x :: y :: r))
      with (x ++ String c (join (String c "") (y :: r))).
    rewrite (split_piece _ _ _ Hx), IH; [reflexivity | discriminate | exact Hl].
Qed.

Lemma index_last_last {A} (l : list A) (d : A) :
  l <> [] -> index_last l = ret (last l d).
Proof.
  intros Hl. destruct (exists_last Hl) as [l' [a ->]].
  unfold index_last. now rewrite rev_app_distr, last_last.
Qed.

Lemma basefilename_eq subj tv arch hv :
  format_model_basefilename subj tv arch hv
  = subj ++ "_" ++ fmt_02d tv ++ "_" ++ train_info arch hv.
Proof.
  unfold format_model_basefilename, train_info.
  destruct (0 <? hv); [|reflexivity].
  now rewrite !append_assoc.
Qed.

Lemma parse_train_info_plain arch :
  isdigit (last (split "+" arch) "") = false ->
  parse_train_info arch = ret (0, arch).
Proof.
  intros H. unfold parse_train_info.
  rewrite (index_last_last _ "") by apply split_nonempty.
  cbn [bind ret]. now rewrite H.
Qed.

Lemma parse_train_info_version arch hv :
  0 < hv -> parse_train_info (arch ++ "+" ++ fmt_02d hv) = ret (hv, arch).
Proof.
  intros Hhv. unfold parse_train_info.
  change (arch ++ "+" ++ fmt_02d hv) with (arch ++ String "+" (fmt_02d hv)).
  assert (Hd : isdecimal (fmt_02d hv) = true)
    by (apply isdecimal_fmt_02d; lia).
  assert (Hp : all_chars (isnt "+") (fmt_02d hv) = true).
  { unfold isdecimal in Hd. apply andb_true_iff in Hd as [_ Hd].
    apply (digits_class (isnt "+")); [reflexivity | exact Hd]. }
  rewrite split_app, (split_none _ _ Hp).
  unfold index_last. rewrite rev_app_distr. cbn [rev app bind ret].
  rewrite (isdecimal_isdigit _ Hd). unfold int. rewrite py_int_fmt_02d by lia.
  cbn [bind ret app]. now rewrite removelast_last, join_split.
Qed.

Lemma parse_train_info_ok arch hv :
  0 <= hv -> (hv = 0 -> isdigit (last (split "+" arch) "") = false) ->
  parse_train_info (train_info arch hv) = ret (hv, arch).
Proof.
  intros Hhv H0. unfold train_info. destruct (Z.ltb_spec 0 hv).
  - now apply parse_train_info_version.
  - assert (hv = 0) by lia. subst. now apply parse_train_info_plain, H0.
Qed.

(** The fields of a name of seven or more segments. *)
Lemma parse_fields_full fp sf fname s0 s1 s2 s3 s4 s5 s6 rest tv hv arch c t v ep :
  split "_" fname = s0 :: s1 :: s2 :: s3 :: s4 :: s5 :: s6 :: rest ->
  py_int s1 = Some tv ->
  parse_train_info s2 = ret (hv, arch) ->
  Float.of_string s3 = Some c -> Float.of_string s4 = Some t ->
  Float.of_string s5 = Some v ->
  py_int s6 = Some ep ->
  parse_fields fp sf fname
  = ret (Some {| filepath := PathObj fp; filename := fname;
                 basefilename := Some (format_model_basefilename s0 tv arch hv);
                 segment_subject := s0; traindata_version := tv;
                 model_architecture := arch; hyperparams_version := hv;
                 acc_combined := c; acc_train := t; acc_val := v;
                 epoch := ep; save_format := sf |}).
Proof.
  intros Hs H1 H2 H3 H4 H5 H6.
  unfold parse_fields, parse_accuracies, index, int, float. rewrite Hs.
  cbn [nth_error List.length Nat.ltb Nat.leb].
  repeat (cbn [bind ret app];
          first [rewrite H1 | rewrite H2 | rewrite H3 | rewrite H4
                | rewrite H5 | rewrite H6]).
  reflexivity.
Qed.

Lemma piece_class_digits q :
  piece_class q ->
  forallb q ["0"; "1"; "2"; "3"; "4"; "5"; "6"; "7"; "8"; "9"]%char = true.
Proof.
  unfold piece_class. cbn [forallb]. rewrite !andb_true_iff.
  intros H. decompose [and] H. repeat split; assumption.
Qed.

Lemma class_fmt_02d q z :
  piece_class q -> 0 <= z -> all_chars q (fmt_02d z) = true.
Proof.
  intros Hq Hz. apply digits_class; [now apply piece_class_digits|].
  pose proof (isdecimal_fmt_02d z Hz) as H. unfold isdecimal in H.
  now apply andb_true_iff in H as [_ H].
Qed.

Lemma class_of_Z q z :
  piece_class q -> 0 <= z -> all_chars q (of_Z z) = true.
Proof.
  intros Hq Hz. unfold of_Z. destruct (Z.ltb_spec z 0); [lia|].
  apply digits_class; [now apply piece_class_digits | apply digits_of_N].
Qed.

Lemma class_fmt_5f q x : piece_class q -> all_chars q (Float.fmt_5f x) = true.
Proof.
  intros Hq. pose proof Hq as Hq'. unfold piece_class in Hq'.
  cbn [forallb] in Hq'. rewrite !andb_true_iff in Hq'.
  destruct Hq' as (_ & _ & _ & _ & _ & _ & _ & _ & _ & _
                   & Hm & Hp & _ & Hi & Hn & Hf & Ha & _).
  pose proof (piece_class_digits q Hq) as Hd. pose proof Hd as Hd'.
  cbn [forallb] in Hd'. rewrite !andb_true_iff in Hd'.
  destruct Hd' as (H0 & _).
  destruct x as [v| |[]|]; cbn [Float.fmt_5f all_chars];
    rewrite ?Hm, ?Hp, ?Hi, ?Hn, ?Hf, ?Ha, ?H0; try reflexivity.
  unfold fmt_5f. apply all_chars_5f; assumption.
Qed.

Lemma class_train_info q arch hv :
  piece_class q -> all_chars q arch = true -> 0 <= hv ->
  all_chars q (train_info arch hv) = true.
Proof.
  intros Hq Ha Hhv. unfold train_info. destruct (0 <? hv); [|exact Ha].
  rewrite !all_chars_app, Ha, (class_fmt_02d q hv Hq Hhv).
  unfold piece_class in Hq. cbn [forallb] in Hq. rewrite !andb_true_iff in Hq.
  destruct Hq as (_ & _ & _ & _ & _ & _ & _ & _ & _ & _ & _ & _ & Hplus & _).
  cbn [all_chars]. now rewrite Hplus.
Qed.

(** The name that is formatted, as its fields joined by underscores. *)
Lemma filename_eq subj tv arch hv acc_t acc_v acc_c ep sf :
  format_model_filename subj tv arch hv acc_t acc_v acc_c ep sf
  = join "_" [subj; fmt_02d tv; train_info arch hv; Float.fmt_5f acc_c;
              Float.fmt_5f acc_t; Float.fmt_5f acc_v; of_Z ep]
    ++ (if (sf =? "tf")%string then "_tf" else ".hdf5").
Proof.
  unfold format_model_filename. rewrite basefilename_eq.
  destruct (sf =? "tf")%string; cbn [join]; now rewrite !append_assoc.
Qed.

Lemma pieces_class q subj tv arch hv acc_t acc_v acc_c ep :
  piece_class q ->
  all_chars q subj = true -> all_chars q arch = true ->
  0 <= tv -> 0 <= hv -> 0 <= ep ->
  Forall (fun p => all_chars q p = true)
    [subj; fmt_02d tv; train_info arch hv; Float.fmt_5f acc_c;
     Float.fmt_5f acc_t; Float.fmt_5f acc_v; of_Z ep].
Proof.
  intros Hq Hs Ha Htv Hhv Hep.
  repeat (apply Forall_cons;
          [ first [ exact Hs
                  | exact (class_fmt_02d q _ Hq Htv)
                  | exact (class_train_info q _ _ Hq Ha Hhv)
                  | exact (class_fmt_5f q _ Hq)
                  | exact (class_of_Z q _ Hq Hep) ] | ]).
  apply Forall_nil.
Qed.

Lemma all_chars_join q c l :
  q c = true -> Forall (fun p => all_chars q p = true) l ->
  all_chars q (join (String c "") l) = true.
Proof.
  intros Hc. induction l as [|x [|y r] IH]; intros H.
  - reflexivity.
  - now inversion H.
  - inversion H as [|? ? Hx Hl]; subst.
    change (join (String c "") (x :: y :: r))
      with (x ++ String c (join (String c "") (y :: r))).
    rewrite all_chars_app, Hx. cbn [all_chars andb]. rewrite Hc. now apply IH.
Qed.

(** [Path(s).name] of a path of one part. *)
Lemma name_single s :
  no_slash s -> s <> "" -> s <> "." -> name s = s.
Proof.
  intros Hs H1 H2. unfold name. rewrite (split_none _ _ Hs). cbn [filter].
  apply String.eqb_neq in H1, H2. now rewrite H1, H2.
Qed.

Lemma join_nonempty x y l : join "_" (x :: y :: l) <> "".
Proof.
  change (join "_" (x :: y :: l)) with (x ++ String "_" (join "_" (y :: l))).
  apply append_nonempty.
Qed.

Lemma append_not_dot a b c t : a ++ String b (String c t) <> ".".
Proof. destruct a as [|? [|? ?]]; discriminate. Qed.

Lemma stem_hdf5 x :
  no_slash x -> x <> "" ->
  stem (x ++ ".hdf5") = x /\ suffix (x ++ ".hdf5") = ".hdf5".
Proof.
  intros Hs Hx. unfold stem, suffix.
  rewrite name_single.
  - change (x ++ ".hdf5") with (x ++ String "." "hdf5").
    rewrite rsplit_app by reflexivity.
    apply String.eqb_neq in Hx. rewrite Hx. split; reflexivity.
  - unfold no_slash. now rewrite all_chars_app, Hs.
  - apply append_nonempty.
  - apply append_not_dot.
Qed.

Lemma name_tf x : no_slash x -> name (x ++ "_tf") = x ++ "_tf".
Proof.
  intros Hs. apply name_single.
  - unfold no_slash. now rewrite all_chars_app, Hs.
  - apply append_nonempty.
  - apply append_not_dot.
Qed.

(** A name formatted from a well-formed identity decodes to that
    identity, and to what [float] reads in the three scores as they are
    written. *)
Lemma parse_formatted
    (d : directory) subj tv arch hv acc_t acc_v acc_c ep sf c t v :
  no_underscore subj -> no_underscore arch ->
  no_slash subj -> no_slash arch ->
  (hv = 0 -> isdigit (last (split "+" arch) "") = false) ->
  0 <= tv -> 0 <= hv -> 0 <= ep ->
  sf = "h5" \/ sf = "tf" ->
  is_dir d (format_model_filename subj tv arch hv acc_t acc_v acc_c ep sf)
  = (sf =? "tf")%string ->
  Float.of_string (Float.fmt_5f acc_c) = Some c ->
  Float.of_string (Float.fmt_5f acc_t) = Some t ->
  Float.of_string (Float.fmt_5f acc_v) = Some v ->
  exists r,
    outcome (parse_model_filename d
               (format_model_filename subj tv arch hv acc_t acc_v acc_c ep sf))
    = Return (Some r)
    /\ segment_subject r = subj /\ traindata_version r = tv
    /\ model_architecture r = arch /\ hyperparams_version r = hv
    /\ acc_combined r = c /\ acc_train r = t
    /\ acc_val r = v /\ epoch r = ep /\ save_format r = sf.
Proof.
  intros Hs Ha Hs' Ha' Hlast Htv Hhv Hep Hsf Hdir Pc Pt Pv.
  pose proof (pieces_class (isnt "_") subj tv arch hv acc_t acc_v acc_c ep
                eq_refl Hs Ha Htv Hhv Hep) as Hp.
  pose proof (pieces_class (isnt "/") subj tv arch hv acc_t acc_v acc_c ep
                eq_refl Hs' Ha' Htv Hhv Hep) as Hp'.
  assert (Hsplit := fun H => split_join "_" _ H Hp).
  specialize (Hsplit ltac:(discriminate)).
  pose proof (all_chars_join (isnt "/") "_" _ eq_refl Hp') as Hx.
  pose proof (parse_train_info_ok arch hv Hhv Hlast) as Hti.
  pose proof (py_int_fmt_02d tv Htv) as Ptv.
  pose proof (py_int_of_Z ep Hep) as Pep.
  rewrite filename_eq in *.
  set (x := join "_" _) in *.
  unfold parse_model_filename. rewrite Hdir.
  destruct Hsf as [-> | ->]; cbn [String.eqb Ascii.eqb Bool.eqb].
  - destruct (stem_hdf5 x Hx) as [Est Esu]; [apply join_nonempty|].
    rewrite Est, Esu. cbn [existsb String.eqb Ascii.eqb Bool.eqb orb].
    rewrite (parse_fields_full _ _ _ _ _ _ _ _ _ _ _ _ _ _ _ _ _ _
               Hsplit Ptv Hti Pc Pt Pv Pep).
    eexists; split; [reflexivity|]. cbn. auto 10.
  - rewrite (name_tf x Hx), endswith_app. cbn [negb].
    assert (Hsplit' : split "_" (x ++ "_tf")
                      = [subj; fmt_02d tv; train_info arch hv;
                         Float.fmt_5f acc_c; Float.fmt_5f acc_t;
                         Float.fmt_5f acc_v; of_Z ep; "tf"]).
    { change (x ++ "_tf") with (x ++ String "_" "tf").
      rewrite split_app, Hsplit. reflexivity. }
    rewrite (parse_fields_full _ _ _ _ _ _ _ _ _ _ _ _ _ _ _ _ _ _
               Hsplit' Ptv Hti Pc Pt Pv Pep).
    eexists; split; [reflexivity|]. cbn. auto 10.
Qed.

(** C5, as amended.  A name formatted from well-formed fields parses back
    to these fields: the subject and the architecture hold no underscore,
    the versions and the epoch are not negative, the format is ['h5'] or
    ['tf'], and each score is the float nearest to a multiple of [10^-5]
    below [2^52 * 10^-5] in magnitude; and - the conditions the claim
    leaves out - the subject and the architecture hold no ['/'] (the
    decoder reads the last part of the path), when no hyper parameter
    version is written the last ['+']-piece of the architecture is not a
    number for [str.isdigit] (which an architecture made of digits only
    is, though it holds no ['+']), and the path is a directory exactly
    when the format is ['tf'].  The scores come back as the same floats. *)
Theorem parse_format_roundtrip
    (d : directory) subj tv arch hv acc_t acc_v acc_c ep sf :
  no_underscore subj -> no_underscore arch ->
  no_slash subj -> no_slash arch ->
  (hv = 0 -> isdigit (last (split "+" arch) "") = false) ->
  0 <= tv -> 0 <= hv -> 0 <= ep ->
  five_decimals acc_c -> five_decimals acc_t -> five_decimals acc_v ->
  sf = "h5" \/ sf = "tf" ->
  is_dir d (format_model_filename subj tv arch hv acc_t acc_v acc_c ep sf)
  = (sf =? "tf")%string ->
  exists r,
    outcome (parse_model_filename d
               (format_model_filename subj tv arch hv acc_t acc_v acc_c ep sf))
    = Return (Some r)
    /\ segment_subject r = subj /\ traindata_version r = tv
    /\ model_architecture r = arch /\ hyperparams_version r = hv
    /\ acc_combined r = acc_c /\ acc_train r = acc_t
    /\ acc_val r = acc_v /\ epoch r = ep /\ save_format r = sf.
Proof.
  intros Hs Ha Hs' Ha' Hlast Htv Hhv Hep Hc Ht Hv Hsf Hdir.
  apply parse_formatted; try assumption; now apply of_string_fmt_5f.
Qed.

Lemma five_decimals_dec k :
  Z.abs k < 2 ^ 52 -> five_decimals (dec (k # 100000)).
Proof. intros H. now exists k. Qed.

(** The amended round trip at a usual name. *)
Lemma parse_format_roundtrip_witness :
  exists r,
    outcome (parse_model_filename []
               (format_model_filename "roads" 1 "unet" 3
                  (dec (79000 # 100000)) (dec (81000 # 100000))
                  (dec (80000 # 100000)) 5 "h5"))
    = Return (Some r)
    /\ segment_subject r = "roads" /\ traindata_version r = 1
    /\ model_architecture r = "unet" /\ hyperparams_version r = 3
    /\ acc_combined r = dec (80000 # 100000)
    /\ acc_train r = dec (79000 # 100000)
    /\ acc_val r = dec (81000 # 100000) /\ epoch r = 5
    /\ save_format r = "h5".
Proof.
  apply (parse_format_roundtrip [] "roads" 1 "unet" 3
           (dec (79000 # 100000)) (dec (81000 # 100000))
           (dec (80000 # 100000)) 5 "h5");
    try reflexivity; try lia.
  - exists 80000; split; reflexivity.
  - exists 79000; split; reflexivity.
  - exists 81000; split; reflexivity.
  - left; reflexivity.
Defined.

(** C5, as stated, fails.  The architecture ["123"] holds no underscore
    and no ['+'], so it does not end with ['+'] and digits; with no hyper
    parameter version the formatted name decodes to the architecture [""]
    and the version 123. *)
Lemma roundtrip_fails_for_numeric_architecture :
  no_underscore "roads" /\ no_underscore "123"
  /\ no_plus_digits_suffix "123"
  /\ five_decimals (dec (80000 # 100000))
  /\ five_decimals (dec (79000 # 100000))
  /\ five_decimals (dec (81000 # 100000))
  /\ exists r,
       outcome (parse_model_filename []
                  (format_model_filename "roads" 1 "123" 0
                     (dec (79000 # 100000)) (dec (81000 # 100000))
                     (dec (80000 # 100000)) 5 "h5"))
       = Return (Some r)
       /\ model_architecture r = "" /\ hyperparams_version r = 123
       /\ model_architecture r <> "123" /\ hyperparams_version r <> 0.
Proof.
  split; [reflexivity|]. split; [reflexivity|]. split.
  { intros a n H.
    destruct a as [|c1 [|c2 [|c3 [|c4 a]]]]; cbn [append] in H;
      discriminate H. }
  split; [apply five_decimals_dec; reflexivity|].
  split; [apply five_decimals_dec; reflexivity|].
  split; [apply five_decimals_dec; reflexivity|].
  eexists. split; [vm_compute; reflexivity|].
  cbn. repeat split; discriminate.
Qed.

(** A name formatted for ['tf'] decodes only once the directory is there:
    on a path that is not a directory the decoder looks for a suffix. *)
Lemma tf_name_needs_directory :
  let name := format_model_filename "roads" 1 "unet" 0
                (dec (79 # 100)) (dec (81 # 100)) (dec (8 # 10)) 5 "tf" in
  outcome (parse_model_filename [] name) = Return None
  /\ exists r, outcome (parse_model_filename [dir name] name) = Return (Some r).
Proof. split; [reflexivity|]. eexists. vm_compute. reflexivity. Qed.

(** A subject that holds a slash is not read back: the decoder reads the
    last part of the path. *)
Lemma slash_in_subject_is_lost :
  exists r,
    outcome (parse_model_filename []
               (format_model_filename "a/b" 1 "unet" 0
                  (dec (79 # 100)) (dec (81 # 100)) (dec (8 # 10)) 5 "h5"))
    = Return (Some r)
    /\ segment_subject r = "b".
Proof. eexists. split; vm_compute; reflexivity. Qed.

End RoundTrip.

(* ================================================================== *)
(** * The ranking: which rows are discarded (C4) *)
(* ================================================================== *)

Module Ranking.

Lemma cell_eqb_eq a b : cell_eqb a b = true <-> a = b.
Proof.
  destruct a as [p|p], b as [q|q]; cbn [cell_eqb];
    rewrite ?String.eqb_eq; split; intros H;
    try discriminate; try congruence.
Qed.

Lemma cell_eqb_neq a b : cell_eqb a b = false <-> a <> b.
Proof.
  rewrite <- cell_eqb_eq. destruct (cell_eqb a b); split; congruence.
Qed.

Lemma keep_model_false sbo df mi :
  keep_model sbo df mi = false <-> exists r, In r (better_ones sbo df mi).
Proof.
  unfold keep_model. destruct (better_ones sbo df mi) as [|r l]; split.
  - discriminate.
  - intros [r []].
  - intros _. exists r. now left.
  - reflexivity.
Qed.

(** What the best-only test of the code discards: every row that has
    another row at least as good, the equally good ones included. *)
Lemma best_only_discard_iff df mi :
  keep_model true df mi = false
  <-> exists r, In r df /\ filepath r <> filepath mi
                /\ Float.ge (acc_combined r) (acc_combined mi) = true.
Proof.
  rewrite keep_model_false. unfold better_ones.
  split; intros [r H]; exists r.
  - apply filter_In in H as [Hin H].
    apply andb_true_iff in H as [Hf Hc].
    apply negb_true_iff, cell_eqb_neq in Hf. auto.
  - destruct H as (Hin & Hf & Hc). apply filter_In. split; [exact Hin|].
    apply andb_true_iff. split; [|exact Hc].
    now apply negb_true_iff, cell_eqb_neq.
Qed.

Lemma pareto_discard_iff df mi :
  keep_model false df mi = false
  <-> exists r, In r df /\ filepath r <> filepath mi
                /\ Float.ge (acc_combined r) (acc_combined mi) = true
                /\ Float.ge (acc_train r) (acc_train mi) = true
                /\ Float.ge (acc_val r) (acc_val mi) = true.
Proof.
  rewrite keep_model_false. unfold better_ones.
  split; intros [r H]; exists r.
  - apply filter_In in H as [Hin H].
    apply andb_true_iff in H as [H Hv].
    apply andb_true_iff in H as [H Ht].
    apply andb_true_iff in H as [H Hc].
    apply negb_true_iff, cell_eqb_neq in H. auto 6.
  - destruct H as (Hin & Hf & Hc & Ht & Hv). apply filter_In.
    split; [exact Hin|].
    rewrite Hc, Ht, Hv, !andb_true_r.
    now apply negb_true_iff, cell_eqb_neq.
Qed.

(** C4.  Under the pareto policy a row [B] of the frame is discarded as
    soon as a row [A] of the frame with another filepath is at least as good
    on the three scores (and better on one); and a row is discarded only
    when some row with another filepath is at least as good on the three
    scores.  The comparisons are those of floats: none holds of [nan]. *)
Theorem pareto_dominated_discarded (model_info_df : list ModelInfo) (B : ModelInfo) :
  (forall A,
     In A model_info_df -> In B model_info_df ->
     filepath A <> filepath B ->
     Float.ge (acc_combined A) (acc_combined B) = true ->
     Float.ge (acc_train A) (acc_train B) = true ->
     Float.ge (acc_val A) (acc_val B) = true ->
     Float.gt (acc_combined A) (acc_combined B) = true
     \/ Float.gt (acc_train A) (acc_train B) = true
     \/ Float.gt (acc_val A) (acc_val B) = true ->
     keep_model false model_info_df B = false)
  /\ (keep_model false model_info_df B = false ->
      exists A,
        In A model_info_df /\ filepath A <> filepath B
        /\ Float.ge (acc_combined A) (acc_combined B) = true
        /\ Float.ge (acc_train A) (acc_train B) = true
        /\ Float.ge (acc_val A) (acc_val B) = true).
Proof.
  split.
  - intros A HA _ Hf Hc Ht Hv _. apply pareto_discard_iff.
    exists A. auto 6.
  - apply pareto_discard_iff.
Qed.

End Ranking.

(* ================================================================== *)
(** * The registry scan and the best model (C10) *)
(* ================================================================== *)

Module Registry.
Import MonadFacts.

Lemma get_models_scan d seg arch tv hv :
  get_models d seg arch tv hv
  = (l <- scan d ;;
     ret (match l with
          | [] => DataFrame_of []
          | _ :: _ => {| has_columns := true; rows := select seg arch tv hv l |}
          end)).
Proof.
  unfold get_models, scan, bind.
  destruct (parse_all d _) as [tr [l|e]]; [|reflexivity].
  destruct l; reflexivity.
Qed.

Lemma get_models_outcome d seg arch tv hv :
  outcome (get_models d seg arch tv hv)
  = match outcome (scan d) with
    | Return [] => Return (DataFrame_of [])
    | Return l => Return {| has_columns := true; rows := select seg arch tv hv l |}
    | Raise e => Raise e
    end.
Proof.
  rewrite get_models_scan, outcome_bind.
  destruct (outcome (scan d)) as [[|r l]|e]; reflexivity.
Qed.

Lemma get_max_data_version_outcome d :
  outcome (get_max_data_version d)
  = match outcome (scan d) with
    | Return l => Return (max_traindata_version l)
    | Raise e => Raise e
    end.
Proof.
  unfold get_max_data_version. rewrite outcome_bind, get_models_outcome.
  destruct (outcome (scan d)) as [[|r l]|e]; reflexivity.
Qed.


Lemma column_max_spec x l :
  (column_max x l = x \/ In (column_max x l) l)
  /\ x <= column_max x l
  /\ forall y, In y l -> y <= column_max x l.
Proof.
  unfold column_max. revert x. induction l as [|y l IH]; intros x;
    cbn [fold_left]; [repeat split; auto; try lia; intros ? []|].
  destruct (IH (Z.max x y)) as (Hat & Hge & Hall).
  repeat split.
  - destruct Hat as [E|Hin]; [|right; now right].
    rewrite E. destruct (Z.max_spec x y) as [[_ ->]|[_ ->]];
      [right; now left | now left].
  - lia.
  - intros z [<-|Hz]; [lia | auto].
Qed.


Lemma argmax_in best l : In (argmax best l) (best :: l).
Proof.
  revert best. induction l as [|x l IH]; intros best; cbn [argmax];
    [now left|].
  destruct (Float.is_nan (acc_combined best)); [now left|].
  destruct (Float.is_nan (acc_combined x)
            || Float.gt (acc_combined x) (acc_combined best)).
  - right. apply IH.
  - destruct (IH best) as [<-|Hin]; [now left | right; now right].
Qed.

(** [argmax] stops at the first [nan]. *)
Lemma argmax_nan best l :
  (exists x, In x (best :: l) /\ Float.is_nan (acc_combined x) = true) ->
  Float.is_nan (acc_combined (argmax best l)) = true.
Proof.
  revert best. induction l as [|x l IH]; intros best (y & Hy & Hn);
    cbn [argmax].
  - destruct Hy as [<-|[]]. exact Hn.
  - destruct (Float.is_nan (acc_combined best)) eqn:Eb; [exact Eb|].
    destruct Hy as [<-|Hy]; [congruence|].
    destruct (Float.is_nan (acc_combined x)) eqn:Ex; cbn [orb].
    + apply IH. exists x. split; [now left | exact Ex].
    + destruct Hy as [<-|Hy]; [congruence|].
      destruct (Float.gt (acc_combined x) (acc_combined best));
        apply IH; exists y; (split; [now right | exact Hn]).
Qed.

(** Without [nan], [argmax] is a maximum. *)
Lemma argmax_ge best l :
  (forall x, In x (best :: l) -> Float.is_nan (acc_combined x) = false) ->
  forall x, In x (best :: l) ->
    Float.ge (acc_combined (argmax best l)) (acc_combined x) = true.
Proof.
  revert best. induction l as [|y l IH]; intros best Hnn x Hx;
    cbn [argmax].
  - destruct Hx as [<-|[]]. apply FloatFacts.ge_refl, Hnn. now left.
  - assert (Hb : Float.is_nan (acc_combined best) = false)
      by (apply Hnn; now left).
    assert (Hy : Float.is_nan (acc_combined y) = false)
      by (apply Hnn; right; now left).
    rewrite Hb, Hy. cbn [orb].
    destruct (Float.gt (acc_combined y) (acc_combined best)) eqn:E.
    + assert (Hl : forall z, In z (y :: l) ->
                     Float.is_nan (acc_combined z) = false)
        by (intros z Hz; apply Hnn; now right).
      destruct Hx as [<-|Hx]; [|now apply IH].
      apply FloatFacts.ge_trans with (acc_combined y);
        [apply IH; [exact Hl | now left] | now apply FloatFacts.gt_ge].
    + assert (Hl : forall z, In z (best :: l) ->
                     Float.is_nan (acc_combined z) = false).
      { intros z [<-|Hz]; [exact Hb | apply Hnn; right; now right]. }
      destruct Hx as [<-|[<-|Hx]].
      * apply IH; [exact Hl | now left].
      * apply FloatFacts.ge_trans with (acc_combined best);
          [apply IH; [exact Hl | now left]|].
        destruct (FloatFacts.gt_or_ge (acc_combined y) (acc_combined best)
                    Hy Hb) as [H|H]; [congruence | exact H].
      * apply IH; [exact Hl | now right].
Qed.

(** The row [argmax] picks: no row has a higher score, and when its score
    is a number it is at least every score. *)
Lemma argmax_spec best l :
  In (argmax best l) (best :: l)
  /\ forall r, In r (best :: l) ->
       Float.gt (acc_combined r) (acc_combined (argmax best l)) = false
       /\ (Float.is_nan (acc_combined (argmax best l)) = false ->
           Float.ge (acc_combined (argmax best l)) (acc_combined r) = true).
Proof.
  split; [apply argmax_in|]. intros r Hr.
  destruct (Float.is_nan (acc_combined (argmax best l))) eqn:E.
  - split; [|discriminate].
    apply FloatFacts.is_nan_eq in E. rewrite E. apply FloatFacts.gt_nan_r.
  - assert (Hnn : forall x, In x (best :: l) ->
                    Float.is_nan (acc_combined x) = false).
    { intros x Hx. destruct (Float.is_nan (acc_combined x)) eqn:Ex;
        [|reflexivity].
      rewrite argmax_nan in E; [discriminate | now exists x]. }
    pose proof (argmax_ge best l Hnn r Hr) as Hge.
    split; [|now intros _].
    destruct (Float.gt (acc_combined r) (acc_combined (argmax best l)))
      eqn:G; [|reflexivity].
    apply FloatFacts.gt_iff in G as [_ G]. congruence.
Qed.

Lemma best_row_spec df b :
  outcome (best_row df) = Return (Some b) ->
  In b (rows df)
  /\ forall r, In r (rows df) ->
       Float.gt (acc_combined r) (acc_combined b) = false
       /\ (Float.is_nan (acc_combined b) = false ->
           Float.ge (acc_combined b) (acc_combined r) = true).
Proof.
  unfold best_row. destruct (rows df) as [|r0 l]; [discriminate|].
  intros H. injection H as <-. apply argmax_spec.
Qed.






End Registry.

(* ================================================================== *)
(** * Decoding short names (C6, C7), stored scores (C8), ties (C2, C3) *)
(* ================================================================== *)

Module Decoding.
Import MonadFacts.

(** A name of fewer than three fields makes the decoder raise: the
    warning of line 135 is not followed by a [return]. *)
Lemma too_few_fields_raises filepath save_format filename :
  (List.length (Str.split "_" filename) < 3)%nat ->
  In (Log (WarnTooFewFields filepath))
     (trace_of (parse_fields filepath save_format filename))
  /\ exists e, outcome (parse_fields filepath save_format filename) = Raise e.
Proof.
  intros Hlen. unfold parse_fields.
  destruct (Str.split "_" filename) as [|s0 [|s1 [|s2 l]]] eqn:E;
    cbn [List.length] in Hlen; try lia.
  - now apply StrFacts.split_nonempty in E.
  - split; [left; reflexivity | exists IndexError; reflexivity].
  - cbn [List.length Nat.ltb Nat.leb index nth_error bind ret emit app].
    unfold int. destruct (Str.py_int s1) as [z|].
    + split; [left; reflexivity | exists IndexError; reflexivity].
    + split; [left; reflexivity | exists ValueError; reflexivity].
Qed.

(** C7, on the code.  The file ["model.hdf5"] has a valid suffix and one
    field: the decoder logs its warning and then raises [IndexError]
    instead of returning a failure, and the scan of a directory that holds
    it is aborted by the exception. *)
Theorem too_few_fields_aborts_scan :
  parse_model_filename [] "model.hdf5"
  = ([Log (WarnTooFewFields "model.hdf5")], Raise IndexError)
  /\ parse_model_filename [] "roads_01.hdf5"
     = ([Log (WarnTooFewFields "roads_01.hdf5")], Raise IndexError)
  /\ outcome (get_models
                [file "roads_01_unet_0.80000_0.79000_0.81000_5.hdf5";
                 file "model.hdf5"] None None None None)
     = Raise IndexError.
Proof. repeat split; vm_compute; reflexivity. Qed.

(** C6, on the code.  Names of four, five and six fields have a valid
    suffix and at least three fields, and the decoder raises on them:
    the guard of line 150 lets them through to [param_values[4]],
    [param_values[5]] and [param_values[6]].  Only a name of exactly three
    fields is decoded with scores and epoch zero. *)
Theorem four_to_six_fields_raise :
  outcome (parse_model_filename [] "roads_01_unet_0.80000.hdf5")
  = Raise IndexError
  /\ outcome (parse_model_filename [] "roads_01_unet_0.80000_0.79000.hdf5")
     = Raise IndexError
  /\ outcome (parse_model_filename []
                "roads_01_unet_0.80000_0.79000_0.81000.hdf5")
     = Raise IndexError
  /\ outcome (get_models
                [file "roads_01_unet_0.80000_0.79000_0.81000_5.hdf5";
                 file "roads_01_unet_0.80000.hdf5"] None None None None)
     = Raise IndexError
  /\ exists r,
       parse_model_filename [] "roads_01_unet.hdf5"
       = ([Log (WarnNoAccuracy "roads_01_unet.hdf5")], Return (Some r))
       /\ acc_combined r = Float.Fin 0 /\ acc_train r = Float.Fin 0
       /\ acc_val r = Float.Fin 0 /\ epoch r = 0.
Proof.
  repeat split; try (vm_compute; reflexivity).
  eexists. split; [vm_compute; reflexivity|]. repeat split.
Qed.

(** The part of C6 the code does: a name of exactly three fields whose
    second field is a number is decoded with scores and epoch zero. *)
Lemma three_fields_degraded filepath save_format filename s0 s1 s2 tv hv arch :
  Str.split "_" filename = [s0; s1; s2] ->
  Str.py_int s1 = Some tv ->
  parse_train_info s2 = ret (hv, arch) ->
  exists r,
    parse_fields filepath save_format filename
    = ([Log (WarnNoAccuracy filepath)], Return (Some r))
    /\ acc_combined r = Float.Fin 0 /\ acc_train r = Float.Fin 0
    /\ acc_val r = Float.Fin 0 /\ epoch r = 0.
Proof.
  intros Hs H1 H2. unfold parse_fields, parse_accuracies, index, int.
  rewrite Hs.
  cbn [nth_error List.length Nat.ltb Nat.leb].
  repeat (cbn [bind ret emit app]; first [rewrite H1 | rewrite H2]).
  eexists. split; [reflexivity|]. repeat split.
Qed.

End Decoding.

Module Scores.

(** C8, as amended.  A cycle that is given a candidate with raw metrics
    [t] and [v] appends one row to the frame, and the scores of that row
    are: with mode ['max'], [t], [v] and [(t + v) / 2]; with mode ['min'],
    [1 - t], [1 - v] and [1 - (t + v) / 2].  Each operation is one of
    floats, rounded.  For [t = 0.2] and [v = 0.3] under ['min'] this gives
    0.8, 0.7 and 0.75, where [acc_combined] is the mean of the two other
    scores; that it is so for every [t] and [v] is what fails. *)
Theorem new_model_scores_normalized
    (a : Args.t) (model_info_df : DataFrame) (t v : Float.t) (e : Z) :
  Args.new_model a = true ->
  Args.new_model_monitor_train a = Some t ->
  Args.new_model_monitor_val a = Some v ->
  Args.new_model_epoch a = Some e ->
  exists row,
    with_new_model a model_info_df
    = Return (Some (filename row),
              {| has_columns := true;
                 rows := (rows model_info_df ++ [row])%list |})
    /\ (Args.monitor_metric_mode a = "max" ->
        acc_train row = t /\ acc_val row = v
        /\ acc_combined row = Float.half (Float.add t v))
    /\ (Args.monitor_metric_mode a = "min" ->
        acc_train row = Float.sub Float.one t
        /\ acc_val row = Float.sub Float.one v
        /\ acc_combined row
           = Float.sub Float.one (Float.half (Float.add t v))
        /\ (t = dec (2 # 10) -> v = dec (3 # 10) ->
            acc_train row = dec (8 # 10) /\ acc_val row = dec (7 # 10)
            /\ acc_combined row = dec (75 # 100)
            /\ acc_combined row
               = Float.half (Float.add (acc_train row) (acc_val row)))).
Proof.
  intros Hn Ht Hv He. exists (new_model_row a t v e).
  unfold with_new_model. rewrite Hn, Ht, Hv, He.
  split; [reflexivity|].
  unfold new_model_row, new_model_acc. split; intros ->.
  - cbn [String.eqb Ascii.eqb Bool.eqb acc_train acc_val acc_combined].
    repeat split.
  - cbn [String.eqb Ascii.eqb Bool.eqb acc_train acc_val acc_combined].
    split; [reflexivity|]. split; [reflexivity|].
    split; [reflexivity|].
    intros -> ->. repeat split; vm_compute; reflexivity.
Qed.

(** The amended C8 at the scenario of the specification. *)
Lemma new_model_scores_normalized_witness :
  let a := cycle_args false "min" (Some (dec (2 # 10), dec (3 # 10), 7)) in
  exists row,
    with_new_model a (DataFrame_of [model_a])
    = Return (Some (filename row),
              {| has_columns := true; rows := [model_a; row] |})
    /\ acc_train row = dec (8 # 10) /\ acc_val row = dec (7 # 10)
    /\ acc_combined row = dec (75 # 100).
Proof.
  intros a.
  destruct (new_model_scores_normalized a (DataFrame_of [model_a])
              (dec (2 # 10)) (dec (3 # 10)) 7
              eq_refl eq_refl eq_refl eq_refl)
    as (row & Hrow & _ & Hmin).
  destruct (Hmin eq_refl) as (_ & _ & _ & Hex).
  destruct (Hex eq_refl eq_refl) as (Ht & Hv & Hc & _).
  exists row. repeat split; assumption.
Defined.

(** C8, as stated, fails.  With the raw metrics 0.1 and 0.2 under ['min']
    the stored scores are 0.9, 0.8 and [1 - (0.1 + 0.2) / 2], which is
    0.85, while the mean of the stored 0.9 and 0.8 is
    0.8500000000000001. *)
Lemma stored_combined_is_not_the_mean :
  let a := cycle_args false "min" (Some (dec (1 # 10), dec (2 # 10), 7)) in
  exists row,
    with_new_model a (DataFrame_of [])
    = Return (Some (filename row), {| has_columns := true; rows := [row] |})
    /\ acc_train row = dec (9 # 10) /\ acc_val row = dec (8 # 10)
    /\ acc_combined row = dec (85 # 100)
    /\ Float.half (Float.add (acc_train row) (acc_val row))
       = Float.Fin (1914029841632461 # 2251799813685248)
    /\ Float.gt (Float.half (Float.add (acc_train row) (acc_val row)))
         (acc_combined row) = true.
Proof.
  intros a. eexists. split; [reflexivity|].
  repeat split; vm_compute; reflexivity.
Qed.

End Scores.

Module Ties.
Import Ranking.

(** C4 at the scenario of the specification: [model_a] is at least as
    good as [model_b] on the three scores. *)
Lemma pareto_dominated_discarded_witness :
  keep_model false [model_a; model_b] model_b = false.
Proof.
  apply (proj1 (pareto_dominated_discarded [model_a; model_b] model_b) model_a).
  - simpl; auto.
  - simpl; auto.
  - discriminate.
  - reflexivity.
  - reflexivity.
  - reflexivity.
  - left. reflexivity.
Defined.

(** C3, on the code.  The directory [tied] holds two models whose
    [acc_combined] is the same and the highest; the best-only test of line
    472 compares with [>=], so each of the two finds the other one and
    both are discarded. *)
Theorem best_only_discards_tied_best :
  exists A B,
    outcome (scan tied) = Return [A; B]
    /\ filepath A <> filepath B
    /\ feq (acc_combined A) (acc_combined B)
    /\ (forall r, In r [A; B] ->
          Float.ge (acc_combined A) (acc_combined r) = true)
    /\ keep_model true [A; B] A = false
    /\ keep_model true [A; B] B = false.
Proof.
  eexists. eexists. split; [vm_compute; reflexivity|].
  split; [discriminate|]. split; [reflexivity|].
  split; [|split; reflexivity].
  intros r [<-|[<-|[]]]; reflexivity.
Qed.

(** C2, on the code.  A cycle without dry run on the directory [tied],
    under the best-only policy and without candidate, deletes the two
    models and leaves the directory empty; so does a cycle under the pareto
    policy on [plateau], two epochs with the same scores. *)
Theorem tied_models_all_deleted :
  (run_outcome (cycle_args true "max" None) tied = Return tt
   /\ run_calls (cycle_args true "max" None) tied
      = [Unlink "roads_01_unet_0.80000_0.79000_0.81000_5.hdf5";
         Unlink "roads_01_unet_0.80000_0.74000_0.86000_3.hdf5"]
   /\ run_dir (cycle_args true "max" None) tied = [])
  /\ (run_outcome (cycle_args false "max" None) plateau = Return tt
      /\ run_calls (cycle_args false "max" None) plateau
         = [Unlink "roads_01_unet_0.80000_0.79000_0.81000_5.hdf5";
            Unlink "roads_01_unet_0.80000_0.79000_0.81000_6.hdf5"]
      /\ run_dir (cycle_args false "max" None) plateau = []).
Proof. repeat split; vm_compute; reflexivity. Qed.

End Ties.

(* ================================================================== *)
(** * The order of the loop *)
(* ================================================================== *)

Module Sorting.

Lemma insert_desc_perm x l : Permutation (insert_desc x l) (x :: l).
Proof.
  induction l as [|y l IH]; cbn [insert_desc]; [reflexivity|].
  destruct (Float.ge (acc_combined x) (acc_combined y)); [reflexivity|].
  rewrite IH. apply perm_swap.
Qed.

Lemma sorted_numbers_perm l :
  Permutation (fold_right insert_desc [] l) l.
Proof.
  induction l as [|x l IH]; cbn [fold_right]; [reflexivity|].
  rewrite insert_desc_perm. now constructor.
Qed.

(** The rows whose score is a number, then the others: all the rows. *)
Lemma numbers_then_nan_perm (l : list ModelInfo) :
  Permutation
    (filter (fun r => negb (Float.is_nan (acc_combined r))) l
     ++ filter (fun r => Float.is_nan (acc_combined r)) l) l.
Proof.
  induction l as [|x l IH]; cbn [filter]; [reflexivity|].
  destruct (Float.is_nan (acc_combined x)); cbn [negb app].
  - rewrite <- Permutation_middle. now constructor.
  - now constructor.
Qed.

Lemma sort_values_perm l : Permutation (sort_values l) l.
Proof.
  unfold sort_values. rewrite sorted_numbers_perm.
  apply numbers_then_nan_perm.
Qed.







End Sorting.

(* ================================================================== *)
(** * The loop of the retention cycle *)
(* ================================================================== *)

Module Loop.
Import MonadFacts Ranking.

Lemma fs_calls_app tr tr' : fs_calls (tr ++ tr') = (fs_calls tr ++ fs_calls tr')%list.
Proof. apply filter_app. Qed.

Lemma quiet_ret {A} (a : A) : quiet (ret a).
Proof. reflexivity. Qed.

Lemma quiet_raise {A} e : quiet (@raise A e).
Proof. reflexivity. Qed.

Lemma quiet_log r : quiet (emit (Log r)).
Proof. reflexivity. Qed.

Lemma quiet_print p : quiet (emit (Print p)).
Proof. reflexivity. Qed.

Lemma quiet_bind {A B} (m : W A) (k : A -> W B) :
  quiet m -> (forall a, quiet (k a)) -> quiet (bind m k).
Proof.
  unfold quiet. intros Hm Hk. rewrite trace_bind.
  destruct (outcome m); [|exact Hm].
  now rewrite fs_calls_app, Hm, Hk.
Qed.

Ltac quiet_step :=
  first [ apply quiet_ret | apply quiet_raise | apply quiet_log
        | apply quiet_print
        | apply quiet_bind; [| intros ?a] ].

Lemma quiet_index {A} (l : list A) i : quiet (index l i).
Proof. unfold index. destruct (nth_error l i); quiet_step. Qed.

Lemma quiet_index_last {A} (l : list A) : quiet (index_last l).
Proof. unfold index_last. destruct (rev l); quiet_step. Qed.

Lemma quiet_int s : quiet (int s).
Proof. unfold int. destruct (Str.py_int s); quiet_step. Qed.

Lemma quiet_float s : quiet (float s).
Proof. unfold float. destruct (Float.of_string s); quiet_step. Qed.

Lemma quiet_parse_train_info s : quiet (parse_train_info s).
Proof.
  unfold parse_train_info. apply quiet_bind; [apply quiet_index_last|].
  intros a. destruct (Str.isdigit a); [|quiet_step].
  apply quiet_bind; [apply quiet_int | intros; quiet_step].
Qed.

Lemma quiet_parse_accuracies fp l : quiet (parse_accuracies fp l).
Proof.
  unfold parse_accuracies. destruct (3 <? List.length l)%nat.
  - repeat (apply quiet_bind;
            [first [apply quiet_index | apply quiet_float | apply quiet_int]
            | intros ?a]).
    quiet_step.
  - apply quiet_bind; [apply quiet_log | intros; quiet_step].
Qed.

Lemma quiet_parse_fields fp sf fname : quiet (parse_fields fp sf fname).
Proof.
  unfold parse_fields.
  apply quiet_bind.
  { destruct (_ <? 3)%nat; quiet_step. }
  intros _.
  repeat (apply quiet_bind;
          [first [apply quiet_index | apply quiet_int
                 | apply quiet_parse_train_info
                 | apply quiet_parse_accuracies]
          | intros ?a]).
  destruct a3 as [hv arch].
  apply quiet_bind; [apply quiet_parse_accuracies|].
  intros [[[c t] v] e]. quiet_step.
Qed.

Lemma quiet_parse_model_filename d p : quiet (parse_model_filename d p).
Proof.
  unfold parse_model_filename.
  destruct (is_dir d p).
  - destruct (negb _); [|apply quiet_parse_fields].
    apply quiet_bind; [apply quiet_log | intros; quiet_step].
  - destruct (existsb _ _); [apply quiet_parse_fields|].
    apply quiet_bind; [apply quiet_log | intros; quiet_step].
Qed.

Lemma quiet_parse_all d l : quiet (parse_all d l).
Proof.
  induction l as [|p l IH]; cbn [parse_all]; [quiet_step|].
  apply quiet_bind; [apply quiet_parse_model_filename|]. intros mi.
  apply quiet_bind; [exact IH | intros; quiet_step].
Qed.

Lemma quiet_get_models d seg arch tv hv : quiet (get_models d seg arch tv hv).
Proof.
  unfold get_models. apply quiet_bind; [apply quiet_parse_all|].
  intros l. destruct (0 <? _)%nat; quiet_step.
Qed.

Lemma quiet_get_best_model d seg tv arch hv :
  quiet (get_best_model d seg tv arch hv).
Proof.
  unfold get_best_model. apply quiet_bind; [apply quiet_get_models|].
  intros df.
  assert (Hbest : forall f, quiet (best_row f)).
  { intros f. unfold best_row. destruct (rows f); quiet_step. }
  destruct tv; [apply Hbest|].
  apply quiet_bind.
  { unfold get_max_data_version. apply quiet_bind; [apply quiet_get_models|].
    intros f. destruct (map _ _); quiet_step. }
  intros mx. destruct (mx =? -1); [quiet_step|].
  apply quiet_bind; [|intros; apply Hbest].
  unfold loc. destruct (has_columns df); quiet_step.
Qed.

Lemma quiet_report_best a d : quiet (report_best a d).
Proof.
  unfold report_best. destruct (_ || _); [|quiet_step].
  apply quiet_bind; [apply quiet_get_best_model|].
  intros [b|]; quiet_step.
Qed.


(** ** The loop, one row at a time *)

Lemma loop_body_split a df p d tr mi :
  loop_body a df p (d, tr) mi
  = (step_dir a df p d mi, (tr ++ step_events a df p d mi)%list).
Proof.
  unfold step_dir, step_events, loop_body.
  destruct (keep_model _ df mi).
  - destruct p as [q|]; [|now rewrite List.app_nil_l].
    destruct (negb _ && _ && _); cbn [fst snd];
      now rewrite ?List.app_nil_l, <- ?List.app_assoc.
  - destruct (Args.only_report a), (exists_ d (cell_path (filepath mi))), (Args.debug a);
      cbn [fst snd]; now rewrite ?List.app_nil_l, <- ?List.app_assoc, ?List.app_nil_r.
Qed.

Lemma fold_loop a df p l d tr :
  fold_left (loop_body a df p) l (d, tr)
  = (loop_dir a df p d l, (tr ++ loop_events a df p d l)%list).
Proof.
  revert d tr. induction l as [|mi l IH]; intros d tr;
    cbn [fold_left loop_dir loop_events].
  - now rewrite List.app_nil_r.
  - now rewrite loop_body_split, IH, List.app_assoc.
Qed.

Lemma loop_events_app a df p d l1 l2 :
  loop_events a df p d (l1 ++ l2)
  = (loop_events a df p d l1
     ++ loop_events a df p (loop_dir a df p d l1) l2)%list.
Proof.
  revert d. induction l1 as [|mi l1 IH]; intros d;
    cbn [app loop_events loop_dir]; [reflexivity|].
  now rewrite IH, List.app_assoc.
Qed.

Lemma loop_events_In a df p l d ev :
  In ev (loop_events a df p d l) ->
  exists mi d', In mi l /\ In ev (step_events a df p d' mi).
Proof.
  revert d. induction l as [|mi l IH]; intros d; cbn [loop_events];
    [intros []|].
  intros H. apply in_app_or in H as [H|H].
  - exists mi, d. split; [now left | exact H].
  - destruct (IH _ H) as (mi' & d' & Hin & Hev).
    exists mi', d'. split; [now right | exact Hev].
Qed.

(** A call that saves comes from the iteration of the candidate, which is
    kept, when the run is not a dry run and nothing is at its path. *)
Lemma step_persist a df p d mi ev :
  In ev (step_events a df p d mi) -> is_persist ev = true ->
  keep_model (Args.save_best_only a) df mi = true
  /\ Args.only_report a = false
  /\ exists q, p = Some q /\ filepath mi = StrObj q
              /\ exists_ d q = false /\ ev = save_call a q
              /\ fs_calls (step_events a df p d mi) = [ev].
Proof.
  unfold step_events, loop_body.
  destruct (keep_model _ df mi) eqn:K.
  - destruct p as [q|].
    + destruct (Args.only_report a) eqn:R;
        [cbn; intros [<-|[]]; discriminate|].
      destruct (cell_eqb (filepath mi) (StrObj q)) eqn:C;
        [|cbn; intros [<-|[]]; discriminate].
      destruct (exists_ d q) eqn:X;
        [cbn; intros [<-|[]]; discriminate|].
      cbn [negb andb fst snd app].
      intros H Hp. apply cell_eqb_eq in C.
      assert (Hev : ev = save_call a q).
      { cbn in H. destruct H as [<-|[<-|[<-|[<-|[]]]]];
          try discriminate Hp; reflexivity. }
      subst ev. repeat split.
      exists q. repeat split; auto.
      unfold fs_calls. cbn [filter is_persist is_delete orb].
      rewrite Hp. reflexivity.
    + cbn. intros [<-|[]]; discriminate.
  - intros H Hp. exfalso.
    destruct (Args.only_report a), (exists_ d (cell_path (filepath mi))), (is_dir d (cell_path (filepath mi))), (Args.debug a);
      cbn [fst snd] in H;
      repeat (apply in_app_or in H as [H|H]);
      cbn [In] in H;
      repeat match goal with
             | h : _ \/ _ |- _ => destruct h as [h|h]
             | h : False |- _ => destruct h
             | h : _ = ev |- _ => subst ev; discriminate Hp
             | h : In _ (map _ _) |- _ =>
                 apply in_map_iff in h as (? & <- & _); discriminate Hp
             end.
Qed.

(** A call that deletes comes from the iteration of a discarded row, and
    removes the path of that row. *)
Lemma step_delete a df p d mi ev :
  In ev (step_events a df p d mi) -> is_delete ev = true ->
  keep_model (Args.save_best_only a) df mi = false
  /\ Args.only_report a = false
  /\ exists_ d (cell_path (filepath mi)) = true
  /\ deleted_path ev = Some (cell_path (filepath mi)).
Proof.
  unfold step_events, loop_body.
  destruct (keep_model _ df mi) eqn:K.
  - intros H Hd. exfalso.
    destruct p as [q|];
      [destruct (negb _ && _ && _)|];
      cbn [fst snd app In] in H;
      repeat match goal with
             | h : _ \/ _ |- _ => destruct h as [h|h]
             | h : False |- _ => destruct h
             | h : _ = ev |- _ => subst ev
             end;
      try discriminate Hd.
    unfold save_call in Hd.
    destruct (Args.save_weights_only a); discriminate Hd.
  - intros H Hd.
    destruct (Args.only_report a) eqn:R, (exists_ d (cell_path (filepath mi))) eqn:X,
             (is_dir d (cell_path (filepath mi))) eqn:D, (Args.debug a);
      cbn [fst snd] in H;
      repeat (apply in_app_or in H as [H|H]);
      cbn [In] in H;
      repeat match goal with
             | h : _ \/ _ |- _ => destruct h as [h|h]
             | h : False |- _ => destruct h
             | h : _ = ev |- _ => subst ev
             | h : In _ (map _ _) |- _ =>
                 apply in_map_iff in h as (? & <- & _)
             end;
      try discriminate Hd;
      repeat split; reflexivity.
Qed.

End Loop.

(* ================================================================== *)
(** * The retention cycle, run by run *)
(* ================================================================== *)

Module Cycle.
Import MonadFacts Ranking Registry Sorting Loop.

Lemma bind_inv {A B} (m : W A) (k : A -> W B) b :
  outcome (bind m k) = Return b ->
  exists a, outcome m = Return a /\ outcome (k a) = Return b.
Proof.
  rewrite outcome_bind. destruct (outcome m) as [a|e]; [|discriminate].
  intros H. now exists a.
Qed.

Lemma parse_fields_filepath fp sf fname r :
  outcome (parse_fields fp sf fname) = Return (Some r) ->
  filepath r = PathObj fp.
Proof.
  unfold parse_fields. intros H.
  repeat (apply bind_inv in H as (? & _ & H)).
  match type of H with context [let '(_, _) := ?x in _] => destruct x end.
  apply bind_inv in H as ([[[c t] v] e] & _ & H).
  cbn in H. injection H as <-. reflexivity.
Qed.

Lemma parse_model_filename_filepath d p r :
  outcome (parse_model_filename d p) = Return (Some r) ->
  filepath r = PathObj p.
Proof.
  unfold parse_model_filename.
  destruct (is_dir d p).
  - destruct (negb _); [discriminate|]. apply parse_fields_filepath.
  - destruct (existsb _ _); [|discriminate]. apply parse_fields_filepath.
Qed.

Lemma parse_all_In d paths l :
  outcome (parse_all d paths) = Return l ->
  forall r, In r l <->
            exists p, In p paths
                      /\ outcome (parse_model_filename d p) = Return (Some r).
Proof.
  revert l. induction paths as [|p paths IH]; intros l; cbn [parse_all].
  - intros [= <-] r. split; [intros [] | intros (? & [] & _)].
  - intros H. apply bind_inv in H as (mi & Hmi & H).
    apply bind_inv in H as (rest & Hrest & H).
    cbn in H. injection H as <-. intros r.
    specialize (IH _ Hrest r). split.
    + intros Hr. destruct mi as [i|].
      * destruct Hr as [<-|Hr]; [exists p; split; [now left|exact Hmi]|].
        apply IH in Hr as (q & Hq & Hp). exists q. split; [now right|exact Hp].
      * apply IH in Hr as (q & Hq & Hp). exists q. split; [now right|exact Hp].
    + intros (q & [<-|Hq] & Hp).
      * rewrite Hmi in Hp. injection Hp as ->. now left.
      * assert (Hr : In r rest) by (apply IH; eauto).
        destruct mi; [now right | exact Hr].
Qed.

Lemma select_In seg arch tv hv l r :
  In r (select (Some seg) (Some arch) (Some tv) (Some hv) l)
  <-> In r l
      /\ (segment_subject r =? seg)%string = true
      /\ (model_architecture r =? arch)%string = true
      /\ (traindata_version r =? tv) = true
      /\ (hyperparams_version r =? hv) = true.
Proof.
  unfold select, opt_filter. rewrite !filter_In. tauto.
Qed.

(** The rows a cycle finds: the rows of the scan that have its identity. *)
Lemma existing_rows a d df :
  outcome (existing a d) = Return df ->
  exists l, outcome (scan d) = Return l
            /\ forall r, In r (rows df) <-> In r l /\ of_identity a r = true.
Proof.
  unfold existing. rewrite get_models_outcome.
  destruct (outcome (scan d)) as [l|e]; [|discriminate].
  intros H. exists l. split; [reflexivity|]. intros r.
  assert (Hrows : rows df
                  = select (Some (Args.segment_subject a))
                      (Some (Args.model_architecture a))
                      (Some (Args.traindata_version a))
                      (Some (Args.hyperparams_version a)) l).
  { destruct l; injection H as <-; reflexivity. }
  rewrite Hrows, select_In.
  unfold of_identity. rewrite !andb_true_iff. tauto.
Qed.

Lemma existing_filepath a d df r :
  outcome (existing a d) = Return df -> In r (rows df) ->
  exists p, filepath r = PathObj p.
Proof.
  intros H Hr. destruct (existing_rows _ _ _ H) as (l & Hl & Hiff).
  destruct (proj1 (Hiff r) Hr) as [Hr' _].
  unfold scan in Hl.
  destruct (proj1 (parse_all_In d _ l Hl r) Hr') as (p & _ & Hp).
  exists p. now apply parse_model_filename_filepath in Hp.
Qed.

(** ** The rows and the entries *)

Lemma exists_In d p : exists_ d p = true <-> exists e, In e d /\ e_name e = p.
Proof.
  unfold exists_. rewrite existsb_exists.
  split; intros (e & He & H); exists e; split; auto;
    now apply String.eqb_eq.
Qed.

Lemma glob_In d suf p :
  In p (glob d suf)
  <-> exists e, In e d /\ e_name e = p /\ Str.endswith p suf = true.
Proof.
  unfold glob. rewrite in_map_iff. split.
  - intros (e & <- & He). apply filter_In in He as [He Hs]. eauto.
  - intros (e & He & <- & Hs). exists e. split; [reflexivity|].
    apply filter_In. auto.
Qed.

Lemma scan_paths_In d p :
  In p (glob d ".hdf5" ++ glob d ".h5" ++ glob d "_tf")%list
  <-> exists e suf, In e d /\ e_name e = p /\ Str.endswith p suf = true
                    /\ In suf [".hdf5"; ".h5"; "_tf"].
Proof.
  rewrite !in_app_iff, !glob_In. split.
  - intros [(e & H)|[(e & H)|(e & H)]].
    + exists e, ".hdf5". cbn [In]. tauto.
    + exists e, ".h5". cbn [In]. tauto.
    + exists e, "_tf". cbn [In]. tauto.
  - intros (e & suf & He & Hn & Hs & [<-|[<-|[<-|[]]]]); eauto 6.
Qed.

(** The rows of the directory are decoded from entries of the directory. *)
Lemma existing_on_disk a d df r :
  outcome (existing a d) = Return df -> In r (rows df) ->
  exists p, filepath r = PathObj p /\ exists_ d p = true
            /\ outcome (parse_model_filename d p) = Return (Some r).
Proof.
  intros Hex Hr.
  destruct (existing_rows _ _ _ Hex) as (l & Hscan & Hiff).
  destruct (proj1 (Hiff r) Hr) as [Hl _].
  unfold scan in Hscan.
  destruct (proj1 (parse_all_In _ _ _ Hscan r) Hl) as (p & Hp & Hparse).
  exists p. split; [exact (parse_model_filename_filepath _ _ _ Hparse)|].
  split; [|exact Hparse].
  apply scan_paths_In in Hp as (e & suf & He & Hn & _).
  apply exists_In. eauto.
Qed.

Lemma candidate_filepath a N :
  candidate a = Some N -> filepath N = StrObj (filename N).
Proof.
  unfold candidate, new_model_row.
  destruct (Args.new_model a); [|discriminate].
  destruct (Args.new_model_monitor_train a) as [t|]; [|discriminate].
  destruct (Args.new_model_monitor_val a) as [v|]; [|discriminate].
  destruct (Args.new_model_epoch a) as [e|]; [|discriminate].
  destruct (new_model_acc _ t v) as [[c t'] v'].
  intros [= <-]. reflexivity.
Qed.

Lemma with_new_model_candidate a N df :
  candidate a = Some N ->
  with_new_model a df
  = Return (Some (filename N),
            {| has_columns := true; rows := (rows df ++ [N])%list |}).
Proof.
  unfold candidate, with_new_model.
  destruct (Args.new_model a); [|discriminate].
  destruct (Args.new_model_monitor_train a) as [t|]; [|discriminate].
  destruct (Args.new_model_monitor_val a) as [v|]; [|discriminate].
  destruct (Args.new_model_epoch a) as [e|]; [|discriminate].
  intros [= <-]. reflexivity.
Qed.

Lemma with_new_model_none a df :
  candidate a = None ->
  with_new_model a df = Return (None, df)
  \/ exists e, with_new_model a df = Raise e.
Proof.
  unfold candidate, with_new_model.
  destruct (Args.new_model a); [|now left].
  destruct (Args.new_model_monitor_train a) as [t|];
    [|right; eexists; reflexivity].
  destruct (Args.new_model_monitor_val a) as [v|];
    [|right; eexists; reflexivity].
  destruct (Args.new_model_epoch a) as [e|];
    [discriminate | right; eexists; reflexivity].
Qed.

(** A run either touches no file and leaves the directory as it is, or
    it goes through the loop over the sorted rows. *)
Lemma run_cases a d :
  (run_calls a d = [] /\ run_dir a d = d
   /\ exists e, run_outcome a d = Raise e)
  \/ exists df p df',
       valid_args a = true
       /\ outcome (existing a d) = Return df
       /\ with_new_model a df = Return (p, df')
       /\ has_columns df' = true
       /\ candidate_set a d = rows df'
       /\ run_calls a d
          = fs_calls (loop_events a (rows df') p d (sort_values (rows df')))
       /\ run_dir a d
          = loop_dir a (rows df') p d (sort_values (rows df')).
Proof.
  unfold run_calls, run_dir, run_outcome, save_and_clean_models, valid_args,
    candidate_set.
  destruct (existsb _ ["min"; "max"]);
    [|left; repeat split; eexists; reflexivity].
  destruct (existsb _ ["h5"; "tf"]);
    [|left; repeat split; eexists; reflexivity].
  cbn [negb andb].
  pose proof (quiet_get_models d (Some (Args.segment_subject a))
                (Some (Args.model_architecture a))
                (Some (Args.traindata_version a))
                (Some (Args.hyperparams_version a))) as Hq.
  unfold existing.
  destruct (get_models d _ _ _ _) as [tr0 [df|e]];
    [|left; split; [exact Hq | split; [|eexists]; reflexivity]].
  cbn [outcome snd]. unfold quiet in Hq. cbn [trace_of fst] in Hq.
  destruct (with_new_model a df) as [[p df']|e] eqn:Hw;
    [|left; split; [exact Hq | split; [|eexists]; reflexivity]].
  destruct (has_columns df') eqn:Hc;
    [|left; split; [exact Hq | split; [|eexists]; reflexivity]].
  cbn [negb]. right. exists df, p, df'.
  rewrite fold_loop.
  pose proof (quiet_report_best a
                (loop_dir a (rows df') p d (sort_values (rows df')))) as Hr.
  destruct (report_best a _) as [tr2 r].
  unfold quiet in Hr. cbn [trace_of fst snd] in *.
  repeat split; try reflexivity; try assumption.
  rewrite !fs_calls_app, Hq, Hr. now rewrite List.app_nil_r.
Qed.

End Cycle.

(* ================================================================== *)
(** * Save before delete (C1) *)
(* ================================================================== *)

Module Ordering.
Import MonadFacts Ranking Registry Sorting Loop Cycle.


Lemma fs_calls_In tr ev :
  In ev (fs_calls tr) <-> In ev tr /\ (is_persist ev || is_delete ev) = true.
Proof. apply filter_In. Qed.

(** The rows of the directory never save: only the row of the candidate
    has a [str] as its path. *)
Lemma old_rows_never_persist a cs q d l ev :
  (forall mi, In mi l -> exists p, filepath mi = PathObj p) ->
  In ev (fs_calls (loop_events a cs (Some q) d l)) ->
  is_persist ev = false.
Proof.
  intros Hold Hev. apply fs_calls_In in Hev as [Hev _].
  apply loop_events_In in Hev as (mi & d' & Hmi & Hev).
  destruct (is_persist ev) eqn:P; [|reflexivity].
  destruct (step_persist _ _ _ _ _ _ Hev P) as (_ & _ & q' & _ & Hf & _).
  destruct (Hold _ Hmi) as [p Hp]. congruence.
Qed.

(** ** What stays in the directory *)













(** A candidate whose score is [nan] is kept and comes last in the order
    of the loop: under the best-only policy too, its save follows the
    delete of the model at 0.75. *)
Lemma nan_candidate_is_saved_last :
  let a := cycle_args true "max" (Some (Float.NaN, dec (9 # 10), 3)) in
  run_calls a scenario
  = [Unlink "roads_01_unet_0.75000_0.74000_0.76000_3.hdf5";
     Save NewModel "roads_01_unet_nan_nan_0.90000_3.hdf5"].
Proof. vm_compute. reflexivity. Qed.

End Ordering.

(* ================================================================== *)
(** * The best-only policy saves first *)
(* ================================================================== *)

Module BestOnly.
Import MonadFacts Ranking Registry Sorting Loop Cycle Ordering.





End BestOnly.

(* ================================================================== *)
(** * What a cycle leaves in the directory *)
(* ================================================================== *)

Module Survivors.
Import MonadFacts Ranking Registry Sorting Loop Cycle.

Lemma discard_iff sbo df mi :
  keep_model sbo df mi = false
  <-> exists r, In r df /\ filepath r <> filepath mi
                /\ at_least_as_good sbo r mi.
Proof.
  unfold at_least_as_good. destruct sbo.
  - rewrite best_only_discard_iff. split; intros (r & Hin & Hf & H); exists r.
    + repeat split; auto. all: discriminate.
    + tauto.
  - rewrite pareto_discard_iff. split; intros (r & Hin & Hf & H); exists r.
    + tauto.
    + destruct H as [Hc H]. destruct (H eq_refl). tauto.
Qed.

Lemma at_least_as_good_scores sbo r r' mi mi' :
  same_scores r r' -> same_scores mi mi' ->
  at_least_as_good sbo r mi -> at_least_as_good sbo r' mi'.
Proof.
  unfold same_scores, at_least_as_good.
  intros (Ec & Et & Ev) (Fc & Ft & Fv) [Hc H].
  split; [exact (FloatFacts.same_ge _ _ _ _ Ec Fc Hc)|].
  intros S. destruct (H S) as [Ht Hv].
  split; [exact (FloatFacts.same_ge _ _ _ _ Et Ft Ht)
         | exact (FloatFacts.same_ge _ _ _ _ Ev Fv Hv)].
Qed.

(** ** Names and entries *)

Lemma exists_false d p e : exists_ d p = false -> In e d -> e_name e <> p.
Proof.
  intros H He E. assert (X : exists_ d p = true) by (apply exists_In; eauto).
  congruence.
Qed.

Lemma remove_In d p e : In e (remove d p) <-> In e d /\ e_name e <> p.
Proof.
  unfold remove. rewrite filter_In, negb_true_iff, String.eqb_neq. tauto.
Qed.

Lemma remove_NoDup d p :
  NoDup (map e_name d) -> NoDup (map e_name (remove d p)).
Proof.
  induction d as [|e d IH]; cbn [remove filter map]; [auto|].
  intros H. inversion H as [|? ? Hn Hd]; subst.
  destruct (negb _); [|now apply IH].
  cbn [map]. constructor; [|now apply IH].
  intros Hin. apply Hn. apply in_map_iff in Hin as (e' & E & He').
  apply remove_In in He' as [He' _]. apply in_map_iff. eauto.
Qed.

Lemma is_dir_NoDup d e :
  NoDup (map e_name d) -> In e d -> is_dir d (e_name e) = e_is_dir e.
Proof.
  induction d as [|x d IH]; [intros _ []|].
  cbn [map]. intros H Hin. inversion H as [|? ? Hn Hd]; subst.
  unfold is_dir. cbn [existsb]. fold (is_dir d (e_name e)).
  destruct Hin as [->|Hin].
  - rewrite String.eqb_refl. cbn [andb].
    destruct (e_is_dir e); [reflexivity|]. cbn [orb].
    destruct (is_dir d (e_name e)) eqn:D; [|reflexivity]. exfalso.
    unfold is_dir in D. apply existsb_exists in D as (y & Hy & E).
    apply andb_true_iff in E as [E _]. apply String.eqb_eq in E.
    apply Hn. apply in_map_iff. eauto.
  - rewrite (IH Hd Hin).
    destruct (String.eqb_spec (e_name x) (e_name e)) as [E|_];
      [|reflexivity].
    exfalso. apply Hn. rewrite E. now apply in_map.
Qed.

(** The decoder asks one thing of the directory: whether the path is a
    directory. *)
Lemma parse_model_filename_ext d d' p :
  is_dir d p = is_dir d' p ->
  parse_model_filename d p = parse_model_filename d' p.
Proof. unfold parse_model_filename. now intros ->. Qed.


Lemma remove_absent d p : exists_ d p = false -> remove d p = d.
Proof.
  intros H. unfold remove.
  induction d as [|e d IH]; cbn [filter]; [reflexivity|].
  unfold exists_ in H. cbn [existsb] in H.
  apply orb_false_iff in H as [He Hd].
  rewrite He. cbn [negb]. f_equal. now apply IH.
Qed.

(** ** What one iteration leaves in the directory *)

Lemma write_In d es e :
  In e (write d es) -> In e d \/ In e es.
Proof.
  unfold write. revert d. induction es as [|x es IH]; intros d H;
    cbn [fold_left] in H; [now left|].
  apply IH in H as [H|H]; [|right; now right].
  destruct (exists_ d (e_name x)); [now left|].
  apply in_app_or in H as [H|[<-|[]]]; [now left | right; now left].
Qed.

Lemma write_NoDup d es :
  NoDup (map e_name d) -> NoDup (map e_name (write d es)).
Proof.
  unfold write. revert d. induction es as [|x es IH]; intros d Hd;
    cbn [fold_left]; [exact Hd|].
  apply IH. destruct (exists_ d (e_name x)) eqn:X; [exact Hd|].
  rewrite map_app. cbn [map].
  apply NoDup_app; [exact Hd | repeat constructor; intros [] |].
  intros n Hn [<-|[]]. apply in_map_iff in Hn as (e & E & He).
  now apply (exists_false _ _ _ X He).
Qed.

Lemma step_dir_cases a df p d mi :
  Args.only_report a = false ->
  (keep_model (Args.save_best_only a) df mi = true
   /\ ((exists q, p = Some q /\ exists_ d q = false
                  /\ step_dir a df p d mi = write d (persisted a q)
                  /\ In (save_call a q) (step_events a df p d mi))
       \/ step_dir a df p d mi = d))
  \/ (keep_model (Args.save_best_only a) df mi = false
      /\ step_dir a df p d mi = remove d (cell_path (filepath mi))).
Proof.
  intros Hdry. unfold step_dir, step_events, loop_body. rewrite Hdry.
  destruct (keep_model _ df mi).
  - left. split; [reflexivity|].
    destruct p as [q|]; [|now right].
    cbn [negb andb].
    destruct (cell_eqb (filepath mi) (StrObj q)); [|now right].
    destruct (exists_ d q) eqn:X; [now right|].
    left. exists q. cbn [negb andb fst snd app].
    split; [reflexivity|]. split; [exact X|].
    split; [reflexivity|]. right. right. now left.
  - right. split; [reflexivity|].
    destruct (exists_ d (cell_path (filepath mi))) eqn:X.
    + destruct (Args.debug a); reflexivity.
    + rewrite (remove_absent _ _ X). destruct (Args.debug a); reflexivity.
Qed.

(** After the loop over [l], an entry of the directory is one the save
    of the candidate left, or an entry of the start at whose path every
    row of [l] was kept. *)
Lemma loop_dir_inv a df p l d :
  Args.only_report a = false ->
  NoDup (map e_name d) ->
  NoDup (map e_name (loop_dir a df p d l))
  /\ forall e, In e (loop_dir a df p d l) ->
       (exists q, p = Some q /\ In e (persisted a q)
                  /\ In (save_call a q) (loop_events a df p d l))
       \/ (In e d
           /\ forall mi, In mi l -> cell_path (filepath mi) = e_name e ->
                         keep_model (Args.save_best_only a) df mi = true).
Proof.
  intros Hdry. revert d. induction l as [|mi l IH]; intros d Hd;
    cbn [loop_dir loop_events].
  - split; [exact Hd|]. intros e He. right. split; [exact He | intros ? []].
  - destruct (step_dir_cases a df p d mi Hdry)
      as [[K [(q & Hp & Hq & Hs & Hev)|Hs]]|[K Hs]].
    + assert (Hd1 : NoDup (map e_name (step_dir a df p d mi)))
        by (rewrite Hs; now apply write_NoDup).
      destruct (IH _ Hd1) as [Hn Hall]. split; [exact Hn|].
      intros e He. destruct (Hall e He) as [(q' & Hp' & E & Hin)|[Hin Hk]].
      * left. exists q'. repeat split; auto. apply in_or_app. now right.
      * rewrite Hs in Hin. apply write_In in Hin as [Hin|Hin].
        -- right. split; [exact Hin|]. intros mi' [<-|Hmi'] Hpath; auto.
        -- left. exists q. repeat split; auto. apply in_or_app. now left.
    + rewrite Hs in *. destruct (IH _ Hd) as [Hn Hall]. split; [exact Hn|].
      intros e He. destruct (Hall e He) as [(q' & Hp' & E & Hin)|[Hin Hk]].
      * left. exists q'. repeat split; auto. apply in_or_app. now right.
      * right. split; [exact Hin|]. intros mi' [<-|Hmi'] Hpath; auto.
    + assert (Hd1 : NoDup (map e_name (step_dir a df p d mi)))
        by (rewrite Hs; now apply remove_NoDup).
      destruct (IH _ Hd1) as [Hn Hall]. split; [exact Hn|].
      intros e He. destruct (Hall e He) as [(q' & Hp' & E & Hin)|[Hin Hk]].
      * left. exists q'. repeat split; auto. apply in_or_app. now right.
      * rewrite Hs in Hin. apply remove_In in Hin as [Hin Hne].
        right. split; [exact Hin|].
        intros mi' [<-|Hmi'] Hpath; [congruence | auto].
Qed.

(** An entry the save of the candidate left and that the scan lists is
    the model itself, at the path of the candidate. *)
Lemma persisted_listed a q e suf :
  In e (persisted a q) -> Str.endswith (e_name e) suf = true ->
  In suf [".hdf5"; ".h5"; "_tf"] ->
  e_name e = q.
Proof.
  unfold persisted. intros He Hs Hsuf.
  destruct (StrFacts.checkpoint_files_unlisted q suf Hsuf) as (H1 & H2 & H3).
  destruct (Args.save_weights_only a && _).
  - destruct He as [<-|[<-|[<-|[]]]]; cbn [e_name file] in Hs; congruence.
  - destruct He as [<-|[]]. reflexivity.
Qed.

(** A loop without candidate over rows that are all kept touches no
    file. *)
Lemma idle_loop a df l d :
  (forall mi, In mi l -> keep_model (Args.save_best_only a) df mi = true) ->
  fs_calls (loop_events a df None d l) = [].
Proof.
  revert d. induction l as [|mi l IH]; intros d Hk; cbn [loop_events];
    [reflexivity|].
  assert (Hs : step_events a df None d mi = [Log (DebugKeep (filename mi))]
               /\ step_dir a df None d mi = d).
  { unfold step_events, step_dir, loop_body.
    rewrite (Hk mi (or_introl eq_refl)). split; reflexivity. }
  destruct Hs as [-> ->]. rewrite fs_calls_app.
  rewrite IH; [reflexivity|]. intros mi' Hmi'. apply Hk. now right.
Qed.

End Survivors.

(* ================================================================== *)
(** * A second cycle (C9) *)
(* ================================================================== *)

Module Idempotence.
Import MonadFacts Ranking Registry Sorting Loop Cycle Ordering Survivors.

Lemma with_new_model_inv a df p df' :
  with_new_model a df = Return (p, df') ->
  (p = None /\ df' = df)
  \/ exists N, candidate a = Some N /\ p = Some (filename N)
               /\ rows df' = (rows df ++ [N])%list.
Proof.
  intros H. destruct (candidate a) as [N|] eqn:C.
  - rewrite (with_new_model_candidate a N df C) in H.
    injection H as <- <-. right. exists N. auto.
  - destruct (with_new_model_none a df C) as [E|[e E]]; rewrite E in H.
    + injection H as <- <-. now left.
    + discriminate H.
Qed.

Lemma is_persist_save_call a q : is_persist (save_call a q) = true.
Proof.
  unfold save_call. destruct (Args.save_weights_only a); reflexivity.
Qed.

Lemma same_scores_refl r : same_scores r r.
Proof. repeat split; apply FloatFacts.same_refl. Qed.

(** Every row the second scan finds has, among the rows of the first
    cycle, a kept row at the same path with the same scores. *)
Lemma survivor_origin a a2 d df p df' df2 r2 :
  NoDup (map e_name d) ->
  Args.only_report a = false ->
  same_cycle a a2 ->
  (forall N r, candidate a = Some N ->
               In (save_call a (filename N)) (run_calls a d) ->
               outcome (parse_model_filename (run_dir a d) (filename N))
               = Return (Some r) ->
               same_scores r N) ->
  outcome (existing a d) = Return df ->
  with_new_model a df = Return (p, df') ->
  run_calls a d
  = fs_calls (loop_events a (rows df') p d (sort_values (rows df'))) ->
  run_dir a d = loop_dir a (rows df') p d (sort_values (rows df')) ->
  outcome (existing a2 (run_dir a d)) = Return df2 ->
  In r2 (rows df2) ->
  exists c, In c (rows df')
            /\ keep_model (Args.save_best_only a) (rows df') c = true
            /\ same_scores r2 c
            /\ cell_path (filepath c) = cell_path (filepath r2).
Proof.
  intros Hnd Hdry Hsame Hdec Hex Hw Hcalls Hdir Hex2 Hr2.
  destruct (existing_rows _ _ _ Hex) as (l & Hl & Hrows).
  destruct (existing_rows _ _ _ Hex2) as (l2 & Hl2 & Hrows2).
  destruct (proj1 (Hrows2 r2) Hr2) as [Hr2l Hid2].
  unfold scan in Hl, Hl2.
  destruct (proj1 (parse_all_In _ _ _ Hl2 r2) Hr2l) as (name & Hname & Hparse).
  pose proof (parse_model_filename_filepath _ _ _ Hparse) as Hfp.
  apply scan_paths_In in Hname as (e & suf & He & Hen & Hsuf & Hsufs).
  pose proof (sort_values_perm (rows df')) as Hperm.
  destruct (loop_dir_inv a (rows df') p (sort_values (rows df')) d Hdry Hnd)
    as [Hnd1 Hinv].
  rewrite <- Hdir in Hnd1, Hinv.
  destruct (Hinv e He) as [(q & Hp & Ee & Hsave)|[Hed Hkept]].
  - (* the entry is the candidate that was saved *)
    subst p.
    destruct (with_new_model_inv _ _ _ _ Hw) as [[Hnone _]|(N & HN & Hq & Hcs)];
      [discriminate Hnone|].
    injection Hq as ->.
    assert (Hname : name = filename N).
    { rewrite <- Hen. apply (persisted_listed a _ e suf Ee); [|exact Hsufs].
      now rewrite Hen. }
    rewrite Hname in Hparse, Hfp. clear Hname.
    pose proof Hsave as Hsaved.
    apply loop_events_In in Hsave as (mi & d' & Hmi & Hev).
    destruct (step_persist _ _ _ _ _ _ Hev (is_persist_save_call _ _))
      as (Hkeep & _ & q' & Hq' & Hmifp & _).
    injection Hq' as <-.
    assert (HmiN : mi = N).
    { apply (Permutation_in _ Hperm) in Hmi. rewrite Hcs in Hmi.
      apply in_app_or in Hmi as [Hmi|[<-|[]]]; [|reflexivity].
      destruct (existing_filepath _ _ _ _ Hex Hmi) as [x Hx]. congruence. }
    subst mi. exists N. split; [|split; [exact Hkeep|split]].
    + rewrite Hcs. apply in_or_app. right. now left.
    + apply (Hdec N r2 HN); [|exact Hparse].
      rewrite Hcalls. apply fs_calls_In. split.
      * exact Hsaved.
      * now rewrite is_persist_save_call.
    + rewrite Hmifp, Hfp. reflexivity.
  - (* the entry was there at the start, and its rows were kept *)
    assert (Hisdir : is_dir d name = is_dir (run_dir a d) name).
    { rewrite <- Hen, (is_dir_NoDup _ _ Hnd Hed), (is_dir_NoDup _ _ Hnd1 He).
      reflexivity. }
    rewrite <- (parse_model_filename_ext _ _ _ Hisdir) in Hparse.
    assert (Hr2in : In r2 l).
    { apply (parse_all_In _ _ _ Hl r2). exists name. split; [|exact Hparse].
      apply scan_paths_In. exists e, suf. auto. }
    assert (Hid : of_identity a r2 = true).
    { destruct Hsame as (E1 & E2 & E3 & E4 & _).
      unfold of_identity in *. now rewrite <- E1, <- E2, <- E3, <- E4. }
    assert (Hr2df : In r2 (rows df)) by (apply Hrows; auto).
    assert (Hr2cs : In r2 (rows df')).
    { destruct (with_new_model_inv _ _ _ _ Hw) as [[_ ->]|(N & _ & _ & ->)];
        [exact Hr2df | apply in_or_app; now left]. }
    exists r2. split; [exact Hr2cs|]. split; [|split].
    + apply Hkept.
      * now apply (Permutation_in _ (Permutation_sym Hperm)).
      * rewrite Hfp, Hen. reflexivity.
    + apply same_scores_refl.
    + reflexivity.
Qed.


(** After a first cycle that is not a dry run and that completed, a
    second cycle without candidate does nothing, when the name under which
    the first one saved its candidate decodes to the scores it ranked. *)
Lemma idle_after_faithful_name (a a2 : Args.t) (d : directory) :
  NoDup (map e_name d) ->
  Args.only_report a = false ->
  same_cycle a a2 ->
  Args.new_model a2 = false ->
  run_outcome a d = Return tt ->
  (forall N r, candidate a = Some N ->
               In (save_call a (filename N)) (run_calls a d) ->
               outcome (parse_model_filename (run_dir a d) (filename N))
               = Return (Some r) ->
               same_scores r N) ->
  run_calls a2 (run_dir a d) = [].
Proof.
  intros Hnd Hdry Hsame Hnew Hdone Hdec.
  destruct (run_cases a d)
    as [(_ & _ & e & He)|(df & p & df' & _ & Hex & Hw & _ & _ & Hcalls & Hdir)].
  { rewrite He in Hdone. discriminate Hdone. }
  destruct (run_cases a2 (run_dir a d))
    as [[H _]|(df2 & p2 & df2' & _ & Hex2 & Hw2 & _ & _ & Hcalls2 & _)];
    [exact H|].
  assert (Hp2 : p2 = None /\ df2' = df2).
  { unfold with_new_model in Hw2. rewrite Hnew in Hw2.
    injection Hw2 as <- <-. auto. }
  destruct Hp2 as [-> ->]. rewrite Hcalls2.
  apply idle_loop. intros mi Hmi.
  apply (Permutation_in _ (sort_values_perm _)) in Hmi.
  destruct (keep_model (Args.save_best_only a2) (rows df2) mi) eqn:K;
    [reflexivity|]. exfalso.
  apply discard_iff in K as (r' & Hr' & Hfp & Hgood).
  destruct (survivor_origin a a2 d df p df' df2 mi
              Hnd Hdry Hsame Hdec Hex Hw Hcalls Hdir Hex2 Hmi)
    as (c & Hc & Kc & Sc & Pc).
  destruct (survivor_origin a a2 d df p df' df2 r'
              Hnd Hdry Hsame Hdec Hex Hw Hcalls Hdir Hex2 Hr')
    as (c' & Hc' & Kc' & Sc' & Pc').
  assert (Hd : keep_model (Args.save_best_only a) (rows df') c = false).
  { apply discard_iff. exists c'. split; [exact Hc'|]. split.
    - intros E. apply Hfp.
      destruct (existing_filepath _ _ _ _ Hex2 Hmi) as [x Hx].
      destruct (existing_filepath _ _ _ _ Hex2 Hr') as [x' Hx'].
      rewrite Hx, Hx' in *. cbn [cell_path] in Pc, Pc'.
      rewrite <- Pc, <- Pc', E. reflexivity.
    - destruct Hsame as (_ & _ & _ & _ & <-).
      apply (at_least_as_good_scores _ r' c' mi c Sc' Sc Hgood). }
  congruence.
Qed.


(** Two cycles without candidate: the second one does nothing. *)
Lemma idle_after_cycle_without_candidate (a a2 : Args.t) (d : directory) :
  NoDup (map e_name d) ->
  Args.only_report a = false ->
  same_cycle a a2 ->
  candidate a = None ->
  Args.new_model a2 = false ->
  run_outcome a d = Return tt ->
  run_calls a2 (run_dir a d) = [].
Proof.
  intros Hnd Hdry Hsame Hnone Hnew Hdone.
  apply (idle_after_faithful_name a a2 d Hnd Hdry Hsame Hnew Hdone).
  intros N r HN. rewrite Hnone in HN. discriminate HN.
Qed.

(** C9, as amended.  After a first cycle that is not a dry run and that
    completed, a second cycle on the directory it left, with the same
    identity and policy and without candidate, saves nothing and deletes
    nothing - provided the first cycle had no candidate, or did not save
    it, or the name it was saved under decodes to the scores the candidate
    was ranked with (they have five decimals).  File names in the
    directory are distinct. *)
Theorem second_cycle_idle (a a2 : Args.t) (d : directory) :
  NoDup (map e_name d) ->
  Args.only_report a = false ->
  same_cycle a a2 ->
  Args.new_model a2 = false ->
  run_outcome a d = Return tt ->
  (forall N r, candidate a = Some N ->
               In (save_call a (filename N)) (run_calls a d) ->
               outcome (parse_model_filename (run_dir a d) (filename N))
               = Return (Some r) ->
               same_scores r N) ->
  run_calls a2 (run_dir a d) = [].
Proof. exact (idle_after_faithful_name a a2 d). Qed.

(** C9 as amended, on the scenario of the specification: the better
    candidate is saved, the two models are deleted, and the second cycle
    finds nothing to do. *)
Lemma second_cycle_idle_witness :
  run_calls (cycle_args true "max" None)
    (run_dir (cycle_args true "max" better_candidate) scenario) = [].
Proof.
  apply (second_cycle_idle (cycle_args true "max" better_candidate)
           (cycle_args true "max" None) scenario).
  - repeat constructor; simpl; intuition discriminate.
  - reflexivity.
  - repeat split; reflexivity.
  - reflexivity.
  - vm_compute. reflexivity.
  - intros N r HN _ Hp. injection HN as <-.
    vm_compute in Hp. injection Hp as <-.
    repeat split; left; vm_compute; reflexivity.
Defined.

(** C9, as stated, fails.  The first cycle keeps the model at 0.5 and
    saves the candidate, whose scores differ from 0.5 in the sixth decimal,
    under a name that spells 0.50000 three times; the second cycle, without
    candidate, decodes two rows with the same scores and deletes both
    files. *)
Lemma second_cycle_deletes_after_rounding :
  let a := cycle_args false "max" near_half in
  let a2 := cycle_args false "max" None in
  NoDup (map e_name half)
  /\ Args.only_report a = false /\ Args.only_report a2 = false
  /\ same_cycle a a2 /\ Args.new_model a2 = false
  /\ run_outcome a half = Return tt
  /\ run_calls a half
     = [Save NewModel "roads_01_unet_0.50000_0.50000_0.50000_5.hdf5"]
  /\ run_calls a2 (run_dir a half)
     = [Unlink "roads_01_unet_0.50000_0.50000_0.50000_4.hdf5";
        Unlink "roads_01_unet_0.50000_0.50000_0.50000_5.hdf5"]
  /\ run_calls a2 (run_dir a half) <> []
  /\ run_dir a2 (run_dir a half) = [].
Proof.
  cbv zeta. split.
  { repeat constructor; simpl; intuition discriminate. }
  split; [reflexivity|]. split; [reflexivity|].
  split; [repeat split; reflexivity|]. split; [reflexivity|].
  split; [vm_compute; reflexivity|].
  split; [vm_compute; reflexivity|].
  split; [vm_compute; reflexivity|].
  split; [vm_compute; discriminate | vm_compute; reflexivity].
Qed.

End Idempotence.
(* ================================================================== *)
(** * The two retention policies *)
(* ================================================================== *)

Module Policy.
Import Ranking Survivors Idempotence.

(** X13.  What the best-only policy keeps, the pareto policy keeps too. *)
Lemma pareto_keeps_what_best_only_keeps df r :
  keep_model true df r = true -> keep_model false df r = true.
Proof.
  intros H. destruct (keep_model false df r) eqn:K; [reflexivity|].
  apply pareto_discard_iff in K as (r' & Hin & Hf & Hc & _).
  assert (D : keep_model true df r = false)
    by (apply best_only_discard_iff; eauto).
  congruence.
Qed.

Lemma pareto_keeps_what_best_only_keeps_witness :
  keep_model false [model_a; model_b] model_a = true.
Proof.
  apply (pareto_keeps_what_best_only_keeps [model_a; model_b] model_a).
  reflexivity.
Defined.

(** X14.  Of two rows of the frame with different filepaths whose
    [acc_combined] are numbers, the best-only policy discards one at
    least. *)
Lemma best_only_keeps_one df r1 r2 :
  In r1 df -> In r2 df -> filepath r1 <> filepath r2 ->
  Float.is_nan (acc_combined r1) = false ->
  Float.is_nan (acc_combined r2) = false ->
  keep_model true df r1 = false \/ keep_model true df r2 = false.
Proof.
  intros H1 H2 E N1 N2.
  destruct (FloatFacts.ge_total _ _ N1 N2) as [Hge|Hge].
  - right. apply best_only_discard_iff. exists r1. auto.
  - left. apply best_only_discard_iff. exists r2. auto.
Qed.

Lemma best_only_keeps_one_witness :
  keep_model true [model_a; model_b] model_a = false
  \/ keep_model true [model_a; model_b] model_b = false.
Proof.
  apply (best_only_keeps_one [model_a; model_b] model_a model_b).
  - left; reflexivity.
  - right; left; reflexivity.
  - discriminate.
  - reflexivity.
  - reflexivity.
Defined.

(** ** Without ties a row is kept *)

(** A row that every row it is dominated by is dominated by too, for a
    transitive way [R] of being at least as good. *)
Lemma maximal_row (R : ModelInfo -> ModelInfo -> bool) (l : list ModelInfo) :
  (forall x y z, R x y = true -> R y z = true -> R x z = true) ->
  l <> [] ->
  exists r, In r l /\ forall r', In r' l -> R r' r = true -> R r r' = true.
Proof.
  intros Htr. induction l as [|x l IH]; [congruence|]. intros _.
  destruct l as [|y l].
  - exists x. split; [now left|]. intros r' [<-|[]] H. exact H.
  - destruct IH as (m & Hm & Hmax); [discriminate|].
    destruct (R x m && negb (R m x)) eqn:E.
    + apply andb_true_iff in E as [Hxm Hmx].
      exists x. split; [now left|]. intros r' [<-|Hr'] H; [exact H|].
      apply Htr with m; [exact Hxm|].
      apply Hmax; [exact Hr'|]. now apply Htr with x.
    + exists m. split; [now right|]. intros r' [<-|Hr'] H; [|now apply Hmax].
      rewrite H in E. cbn [andb] in E. now apply negb_false_iff in E.
Qed.

Lemma tie_free_keeps sbo df :
  df <> [] -> no_ties sbo df ->
  exists r, In r df /\ keep_model sbo df r = true.
Proof.
  intros Hne Hnt. destruct sbo.
  - destruct (maximal_row
                (fun r' r => Float.ge (acc_combined r') (acc_combined r)) df)
      as (r & Hr & Hmax); [|exact Hne|].
    { intros x y z. apply FloatFacts.ge_trans. }
    exists r. split; [exact Hr|].
    destruct (keep_model true df r) eqn:K; [reflexivity|]. exfalso.
    apply best_only_discard_iff in K as (r' & Hr' & Hf & Hc).
    apply (Hnt r r' Hr Hr'); [congruence|].
    cbn [tie]. apply FloatFacts.ge_antisym; [now apply Hmax | exact Hc].
  - destruct (maximal_row
                (fun r' r => Float.ge (acc_combined r') (acc_combined r)
                             && Float.ge (acc_train r') (acc_train r)
                             && Float.ge (acc_val r') (acc_val r)) df)
      as (r & Hr & Hmax); [|exact Hne|].
    { intros x y z H1 H2.
      apply andb_true_iff in H1 as [H1 V1]. apply andb_true_iff in H1 as [C1 T1].
      apply andb_true_iff in H2 as [H2 V2]. apply andb_true_iff in H2 as [C2 T2].
      rewrite (FloatFacts.ge_trans _ _ _ C1 C2),
        (FloatFacts.ge_trans _ _ _ T1 T2), (FloatFacts.ge_trans _ _ _ V1 V2).
      reflexivity. }
    exists r. split; [exact Hr|].
    destruct (keep_model false df r) eqn:K; [reflexivity|]. exfalso.
    apply pareto_discard_iff in K as (r' & Hr' & Hf & Hc & Ht & Hv).
    apply (Hnt r r' Hr Hr'); [congruence|].
    assert (H : Float.ge (acc_combined r) (acc_combined r')
                && Float.ge (acc_train r) (acc_train r')
                && Float.ge (acc_val r) (acc_val r') = true).
    { apply Hmax; [exact Hr'|]. now rewrite Hc, Ht, Hv. }
    apply andb_true_iff in H as [H V]. apply andb_true_iff in H as [C T].
    cbn [tie]. repeat split; now apply FloatFacts.ge_antisym.
Qed.

(** X15.  In a frame that is not empty and has no ties, the policy keeps a
    row: one that is at least as good as every row that is at least as good
    as it. *)
Theorem no_ties_keeps_a_row sbo df :
  df <> [] -> no_ties sbo df ->
  exists r, In r df /\ keep_model sbo df r = true.
Proof. exact (tie_free_keeps sbo df). Qed.

Lemma no_ties_keeps_a_row_witness :
  exists r, In r [model_a; model_b]
            /\ keep_model true [model_a; model_b] r = true.
Proof.
  apply (no_ties_keeps_a_row true [model_a; model_b]); [discriminate|].
  intros r r' [<-|[<-|[]]] [<-|[<-|[]]] Hf; try congruence;
    cbn [tie]; intros E; vm_compute in E; discriminate E.
Defined.

End Policy.

(* ================================================================== *)
(** * What a retention cycle does to the directory *)
(* ================================================================== *)

Module RunFacts.
Import MonadFacts Ranking Registry Sorting Loop Cycle Ordering Survivors
  Idempotence Policy.

(** The run in full, once it reaches the loop. *)
Lemma run_reaches_loop a d df p df' :
  valid_args a = true ->
  outcome (existing a d) = Return df ->
  with_new_model a df = Return (p, df') ->
  has_columns df' = true ->
  candidate_set a d = rows df'
  /\ run_dir a d = loop_dir a (rows df') p d (sort_values (rows df'))
  /\ run_calls a d
     = fs_calls (loop_events a (rows df') p d (sort_values (rows df')))
  /\ run_outcome a d = outcome (report_best a (run_dir a d)).
Proof.
  intros Hv Hex Hw Hc.
  unfold run_calls, run_dir, run_outcome, candidate_set,
    save_and_clean_models.
  unfold valid_args in Hv. apply andb_true_iff in Hv as [-> ->].
  cbn [negb]. rewrite Hex, Hw. unfold existing in Hex.
  pose proof (quiet_get_models d (Some (Args.segment_subject a))
                (Some (Args.model_architecture a))
                (Some (Args.traindata_version a))
                (Some (Args.hyperparams_version a))) as Hq.
  destruct (get_models d _ _ _ _) as [tr0 [f|e0]];
    cbn [outcome snd] in Hex; [|discriminate Hex].
  injection Hex as ->. rewrite Hw, Hc. cbn [negb].
  rewrite fold_loop.
  pose proof (quiet_report_best a
                (loop_dir a (rows df') p d (sort_values (rows df')))) as Hr.
  destruct (report_best a _) as [tr2 r] eqn:Hrep.
  unfold quiet in Hq, Hr. cbn [trace_of outcome fst snd] in *.
  repeat split.
  - rewrite !fs_calls_app, Hq, Hr. now rewrite List.app_nil_r.
  - now rewrite Hrep.
Qed.

Lemma dry_step a df p d mi :
  Args.only_report a = true ->
  step_dir a df p d mi = d /\ fs_calls (step_events a df p d mi) = [].
Proof.
  intros Hdry. unfold step_dir, step_events, loop_body. rewrite Hdry.
  destruct (keep_model _ df mi).
  - destruct p; split; reflexivity.
  - destruct (Args.debug a); cbn [fst snd]; (split; [reflexivity|]).
    + rewrite fs_calls_app. cbn [app fs_calls filter is_persist is_delete orb].
      induction (better_ones _ _ _) as [|r l IH]; [reflexivity|exact IH].
    + reflexivity.
Qed.

Lemma dry_loop a df p l d :
  Args.only_report a = true ->
  loop_dir a df p d l = d /\ fs_calls (loop_events a df p d l) = [].
Proof.
  intros Hdry. induction l as [|mi l [IHd IHe]];
    cbn [loop_dir loop_events]; [split; reflexivity|].
  destruct (dry_step a df p d mi Hdry) as [-> He].
  split; [exact IHd|]. now rewrite fs_calls_app, He, IHe.
Qed.

(** X1.  A dry run ([only_report]) leaves the directory as it is and makes no
    file system call, whatever the directory and the candidate. *)
Theorem dry_run_touches_nothing a d :
  Args.only_report a = true -> run_dir a d = d /\ run_calls a d = [].
Proof.
  intros Hdry.
  destruct (run_cases a d)
    as [(Hc & Hd & _)|(df & p & df' & _ & _ & _ & _ & _ & Hc & Hd)];
    [now split|].
  rewrite Hc, Hd. now apply dry_loop.
Qed.

Lemma dry_run_touches_nothing_witness :
  let a := {| Args.segment_subject := "roads"; Args.traindata_version := 1;
              Args.model_architecture := "unet";
              Args.hyperparams_version := 0;
              Args.monitor_metric_mode := "max"; Args.new_model := true;
              Args.new_model_monitor_train := Some (dec (9 # 10));
              Args.new_model_monitor_val := Some (dec (92 # 100));
              Args.new_model_epoch := Some 6; Args.save_format := "h5";
              Args.save_best_only := true; Args.save_weights_only := false;
              Args.model_template_for_save := false;
              Args.verbose := true; Args.debug := true;
              Args.only_report := true |} in
  run_dir a scenario = scenario /\ run_calls a scenario = [].
Proof.
  intros a. apply (dry_run_touches_nothing a scenario). reflexivity.
Defined.

(** X5.  Every file a run deletes is the file of a row it classified and
    discarded: one that another row of the same identity makes useless. *)
Theorem deletes_only_discarded a d ev :
  In ev (run_calls a d) -> is_delete ev = true ->
  exists mi,
    In mi (candidate_set a d)
    /\ keep_model (Args.save_best_only a) (candidate_set a d) mi = false
    /\ deleted_path ev = Some (cell_path (filepath mi))
    /\ Args.only_report a = false.
Proof.
  intros Hev Hdel.
  destruct (run_cases a d)
    as [(Hc & _)|(df & p & df' & _ & _ & _ & _ & Hset & Hc & _)];
    [rewrite Hc in Hev; destruct Hev|].
  rewrite Hc in Hev. apply fs_calls_In in Hev as [Hev _].
  apply loop_events_In in Hev as (mi & d' & Hmi & Hev).
  destruct (step_delete _ _ _ _ _ _ Hev Hdel) as (K & Hdry & _ & Hp).
  exists mi. rewrite Hset. repeat split; auto.
  apply (Permutation_in _ (sort_values_perm (rows df'))). exact Hmi.
Qed.

Lemma deletes_only_discarded_witness :
  exists mi,
    In mi (candidate_set (cycle_args false "max" better_candidate) scenario)
    /\ keep_model (Args.save_best_only (cycle_args false "max" better_candidate))
         (candidate_set (cycle_args false "max" better_candidate) scenario) mi
       = false
    /\ deleted_path (Unlink "roads_01_unet_0.75000_0.74000_0.76000_3.hdf5")
       = Some (cell_path (filepath mi))
    /\ Args.only_report (cycle_args false "max" better_candidate) = false.
Proof.
  apply (deletes_only_discarded (cycle_args false "max" better_candidate)
           scenario (Unlink "roads_01_unet_0.75000_0.74000_0.76000_3.hdf5"));
    [vm_compute; tauto | reflexivity].
Defined.


Lemma filter_nil (f : event -> bool) (l : list event) :
  (forall x, In x l -> f x = false) -> filter f l = [].
Proof.
  induction l as [|x l IH]; intros H; [reflexivity|].
  cbn [filter]. rewrite (H x (or_introl eq_refl)).
  apply IH. intros y Hy. apply H. now right.
Qed.

Lemma loop_dir_app a df p d l1 l2 :
  loop_dir a df p d (l1 ++ l2)
  = loop_dir a df p (loop_dir a df p d l1) l2.
Proof.
  revert d. induction l1 as [|mi l1 IH]; intros d; [reflexivity|].
  cbn [app loop_dir]. apply IH.
Qed.

(** In a loop over the existing rows and the candidate, the only save is
    the one of the candidate. *)
Lemma loop_persist_candidate a old N cs d l ev :
  (forall mi, In mi old -> exists p, filepath mi = PathObj p) ->
  (forall mi, In mi l -> In mi (old ++ [N])%list) ->
  In ev (loop_events a cs (Some (filename N)) d l) -> is_persist ev = true ->
  ev = save_call a (filename N)
  /\ keep_model (Args.save_best_only a) cs N = true
  /\ Args.only_report a = false.
Proof.
  intros Hold Hl Hev Hp.
  apply loop_events_In in Hev as (mi & d' & Hmi & Hev).
  destruct (step_persist _ _ _ _ _ _ Hev Hp)
    as (K & Hdry & q & Hq & Hf & _ & E & _).
  injection Hq as <-.
  apply Hl, in_app_or in Hmi as [Hmi|[<-|[]]].
  - destruct (Hold _ Hmi) as [p' Hp']. congruence.
  - auto.
Qed.

Lemma no_columns_no_rows d seg arch tv hv df :
  outcome (get_models d seg arch tv hv) = Return df ->
  has_columns df = false -> rows df = [].
Proof.
  rewrite get_models_outcome.
  destruct (outcome (scan d)) as [[|r l]|e]; intros H; inversion H; subst;
    cbn; [reflexivity | discriminate].
Qed.

(** A run with valid arguments either stops before the loop, with no row
    classified, or goes through the loop. *)
Lemma run_structure a d :
  valid_args a = true ->
  (run_calls a d = [] /\ run_dir a d = d /\ candidate_set a d = [])
  \/ exists df p df',
       outcome (existing a d) = Return df
       /\ with_new_model a df = Return (p, df')
       /\ has_columns df' = true.
Proof.
  intros Hv.
  assert (Hstop : (forall df p df',
                      outcome (existing a d) = Return df ->
                      with_new_model a df = Return (p, df') ->
                      has_columns df' = true -> False) ->
                  run_calls a d = [] /\ run_dir a d = d).
  { intros Hno. destruct (run_cases a d)
      as [(Hc & Hd & _)|(df & p & df' & _ & Hex & Hw & Hc & _)];
      [now split | destruct (Hno _ _ _ Hex Hw Hc)]. }
  destruct (outcome (existing a d)) as [df|e] eqn:Hex.
  - destruct (with_new_model a df) as [[p df']|e] eqn:Hw.
    + destruct (has_columns df') eqn:Hc.
      * right. exists df, p, df'. auto.
      * left.
        destruct Hstop as [H1 H2].
        { intros df2 p2 df2' E Hw2 Hc2. injection E as <-.
          rewrite Hw in Hw2. injection Hw2 as <- <-. congruence. }
        repeat split; auto.
        unfold candidate_set. rewrite Hex, Hw.
        unfold with_new_model in Hw.
        destruct (Args.new_model a).
        -- destruct (Args.new_model_monitor_train a),
             (Args.new_model_monitor_val a), (Args.new_model_epoch a);
             try discriminate Hw.
           injection Hw as <- <-. discriminate Hc.
        -- injection Hw as <- <-.
           exact (no_columns_no_rows _ _ _ _ _ _ Hex Hc).
    + left. destruct Hstop as [H1 H2].
      { intros df2 p2 df2' E Hw2 _. injection E as <-. congruence. }
      repeat split; auto. unfold candidate_set. now rewrite Hex, Hw.
  - left. destruct Hstop as [H1 H2].
    { intros df2 p2 df2' E _ _. discriminate E. }
    repeat split; auto. unfold candidate_set. now rewrite Hex.
Qed.

(** X6.  A run saves the candidate, if anything, and at most once. *)
Theorem saves_only_the_candidate_once a d :
  (forall ev, In ev (run_calls a d) -> is_persist ev = true ->
     exists N, candidate a = Some N /\ ev = save_call a (filename N)
               /\ In N (candidate_set a d)
               /\ keep_model (Args.save_best_only a) (candidate_set a d) N
                  = true
               /\ Args.only_report a = false)
  /\ (List.length (filter is_persist (run_calls a d)) <= 1)%nat.
Proof.
  destruct (run_cases a d)
    as [(Hc & _)|(df & p & df' & _ & Hex & Hw & _ & Hset & Hc & _)].
  { rewrite Hc. split; [intros ev []|]. cbn. lia. }
  rewrite Hc, Hset.
  destruct (with_new_model_inv _ _ _ _ Hw) as [[-> ->]|(N & HN & -> & Hrows)].
  - assert (Hno : forall ev,
               In ev (fs_calls (loop_events a (rows df) None d
                                  (sort_values (rows df)))) ->
               is_persist ev = false).
    { intros ev Hev. apply fs_calls_In in Hev as [Hev _].
      apply loop_events_In in Hev as (mi & d' & _ & Hev).
      destruct (is_persist ev) eqn:P; [|reflexivity].
      destruct (step_persist _ _ _ _ _ _ Hev P) as (_ & _ & q & Hq & _).
      discriminate Hq. }
    split.
    + intros ev Hev P. rewrite (Hno ev Hev) in P. discriminate P.
    + rewrite (filter_nil _ _ Hno). cbn. lia.
  - assert (Hold : forall mi, In mi (rows df) ->
                              exists p, filepath mi = PathObj p)
      by (intros mi Hmi; exact (existing_filepath _ _ _ _ Hex Hmi)).
    assert (Hperm := sort_values_perm (rows df')).
    split.
    + intros ev Hev P. apply fs_calls_In in Hev as [Hev _].
      destruct (loop_persist_candidate a (rows df) N (rows df') d
                  (sort_values (rows df')) ev Hold) as (E & K & Hdry); auto.
      { intros mi Hmi. rewrite <- Hrows.
        exact (Permutation_in _ Hperm Hmi). }
      exists N. repeat split; auto. rewrite Hrows. apply in_or_app.
      right. now left.
    + assert (HinN : In N (sort_values (rows df'))).
      { apply (Permutation_in _ (Permutation_sym Hperm)). rewrite Hrows.
        apply in_or_app. right. now left. }
      apply in_split in HinN as (l1 & l2 & Hsplit).
      rewrite Hsplit in Hperm |- *. rewrite Hrows in Hperm.
      apply Permutation_app_inv in Hperm. rewrite List.app_nil_r in Hperm.
      rewrite loop_events_app. cbn [loop_events].
      rewrite !fs_calls_app, !filter_app, !length_app.
      assert (H1 : forall d0 l, (forall mi, In mi l -> In mi (l1 ++ l2)%list) ->
                 filter is_persist
                   (fs_calls (loop_events a (rows df') (Some (filename N))
                                d0 l)) = []).
      { intros d0 l Hl. apply filter_nil. intros ev Hev.
        apply (old_rows_never_persist a (rows df') (filename N) d0 l);
          [|exact Hev].
        intros mi Hmi. apply Hold.
        exact (Permutation_in _ Hperm (Hl _ Hmi)). }
      rewrite (H1 d l1), (H1 _ l2);
        try (intros mi Hmi; apply in_or_app; auto).
      cbn [List.length]. rewrite Nat.add_0_r.
      destruct (filter is_persist (fs_calls (step_events _ _ _ _ N)))
        as [|ev rest] eqn:F; [cbn; lia|].
      assert (Hev : In ev (filter is_persist
                             (fs_calls (step_events a (rows df')
                                (Some (filename N))
                                (loop_dir a (rows df') (Some (filename N)) d l1)
                                N))))
        by (rewrite F; now left).
      apply filter_In in Hev as [Hev P].
      apply fs_calls_In in Hev as [Hev _].
      destruct (step_persist _ _ _ _ _ _ Hev P)
        as (_ & _ & q & _ & _ & _ & _ & Hone).
      rewrite Hone in F. cbn [filter] in F. rewrite P in F.
      injection F as <-. cbn. lia.
Qed.


Lemma write_keeps d es e : In e d -> In e (write d es).
Proof.
  unfold write. revert d. induction es as [|x es IH]; intros d H;
    cbn [fold_left]; [exact H|].
  apply IH. destruct (exists_ d (e_name x)); [exact H|].
  apply in_or_app. now left.
Qed.

(** An entry that is written is there afterwards, when no other entry
    has its name. *)
Lemma write_adds d es e :
  In e es ->
  (forall e', In e' d \/ In e' es -> e_name e' = e_name e -> e' = e) ->
  In e (write d es).
Proof.
  unfold write. revert d. induction es as [|x es IH]; intros d He Hu;
    [destruct He|].
  cbn [fold_left]. fold (write (if exists_ d (e_name x) then d
                                else (d ++ [x])%list) es).
  destruct He as [->|He].
  - apply write_keeps. destruct (exists_ d (e_name e)) eqn:X.
    + apply exists_In in X as (e' & He' & Hn).
      rewrite <- (Hu e' (or_introl He') Hn). exact He'.
    + apply in_or_app. right. now left.
  - apply IH; [exact He|]. intros e' [He'|He'] Hn.
    + apply Hu; [|exact Hn].
      destruct (exists_ d (e_name x)); [now left|].
      apply in_app_or in He' as [He'|[<-|[]]]; [now left | right; now left].
    + apply Hu; [right; now right | exact Hn].
Qed.

Lemma persisted_same_name a q e e' :
  In e (persisted a q) -> In e' (persisted a q) ->
  e_name e' = e_name e -> e' = e.
Proof.
  unfold persisted. destruct (Args.save_weights_only a && _).
  - intros He He' Hn.
    assert (Hf : forall x, In x [file (q ++ ".index");
                                 file (q ++ ".data-00000-of-00001");
                                 file "checkpoint"] -> x = file (e_name x)).
    { intros x [<-|[<-|[<-|[]]]]; reflexivity. }
    rewrite (Hf e He), (Hf e' He'), Hn. reflexivity.
  - intros [<-|[]] [<-|[]] _. reflexivity.
Qed.

(** An entry stays when every row at its path is kept. *)
Lemma keep_stays a df p l d e :
  In e d ->
  (forall mi, In mi l -> cell_path (filepath mi) = e_name e ->
              keep_model (Args.save_best_only a) df mi = true) ->
  In e (loop_dir a df p d l).
Proof.
  destruct (Args.only_report a) eqn:Hdry.
  - intros He _. now rewrite (proj1 (dry_loop a df p l d Hdry)).
  - revert d. induction l as [|mi l IH]; intros d He Hk; cbn [loop_dir];
      [exact He|].
    apply IH; [|intros mi' Hmi'; apply Hk; now right].
    destruct (step_dir_cases a df p d mi Hdry)
      as [[K [(q & _ & _ & Hs & _)|Hs]]|[K Hs]]; rewrite Hs.
    + now apply write_keeps.
    + exact He.
    + apply remove_In. split; [exact He|]. intros E.
      rewrite (Hk mi (or_introl eq_refl) (eq_sym E)) in K. discriminate K.
Qed.

(** A loop over existing rows adds nothing to the directory. *)
Lemma old_rows_add_nothing a cs q l d e :
  Args.only_report a = false ->
  (forall mi, In mi l -> exists p, filepath mi = PathObj p) ->
  In e (loop_dir a cs (Some q) d l) -> In e d.
Proof.
  intros Hdry. revert d. induction l as [|mi l IH]; intros d Hold He;
    cbn [loop_dir] in He; [exact He|].
  assert (Hold' : forall mi', In mi' l -> exists p, filepath mi' = PathObj p)
    by (intros mi' Hmi'; apply Hold; now right).
  specialize (IH _ Hold' He).
  destruct (step_dir_cases a cs (Some q) d mi Hdry)
    as [[K [(q' & _ & _ & _ & Hev)|Hs]]|[K Hs]].
  - destruct (step_persist _ _ _ _ _ _ Hev (is_persist_save_call a q'))
      as (_ & _ & q2 & _ & Hf & _).
    destruct (Hold mi (or_introl eq_refl)) as [p' Hp']. congruence.
  - now rewrite Hs in IH.
  - rewrite Hs in IH. now apply remove_In in IH.
Qed.

(** The path of a row of the directory matches a pattern of the scan. *)
Lemma existing_listed a d df r :
  outcome (existing a d) = Return df -> In r (rows df) ->
  exists suf, Str.endswith (cell_path (filepath r)) suf = true
              /\ In suf [".hdf5"; ".h5"; "_tf"].
Proof.
  intros Hex Hr.
  destruct (existing_rows _ _ _ Hex) as (l & Hscan & Hiff).
  destruct (proj1 (Hiff r) Hr) as [Hl _].
  unfold scan in Hscan.
  destruct (proj1 (parse_all_In _ _ _ Hscan r) Hl) as (p & Hp & Hparse).
  rewrite (parse_model_filename_filepath _ _ _ Hparse). cbn [cell_path].
  apply scan_paths_In in Hp as (e & suf & _ & _ & Hs & Hsuf). eauto.
Qed.

(** No row of the directory is at the path of a file the save of a
    candidate whose name is free writes. *)
Lemma persisted_not_a_row a d df N r e :
  outcome (existing a d) = Return df -> In r (rows df) ->
  exists_ d (filename N) = false ->
  In e (persisted a (filename N)) ->
  cell_path (filepath r) <> e_name e.
Proof.
  intros Hex Hr Hfree He E.
  destruct (existing_listed _ _ _ _ Hex Hr) as (suf & Hs & Hsuf).
  destruct (existing_on_disk _ _ _ _ Hex Hr) as (p & Hp & X & _).
  rewrite E in Hs. rewrite Hp in E. cbn [cell_path] in E.
  rewrite (persisted_listed a _ e suf He Hs Hsuf) in E. congruence.
Qed.

(** What the save of a candidate that is kept, and whose file name is
    free, writes is on disk after the loop. *)
Lemma candidate_persisted a d df N e :
  Args.only_report a = false ->
  outcome (existing a d) = Return df ->
  candidate a = Some N ->
  exists_ d (filename N) = false ->
  (forall e', In e' d -> e_name e' = e_name e -> e' = e) ->
  keep_model (Args.save_best_only a) (rows df ++ [N]) N = true ->
  In e (persisted a (filename N)) ->
  In e (loop_dir a (rows df ++ [N]) (Some (filename N)) d
          (sort_values (rows df ++ [N]))).
Proof.
  intros Hdry Hex HN Hfree Hu K He.
  assert (Hold : forall mi, In mi (rows df) ->
                            exists p, filepath mi = PathObj p)
    by (intros mi Hmi; exact (existing_filepath _ _ _ _ Hex Hmi)).
  assert (Hperm := sort_values_perm (rows df ++ [N])).
  assert (HinN : In N (sort_values (rows df ++ [N]))).
  { apply (Permutation_in _ (Permutation_sym Hperm)).
    apply in_or_app. right. now left. }
  apply in_split in HinN as (l1 & l2 & Hsplit).
  rewrite Hsplit in Hperm |- *.
  apply Permutation_app_inv in Hperm. rewrite List.app_nil_r in Hperm.
  assert (Hold12 : forall mi, In mi (l1 ++ l2)%list ->
                              exists p, filepath mi = PathObj p)
    by (intros mi Hmi; apply Hold; exact (Permutation_in _ Hperm Hmi)).
  rewrite loop_dir_app. cbn [loop_dir].
  set (d1 := loop_dir a (rows df ++ [N]) (Some (filename N)) d l1).
  assert (Hd1 : forall e', In e' d1 -> In e' d).
  { intros e' He'.
    apply (old_rows_add_nothing a (rows df ++ [N])%list (filename N) l1 d e'
             Hdry); [|exact He'].
    intros mi Hmi. apply Hold12, in_or_app. now left. }
  assert (Hfree1 : exists_ d1 (filename N) = false).
  { destruct (exists_ d1 (filename N)) eqn:X; [|reflexivity].
    apply exists_In in X as (e' & He' & Hn). apply Hd1 in He'.
    assert (X : exists_ d (filename N) = true) by (apply exists_In; eauto).
    congruence. }
  assert (Hstep : step_dir a (rows df ++ [N]) (Some (filename N)) d1 N
                  = write d1 (persisted a (filename N))).
  { unfold step_dir, loop_body. rewrite K, Hdry, Hfree1.
    rewrite (candidate_filepath a N HN) at 1.
    assert (C : cell_eqb (StrObj (filename N)) (StrObj (filename N)) = true)
      by (now apply cell_eqb_eq).
    rewrite C. reflexivity. }
  rewrite Hstep. apply keep_stays.
  - apply write_adds; [exact He|]. intros e' [He'|He'] Hn.
    + apply Hu; [now apply Hd1 | exact Hn].
    + now apply (persisted_same_name a (filename N)).
  - intros mi Hmi Hpath. exfalso.
    assert (Hmi' : In mi (rows df)).
    { apply (Permutation_in _ Hperm), in_or_app. now right. }
    exact (persisted_not_a_row a d df N mi e Hex Hmi' Hfree He Hpath).
Qed.

Lemma survivors a d :
  NoDup (map e_name d) ->
  valid_args a = true ->
  Args.only_report a = false ->
  (forall N, candidate a = Some N ->
     exists_ d (filename N) = false
     /\ forall e e', In e (persisted a (filename N)) -> In e' d ->
                     e_name e' = e_name e -> e' = e) ->
  forall e,
    In e (run_dir a d)
    <-> (In e d
         /\ forall mi, In mi (candidate_set a d) ->
                       cell_path (filepath mi) = e_name e ->
                       keep_model (Args.save_best_only a)
                         (candidate_set a d) mi = true)
        \/ (exists N,
              candidate a = Some N /\ In N (candidate_set a d)
              /\ keep_model (Args.save_best_only a) (candidate_set a d) N
                 = true
              /\ In e (persisted a (filename N))).
Proof.
  intros Hnd Hval Hdry Hfree e.
  destruct (run_structure a d Hval)
    as [(_ & Hd & Hset)|(df & p & df' & Hex & Hw & Hc)].
  { rewrite Hd, Hset. split.
    - intros He. left. split; [exact He | intros mi []].
    - intros [[He _]|(N & _ & [] & _)]. exact He. }
  destruct (run_reaches_loop a d df p df' Hval Hex Hw Hc)
    as (Hset & Hd & _ & _).
  rewrite Hd, Hset.
  assert (Hperm := sort_values_perm (rows df')).
  split.
  - intros He.
    destruct (proj2 (loop_dir_inv a (rows df') p (sort_values (rows df')) d
                       Hdry Hnd) e He)
      as [(q & Hp & E & Hev)|[Hin Hk]].
    + right.
      destruct (with_new_model_inv _ _ _ _ Hw)
        as [[-> _]|(N & HN & Hp' & Hrows)]; [discriminate Hp|].
      rewrite Hp' in Hp. injection Hp as <-. rewrite Hp' in Hev.
      destruct (loop_persist_candidate a (rows df) N (rows df') d
                  (sort_values (rows df')) (save_call a (filename N)))
        as (_ & K & _); auto.
      * intros mi Hmi. exact (existing_filepath _ _ _ _ Hex Hmi).
      * intros mi Hmi. rewrite <- Hrows. exact (Permutation_in _ Hperm Hmi).
      * apply is_persist_save_call.
      * exists N. repeat split; auto. rewrite Hrows. apply in_or_app.
        right. now left.
    + left. split; [exact Hin|]. intros mi Hmi. apply Hk.
      exact (Permutation_in _ (Permutation_sym Hperm) Hmi).
  - intros [[He Hk]|(N & HN & Hin & K & He)].
    + apply keep_stays; [exact He|]. intros mi Hmi. apply Hk.
      exact (Permutation_in _ Hperm Hmi).
    + rewrite (with_new_model_candidate a N df HN) in Hw.
      injection Hw as <- <-. cbn [rows] in *.
      destruct (Hfree N HN) as [Hf Hu].
      apply (candidate_persisted a d df N e); eauto.
Qed.

(** X8.  The directory a run leaves, when the file name of the candidate is
    free and an entry named as a file its save writes is that file: the
    entries whose rows are all kept, and what the save of the candidate
    writes when it is kept. *)
Theorem directory_after_run a d :
  NoDup (map e_name d) ->
  valid_args a = true ->
  Args.only_report a = false ->
  (forall N, candidate a = Some N ->
     exists_ d (filename N) = false
     /\ forall e e', In e (persisted a (filename N)) -> In e' d ->
                     e_name e' = e_name e -> e' = e) ->
  forall e,
    In e (run_dir a d)
    <-> (In e d
         /\ forall mi, In mi (candidate_set a d) ->
                       cell_path (filepath mi) = e_name e ->
                       keep_model (Args.save_best_only a)
                         (candidate_set a d) mi = true)
        \/ (exists N,
              candidate a = Some N /\ In N (candidate_set a d)
              /\ keep_model (Args.save_best_only a) (candidate_set a d) N
                 = true
              /\ In e (persisted a (filename N))).
Proof. exact (survivors a d). Qed.

Lemma directory_after_run_witness :
  let a := weights_args false "max" better_candidate in
  let d := (scenario ++ [file "checkpoint"])%list in
  let e := file "roads_01_unet_0.91000_0.90000_0.92000_6_tf.index" in
  In e (run_dir a d)
  <-> (In e d
       /\ forall mi, In mi (candidate_set a d) ->
                     cell_path (filepath mi) = e_name e ->
                     keep_model (Args.save_best_only a)
                       (candidate_set a d) mi = true)
      \/ (exists N,
            candidate a = Some N /\ In N (candidate_set a d)
            /\ keep_model (Args.save_best_only a) (candidate_set a d) N
               = true
            /\ In e (persisted a (filename N))).
Proof.
  intros a d e. apply (directory_after_run a d).
  - repeat constructor; cbn; intuition discriminate.
  - reflexivity.
  - reflexivity.
  - intros N HN. injection HN as <-. split; [vm_compute; reflexivity|].
    intros x x' Hx Hx'. vm_compute in Hx, Hx'.
    destruct Hx as [<-|[<-|[<-|[]]]], Hx' as [<-|[<-|[<-|[]]]];
      cbn [e_name file]; intros E; try discriminate E; reflexivity.
Defined.

(** The run of the witness: with weights only and the ['tf'] format the
    save leaves the files of a checkpoint, which the next scan does not
    list. *)
Lemma weights_checkpoint_is_not_listed :
  let a := weights_args true "max" better_candidate in
  run_calls a scenario
  = [SaveWeights NewModel "roads_01_unet_0.91000_0.90000_0.92000_6_tf";
     Unlink "roads_01_unet_0.80000_0.79000_0.81000_5.hdf5";
     Unlink "roads_01_unet_0.75000_0.74000_0.76000_3.hdf5"]
  /\ run_dir a scenario
     = [file "roads_01_unet_0.91000_0.90000_0.92000_6_tf.index";
        file "roads_01_unet_0.91000_0.90000_0.92000_6_tf.data-00000-of-00001";
        file "checkpoint"]
  /\ model_paths (run_dir a scenario) = [].
Proof. cbv zeta. repeat split; vm_compute; reflexivity. Qed.

(** X9.  Without ties, a run that classified some row leaves the file of a row
    it kept: the directory is never emptied of the models of the identity.
    The save is one that writes at the path of the candidate: not one of
    weights only in the ['tf'] format. *)
Theorem no_ties_leaves_a_model a d :
  NoDup (map e_name d) ->
  valid_args a = true ->
  Args.only_report a = false ->
  Args.save_weights_only a && (Args.save_format a =? "tf")%string = false ->
  (forall N, candidate a = Some N -> exists_ d (filename N) = false) ->
  candidate_set a d <> [] ->
  no_ties (Args.save_best_only a) (candidate_set a d) ->
  exists r,
    In r (candidate_set a d)
    /\ keep_model (Args.save_best_only a) (candidate_set a d) r = true
    /\ exists_ (run_dir a d) (cell_path (filepath r)) = true.
Proof.
  intros Hnd Hval Hdry Hsave Hfree Hne Hnt.
  assert (Hpers : forall q, persisted a q
                  = [{| e_name := q;
                        e_is_dir := (Args.save_format a =? "tf")%string |}])
    by (intros q; unfold persisted; now rewrite Hsave).
  assert (Hfree' : forall N, candidate a = Some N ->
     exists_ d (filename N) = false
     /\ forall e e', In e (persisted a (filename N)) -> In e' d ->
                     e_name e' = e_name e -> e' = e).
  { intros N HN. split; [now apply Hfree|].
    intros e e' He He' Hn. exfalso. rewrite Hpers in He.
    destruct He as [<-|[]]. cbn [e_name] in Hn.
    assert (X : exists_ d (filename N) = true) by (apply exists_In; eauto).
    rewrite (Hfree N HN) in X. discriminate X. }
  destruct (tie_free_keeps _ _ Hne Hnt) as (r & Hr & K).
  exists r. split; [exact Hr|]. split; [exact K|].
  destruct (run_structure a d Hval)
    as [(_ & _ & Hset)|(df & p & df' & Hex & Hw & Hc)]; [congruence|].
  destruct (run_reaches_loop a d df p df' Hval Hex Hw Hc) as (Hset & _).
  assert (Hcases : In r (rows df)
                   \/ (candidate a = Some r /\ In r (candidate_set a d))).
  { destruct (with_new_model_inv _ _ _ _ Hw)
      as [[_ ->]|(N & HN & _ & Hrows)].
    - left. now rewrite <- Hset.
    - rewrite Hset, Hrows in Hr. apply in_app_or in Hr as [Hr|[<-|[]]];
        [now left|]. right. split; [exact HN|].
      rewrite Hset, Hrows. apply in_or_app. right. now left. }
  apply exists_In.
  destruct Hcases as [Hold|[HN Hin]].
  - destruct (existing_on_disk _ _ _ _ Hex Hold) as (q & Hq & X & Hparse).
    apply exists_In in X as (e & He & Hn).
    exists e. split; [|rewrite Hq; exact Hn].
    apply (survivors a d Hnd Hval Hdry Hfree'). left.
    split; [exact He|]. intros mi Hmi Hpath.
    assert (E : mi = r); [|now rewrite E].
    rewrite Hset in Hmi.
    assert (Hmi' : In mi (rows df)
                   \/ exists N, candidate a = Some N /\ mi = N).
    { destruct (with_new_model_inv _ _ _ _ Hw)
        as [[_ ->]|(N & HN & _ & Hrows)]; [now left|].
      rewrite Hrows in Hmi. apply in_app_or in Hmi as [Hmi|[<-|[]]];
        [now left | right; eauto]. }
    destruct Hmi' as [Hmi'|(N & HN & ->)].
    + destruct (existing_on_disk _ _ _ _ Hex Hmi') as (q' & Hq' & _ & Hparse').
      rewrite Hq' in Hpath. cbn [cell_path] in Hpath.
      assert (Eq : q' = q) by congruence. rewrite Eq in Hparse'.
      rewrite Hparse in Hparse'. now injection Hparse' as <-.
    + exfalso. rewrite (candidate_filepath a N HN) in Hpath.
      cbn [cell_path] in Hpath.
      assert (X : exists_ d (filename N) = true)
        by (apply exists_In; exists e; split; [exact He | congruence]).
      rewrite (Hfree N HN) in X. discriminate X.
  - exists {| e_name := filename r;
              e_is_dir := (Args.save_format a =? "tf")%string |}.
    split; [|now rewrite (candidate_filepath a r HN)].
    apply (survivors a d Hnd Hval Hdry Hfree'). right.
    exists r. repeat split; auto. rewrite Hpers. now left.
Qed.

Lemma no_ties_leaves_a_model_witness :
  exists r,
    In r (candidate_set (cycle_args true "max" better_candidate) scenario)
    /\ keep_model (Args.save_best_only (cycle_args true "max" better_candidate))
         (candidate_set (cycle_args true "max" better_candidate) scenario) r
       = true
    /\ exists_ (run_dir (cycle_args true "max" better_candidate) scenario)
         (cell_path (filepath r)) = true.
Proof.
  apply (no_ties_leaves_a_model (cycle_args true "max" better_candidate)
           scenario).
  - repeat constructor; cbn; intuition discriminate.
  - reflexivity.
  - reflexivity.
  - reflexivity.
  - intros N HN. injection HN as <-. vm_compute. reflexivity.
  - vm_compute. discriminate.
  - intros r r' Hr Hr' Hf E.
    vm_compute in Hr, Hr'.
    destruct Hr as [<-|[<-|[<-|[]]]], Hr' as [<-|[<-|[<-|[]]]];
      try (now apply Hf); vm_compute in E; discriminate E.
Defined.


(** The directory and the file system calls of a run, by cases. *)
Lemma run_normal a d :
  (run_dir a d, run_calls a d)
  = if valid_args a then
      match outcome (existing a d) with
      | Return df =>
          match with_new_model a df with
          | Return (p, df') =>
              if has_columns df'
              then (loop_dir a (rows df') p d (sort_values (rows df')),
                    fs_calls (loop_events a (rows df') p d
                                (sort_values (rows df'))))
              else (d, [])
          | Raise _ => (d, [])
          end
      | Raise _ => (d, [])
      end
    else (d, []).
Proof.
  destruct (valid_args a) eqn:Hval.
  - destruct (run_structure a d Hval)
      as [(Hc & Hd & _)|(df & p & df' & Hex & Hw & Hcol)].
    + rewrite Hc, Hd.
      destruct (run_cases a d)
        as [_|(df & p & df' & _ & Hex & Hw & Hcol & _ & Hc' & Hd')].
      * destruct (outcome (existing a d)) as [df|e] eqn:Hex; [|reflexivity].
        destruct (with_new_model a df) as [[p df']|e] eqn:Hw; [|reflexivity].
        destruct (has_columns df') eqn:Hcol; [|reflexivity].
        destruct (run_reaches_loop a d df p df' Hval Hex Hw Hcol)
          as (_ & Hd' & Hc' & _).
        now rewrite <- Hd', <- Hc', Hc, Hd.
      * now rewrite Hex, Hw, Hcol, <- Hd', <- Hc', Hc, Hd.
    + destruct (run_reaches_loop a d df p df' Hval Hex Hw Hcol)
        as (_ & Hd' & Hc' & _).
      now rewrite Hex, Hw, Hcol, <- Hd', <- Hc'.
  - destruct (run_cases a d) as [(Hc & Hd & _)|(df & p & df' & Hv & _)];
      [now rewrite Hc, Hd | congruence].
Qed.

Lemma with_reports_step v g a cs p d mi :
  step_dir (with_reports v g a) cs p d mi = step_dir a cs p d mi
  /\ fs_calls (step_events (with_reports v g a) cs p d mi)
     = fs_calls (step_events a cs p d mi).
Proof.
  assert (Hprint : forall l : list ModelInfo,
             fs_calls (map (fun r => Print (BetterOne (filename r))) l) = []).
  { induction l as [|r l IH]; [reflexivity | exact IH]. }
  unfold step_dir, step_events, loop_body, with_reports, persisted, save_call.
  cbn [Args.save_best_only Args.only_report Args.debug Args.save_format
       Args.model_template_for_save Args.save_weights_only].
  destruct (keep_model _ cs mi).
  - destruct p as [q|]; [|split; reflexivity].
    destruct (negb (Args.only_report a) && cell_eqb (filepath mi) (StrObj q)
              && negb (exists_ d q)); split; reflexivity.
  - destruct (Args.only_report a);
      [|destruct (exists_ d (cell_path (filepath mi)))];
      destruct g, (Args.debug a); cbn [fst snd]; split; try reflexivity;
      rewrite ?fs_calls_app; cbn [fs_calls filter is_persist is_delete orb];
      fold (fs_calls (map (fun r => Print (BetterOne (filename r)))
                        (better_ones (Args.save_best_only a) cs mi)));
      rewrite ?Hprint, ?List.app_nil_r; reflexivity.
Qed.

Lemma with_reports_loop v g a cs p l d :
  loop_dir (with_reports v g a) cs p d l = loop_dir a cs p d l
  /\ fs_calls (loop_events (with_reports v g a) cs p d l)
     = fs_calls (loop_events a cs p d l).
Proof.
  revert d. induction l as [|mi l IH]; intros d; cbn [loop_dir loop_events];
    [split; reflexivity|].
  destruct (with_reports_step v g a cs p d mi) as [-> He].
  destruct (IH (step_dir a cs p d mi)) as [-> Hl].
  split; [reflexivity|]. now rewrite !fs_calls_app, He, Hl.
Qed.

(** X12.  [verbose] and [debug] change what a run prints, not what it does to the
    directory: it leaves the same entries and makes the same file system
    calls whatever their values. *)
Theorem reports_change_no_file v g a d :
  run_dir (with_reports v g a) d = run_dir a d
  /\ run_calls (with_reports v g a) d = run_calls a d.
Proof.
  assert (E : (run_dir (with_reports v g a) d, run_calls (with_reports v g a) d)
              = (run_dir a d, run_calls a d)).
  { rewrite !run_normal.
    change (valid_args (with_reports v g a)) with (valid_args a).
    change (existing (with_reports v g a) d) with (existing a d).
    destruct (valid_args a); [|reflexivity].
    destruct (outcome (existing a d)) as [df|e]; [|reflexivity].
    assert (Hw : with_new_model (with_reports v g a) df
                 = with_new_model a df) by reflexivity.
    rewrite Hw.
    destruct (with_new_model a df) as [[p df']|e]; [|reflexivity].
    destruct (has_columns df'); [|reflexivity].
    destruct (with_reports_loop v g a (rows df') p (sort_values (rows df')) d)
      as [-> ->].
    reflexivity. }
  now injection E.
Qed.

End RunFacts.

(* ================================================================== *)
(** * The registry: what the scan and its queries return *)
(* ================================================================== *)

Module ScanFacts.
Import Str StrFacts CodecFacts MonadFacts Ranking Registry Loop Cycle
  Survivors Idempotence.

Lemma split_pieces_free c s :
  Forall (fun p => all_chars (isnt c) p = true) (split c s).
Proof.
  induction s as [|x s IH]; cbn [split]; [repeat constructor|].
  destruct (Ascii.eqb x c) eqn:E; [constructor; [reflexivity | exact IH]|].
  destruct (split c s) as [|h t]; [repeat constructor; cbn; unfold isnt;
                                    now rewrite E|].
  inversion IH as [|? ? Hh Ht]; subst. constructor; [|exact Ht].
  cbn [all_chars]. unfold isnt at 1. now rewrite E, Hh.
Qed.

Lemma split_pieces_class (q : ascii -> bool) c s :
  all_chars q s = true -> Forall (fun p => all_chars q p = true) (split c s).
Proof.
  induction s as [|x s IH]; cbn [split all_chars]; [repeat constructor|].
  intros H. apply andb_true_iff in H as [Hx Hs]. specialize (IH Hs).
  destruct (Ascii.eqb x c); [constructor; [reflexivity | exact IH]|].
  destruct (split c s) as [|h t]; [repeat constructor; cbn; now rewrite Hx|].
  inversion IH as [|? ? Hh Ht]; subst. constructor; [|exact Ht].
  cbn [all_chars]. now rewrite Hx, Hh.
Qed.

Lemma join_class (q : ascii -> bool) sep l :
  all_chars q sep = true -> Forall (fun p => all_chars q p = true) l ->
  all_chars q (join sep l) = true.
Proof.
  intros Hsep. induction l as [|x l IH]; intros H; [reflexivity|].
  inversion H as [|? ? Hx Hl]; subst. specialize (IH Hl).
  destruct l as [|y l]; [exact Hx|].
  change (join sep (x :: y :: l)) with (x ++ sep ++ join sep (y :: l)).
  now rewrite !all_chars_app, Hx, Hsep, IH.
Qed.

Lemma Forall_removelast {A} (P : A -> Prop) (l : list A) :
  Forall P l -> Forall P (removelast l).
Proof.
  induction l as [|x l IH]; intros H; [constructor|].
  inversion H as [|? ? Hx Hl]; subst. cbn [removelast].
  destruct l; [constructor | constructor; auto].
Qed.

Lemma index_In {A} (l : list A) i x :
  outcome (index l i) = Return x -> In x l.
Proof.
  unfold index. destruct (nth_error l i) eqn:E; [|discriminate].
  intros H. injection H as <-. exact (nth_error_In _ _ E).
Qed.

Lemma parse_train_info_inv s hv arch :
  no_underscore s ->
  outcome (parse_train_info s) = Return (hv, arch) ->
  0 <= hv /\ no_underscore arch.
Proof.
  intros Hs. unfold parse_train_info.
  intros H. apply bind_inv in H as (lastv & _ & H).
  destruct (isdigit lastv) eqn:D.
  - apply bind_inv in H as (z & Hz & H). injection H as <- <-.
    unfold int in Hz. destruct (py_int lastv) as [z'|] eqn:Pz;
      [|discriminate Hz].
    injection Hz as <-.
    split; [exact (py_int_isdigit_nonneg _ _ D Pz)|]. unfold no_underscore.
    apply join_class; [reflexivity|].
    apply Forall_removelast, split_pieces_class. exact Hs.
  - injection H as <- <-. split; [lia | exact Hs].
Qed.

Lemma parse_fields_inv fp sf fname r :
  outcome (parse_fields fp sf fname) = Return (Some r) ->
  filepath r = PathObj fp /\ filename r = fname /\ save_format r = sf
  /\ no_underscore (segment_subject r)
  /\ no_underscore (model_architecture r)
  /\ 0 <= hyperparams_version r
  /\ basefilename r
     = Some (format_model_basefilename (segment_subject r)
               (traindata_version r) (model_architecture r)
               (hyperparams_version r)).
Proof.
  unfold parse_fields. intros H.
  pose proof (split_pieces_free "_" fname) as Hfree.
  rewrite Forall_forall in Hfree.
  apply bind_inv in H as (_ & _ & H).
  apply bind_inv in H as (s0 & H0 & H).
  apply bind_inv in H as (s1 & _ & H).
  apply bind_inv in H as (tv & _ & H).
  apply bind_inv in H as (s2 & H2 & H).
  apply bind_inv in H as ([hv arch] & Hti & H).
  apply bind_inv in H as ([[[c t] v] ep] & _ & H).
  injection H as <-. cbn.
  apply index_In, Hfree in H0. apply index_In, Hfree in H2.
  destruct (parse_train_info_inv _ _ _ H2 Hti) as [Hhv Harch].
  repeat split; auto.
Qed.

(** X16.  What every decoded row satisfies: it keeps the path it was decoded
    from, its format is ['tf'] for a directory whose name ends in [_tf]
    and ['h5'] for a file with the suffix [.h5] or [.hdf5], its file name
    is the name of the path, without the suffix for a file, its subject
    and its architecture hold no underscore, and the version of its hyper
    parameters is not negative. *)
Theorem decoded_row_invariants d p r :
  outcome (parse_model_filename d p) = Return (Some r) ->
  filepath r = PathObj p
  /\ ((save_format r = "tf" /\ is_dir d p = true /\ filename r = name p
       /\ endswith (name p) "_tf" = true)
      \/ (save_format r = "h5" /\ is_dir d p = false /\ filename r = stem p
          /\ (suffix p = ".h5" \/ suffix p = ".hdf5")))
  /\ no_underscore (segment_subject r)
  /\ no_underscore (model_architecture r)
  /\ 0 <= hyperparams_version r
  /\ basefilename r
     = Some (format_model_basefilename (segment_subject r)
               (traindata_version r) (model_architecture r)
               (hyperparams_version r)).
Proof.
  unfold parse_model_filename.
  destruct (is_dir d p) eqn:D.
  - destruct (endswith (name p) "_tf") eqn:E; cbn [negb]; [|discriminate].
    intros H. apply parse_fields_inv in H as (H1 & H2 & H3 & H4).
    split; [exact H1|]. split; [|exact H4]. left. auto.
  - destruct (existsb (String.eqb (suffix p)) [".h5"; ".hdf5"]) eqn:E;
      [|discriminate].
    intros H. apply parse_fields_inv in H as (H1 & H2 & H3 & H4).
    split; [exact H1|]. split; [|exact H4]. right.
    repeat split; auto.
    cbn [existsb] in E. rewrite orb_false_r in E.
    apply orb_true_iff in E as [E|E]; apply String.eqb_eq in E; auto.
Qed.

Lemma decoded_row_invariants_witness :
  let p := "roads_01_unet_0.80000_0.79000_0.81000_5.hdf5" in
  let r := model_a in
  filepath r = PathObj p
  /\ ((save_format r = "tf" /\ is_dir scenario p = true
       /\ filename r = name p /\ endswith (name p) "_tf" = true)
      \/ (save_format r = "h5" /\ is_dir scenario p = false
          /\ filename r = stem p
          /\ (suffix p = ".h5" \/ suffix p = ".hdf5")))
  /\ no_underscore (segment_subject r)
  /\ no_underscore (model_architecture r)
  /\ 0 <= hyperparams_version r
  /\ basefilename r
     = Some (format_model_basefilename (segment_subject r)
               (traindata_version r) (model_architecture r)
               (hyperparams_version r)).
Proof.
  intros p r. apply (decoded_row_invariants scenario p r).
  vm_compute. reflexivity.
Defined.


Lemma parse_all_raises d paths p x :
  In p paths -> outcome (parse_model_filename d p) = Raise x ->
  exists x', outcome (parse_all d paths) = Raise x'.
Proof.
  induction paths as [|q paths IH]; intros Hin Hx; [destruct Hin|].
  cbn [parse_all]. rewrite outcome_bind.
  destruct (outcome (parse_model_filename d q)) as [mi|e] eqn:Hq;
    [|eexists; reflexivity].
  destruct Hin as [->|Hin]; [congruence|].
  destruct (IH Hin Hx) as [x' Hx'].
  exists x'. now rewrite outcome_bind, Hx'.
Qed.

Lemma scan_raise_blocks d x :
  outcome (scan d) = Raise x ->
  (forall seg arch tv hv, outcome (get_models d seg arch tv hv) = Raise x)
  /\ outcome (get_max_data_version d) = Raise x
  /\ (forall seg tv arch hv,
        outcome (get_best_model d seg tv arch hv) = Raise x)
  /\ (forall a, valid_args a = true ->
                run_outcome a d = Raise x /\ run_dir a d = d
                /\ run_calls a d = []).
Proof.
  intros Hscan.
  assert (Hm : forall seg arch tv hv,
             outcome (get_models d seg arch tv hv) = Raise x)
    by (intros; now rewrite get_models_outcome, Hscan).
  split; [exact Hm|].
  split; [now rewrite get_max_data_version_outcome, Hscan|].
  split.
  - intros seg tv arch hv. unfold get_best_model.
    now rewrite outcome_bind, Hm.
  - intros a Hval.
    specialize (Hm (Some (Args.segment_subject a))
                  (Some (Args.model_architecture a))
                  (Some (Args.traindata_version a))
                  (Some (Args.hyperparams_version a))).
    unfold run_outcome, run_dir, run_calls, save_and_clean_models.
    unfold valid_args in Hval. apply andb_true_iff in Hval as [-> ->].
    cbn [negb].
    pose proof (quiet_get_models d (Some (Args.segment_subject a))
                  (Some (Args.model_architecture a))
                  (Some (Args.traindata_version a))
                  (Some (Args.hyperparams_version a))) as Hq.
    destruct (get_models d _ _ _ _) as [tr0 [df|e]];
      cbn [outcome snd] in Hm; [discriminate Hm|].
    injection Hm as ->. repeat split. exact Hq.
Qed.

(** X18.  One listed entry whose name does not decode blocks the whole registry:
    every query of the directory, for whatever subject, raises, and every
    retention cycle raises before it saves or deletes anything. *)
Theorem undecodable_entry_blocks_registry d p x :
  In p (model_paths d) ->
  outcome (parse_model_filename d p) = Raise x ->
  exists x',
    (forall seg arch tv hv, outcome (get_models d seg arch tv hv) = Raise x')
    /\ outcome (get_max_data_version d) = Raise x'
    /\ (forall seg tv arch hv,
          outcome (get_best_model d seg tv arch hv) = Raise x')
    /\ (forall a, valid_args a = true ->
                  run_outcome a d = Raise x' /\ run_dir a d = d
                  /\ run_calls a d = []).
Proof.
  intros Hin Hx.
  destruct (parse_all_raises d (model_paths d) p x Hin Hx) as [x' Hx'].
  exists x'. apply scan_raise_blocks. exact Hx'.
Qed.

Lemma undecodable_entry_blocks_registry_witness :
  let d := [file "roads_01_unet_0.80000_0.79000_0.81000_5.hdf5";
            file "trees_two_unet.h5"] in
  exists x',
    (forall seg arch tv hv, outcome (get_models d seg arch tv hv) = Raise x')
    /\ outcome (get_max_data_version d) = Raise x'
    /\ (forall seg tv arch hv,
          outcome (get_best_model d seg tv arch hv) = Raise x')
    /\ (forall a, valid_args a = true ->
                  run_outcome a d = Raise x' /\ run_dir a d = d
                  /\ run_calls a d = []).
Proof.
  intros d.
  apply (undecodable_entry_blocks_registry d "trees_two_unet.h5" ValueError).
  - vm_compute. tauto.
  - reflexivity.
Defined.

(** X21.  With rows in the registry, [get_max_data_version] returns the train
    data version of one of them, and none has a higher one. *)
Theorem max_data_version_is_attained d all :
  outcome (get_models d None None None None) = Return all ->
  rows all <> [] ->
  exists v,
    outcome (get_max_data_version d) = Return v
    /\ (exists r, In r (rows all) /\ traindata_version r = v)
    /\ forall r, In r (rows all) -> traindata_version r <= v.
Proof.
  intros Hall Hne. unfold get_max_data_version.
  rewrite outcome_bind, Hall.
  destruct (rows all) as [|r0 l]; [congruence|]. cbn [map].
  exists (column_max (traindata_version r0) (map traindata_version l)).
  destruct (column_max_spec (traindata_version r0) (map traindata_version l))
    as (Hat & Hge & Hmax).
  split; [reflexivity|]. split.
  - destruct Hat as [E|Hin].
    + exists r0. split; [now left | now rewrite E].
    + apply in_map_iff in Hin as (r & E & Hr). exists r.
      split; [now right | exact E].
  - intros r [<-|Hr]; [exact Hge|]. apply Hmax, in_map. exact Hr.
Qed.

Lemma max_data_version_is_attained_witness :
  let all :=
    {| has_columns := true;
       rows := [model_a; model_b] |} in
  exists v,
    outcome (get_max_data_version scenario) = Return v
    /\ (exists r, In r (rows all) /\ traindata_version r = v)
    /\ forall r, In r (rows all) -> traindata_version r <= v.
Proof.
  intros all. apply (max_data_version_is_attained scenario all).
  - vm_compute. reflexivity.
  - discriminate.
Defined.

(** X22.  The model [get_best_model] returns is a row of [get_models] under the
    same filters, and no such row of its train data version has a higher
    [acc_combined]: when its score is a number, it is at least the score
    of each of them. *)
Theorem best_model_is_best d seg tv arch hv b :
  outcome (get_best_model d seg tv arch hv) = Return (Some b) ->
  exists df,
    outcome (get_models d seg arch tv hv) = Return df
    /\ In b (rows df)
    /\ (forall v, tv = Some v -> traindata_version b = v)
    /\ forall r, In r (rows df) ->
                 traindata_version r = traindata_version b ->
                 Float.gt (acc_combined r) (acc_combined b) = false
                 /\ (Float.is_nan (acc_combined b) = false ->
                     Float.ge (acc_combined b) (acc_combined r) = true).
Proof.
  unfold get_best_model. intros H.
  apply bind_inv in H as (df & Hdf & H). exists df.
  split; [exact Hdf|].
  destruct tv as [v|].
  - apply best_row_spec in H as [Hin Hmax].
    split; [exact Hin|]. split; [|intros r Hr _; now apply Hmax].
    intros v' E. injection E as <-.
    rewrite get_models_outcome in Hdf.
    destruct (outcome (scan d)) as [[|r0 l]|e]; inversion Hdf; subst;
      cbn [rows DataFrame_of] in Hin; [destruct Hin|].
    unfold select in Hin. cbn [opt_filter] in Hin.
    destruct hv; cbn [opt_filter] in Hin;
      repeat (apply filter_In in Hin as [Hin ?]);
      match goal with h : (traindata_version b =? v) = true |- _ =>
        now apply Z.eqb_eq in h end.
  - apply bind_inv in H as (m & _ & H).
    destruct (m =? -1); [discriminate H|].
    apply bind_inv in H as (df' & Hloc & H).
    unfold loc in Hloc. destruct (has_columns df); [|discriminate Hloc].
    injection Hloc as <-.
    apply best_row_spec in H as [Hin Hmax]. cbn [rows] in Hin, Hmax.
    apply filter_In in Hin as [Hin Hv]. apply Z.eqb_eq in Hv.
    split; [exact Hin|]. split; [discriminate|].
    intros r Hr E. apply Hmax, filter_In. split; [exact Hr|].
    apply Z.eqb_eq. congruence.
Qed.


Lemma best_model_is_best_witness :
  let b := model_a in
  exists df,
    outcome (get_models scenario (Some "roads") None (Some 1) None)
    = Return df
    /\ In b (rows df)
    /\ (forall v, Some 1 = Some v -> traindata_version b = v)
    /\ forall r, In r (rows df) ->
                 traindata_version r = traindata_version b ->
                 Float.gt (acc_combined r) (acc_combined b) = false
                 /\ (Float.is_nan (acc_combined b) = false ->
                     Float.ge (acc_combined b) (acc_combined r) = true).
Proof.
  intros b.
  apply (best_model_is_best scenario (Some "roads") (Some 1) None None b).
  vm_compute. reflexivity.
Defined.

(** No name matches two of the three patterns of [get_models]. *)
Lemma patterns_disjoint p :
  (endswith p ".hdf5" = true -> endswith p ".h5" = false)
  /\ (endswith p ".hdf5" = true -> endswith p "_tf" = false)
  /\ (endswith p ".h5" = true -> endswith p "_tf" = false).
Proof.
  repeat split; intros H; apply endswith_inv in H as [a ->];
    match goal with |- ?g = false => destruct g eqn:E end;
    try reflexivity; exfalso; apply endswith_inv in E as [b E].
  - change (a ++ ".hdf5") with (a ++ (".h" ++ "df5")) in E.
    rewrite <- append_assoc in E.
    apply same_length_suffix in E; [discriminate E | reflexivity].
  - change (a ++ ".hdf5") with (a ++ (".h" ++ "df5")) in E.
    rewrite <- append_assoc in E.
    apply same_length_suffix in E; [discriminate E | reflexivity].
  - apply same_length_suffix in E; [discriminate E | reflexivity].
Qed.

Lemma glob_NoDup d suf :
  NoDup (map e_name d) -> NoDup (glob d suf).
Proof.
  unfold glob. induction d as [|e d IH]; intros H; [constructor|].
  inversion H as [|? ? Hn Hd]; subst. cbn [filter].
  destruct (endswith (e_name e) suf); [|now apply IH].
  cbn [map]. constructor; [|now apply IH].
  intros Hin. apply Hn. apply in_map_iff in Hin as (e' & E & Hin).
  apply filter_In in Hin as [Hin _]. apply in_map_iff. eauto.
Qed.

Lemma NoDup_append {A} (l l' : list A) :
  NoDup l -> NoDup l' -> (forall x, In x l -> ~ In x l') ->
  NoDup (l ++ l').
Proof.
  induction l as [|x l IH]; intros H H' Hd; [exact H'|].
  inversion H as [|? ? Hx Hl]; subst. cbn [app]. constructor.
  - intros Hin. apply in_app_or in Hin as [Hin|Hin]; [now apply Hx|].
    apply (Hd x); [now left | exact Hin].
  - apply IH; auto. intros y Hy. apply Hd. now right.
Qed.

Lemma model_paths_NoDup d :
  NoDup (map e_name d) -> NoDup (model_paths d).
Proof.
  intros H. unfold model_paths.
  apply NoDup_append; [now apply glob_NoDup | apply NoDup_append |];
    try now apply glob_NoDup.
  - intros p H1 H2. apply glob_In in H1 as (_ & _ & _ & E1).
    apply glob_In in H2 as (_ & _ & _ & E2).
    destruct (patterns_disjoint p) as (_ & _ & D). rewrite (D E1) in E2.
    discriminate E2.
  - intros p H1 H2. apply glob_In in H1 as (_ & _ & _ & E1).
    destruct (patterns_disjoint p) as (D1 & D2 & _).
    apply in_app_or in H2 as [H2|H2]; apply glob_In in H2 as (_ & _ & _ & E2).
    + rewrite (D1 E1) in E2. discriminate E2.
    + rewrite (D2 E1) in E2. discriminate E2.
Qed.

Lemma parse_all_NoDup d paths l :
  NoDup paths -> outcome (parse_all d paths) = Return l ->
  NoDup (map filepath l).
Proof.
  revert l. induction paths as [|q paths IH]; intros l Hnd H.
  - injection H as <-. constructor.
  - inversion Hnd as [|? ? Hq Hps]; subst. cbn [parse_all] in H.
    apply bind_inv in H as (mi & Hmi & H).
    apply bind_inv in H as (rest & Hrest & H). injection H as <-.
    specialize (IH rest Hps Hrest).
    destruct mi as [i|]; [|exact IH]. cbn [map]. constructor; [|exact IH].
    intros Hin. apply in_map_iff in Hin as (r & E & Hr).
    apply (parse_all_In _ _ _ Hrest) in Hr as (p & Hp & Hparse).
    apply parse_model_filename_filepath in Hparse, Hmi.
    assert (p = q) by congruence. subst p. exact (Hq Hp).
Qed.

(** Filtering rows keeps their filepaths distinct. *)
Lemma filtered_rows_distinct (keep : ModelInfo -> bool) (df : list ModelInfo) :
  NoDup (map filepath df) -> NoDup (map filepath (filter keep df)).
Proof.
  induction df as [|r df IH]; intros H; [constructor|].
  inversion H as [|? ? Hr Hdf]; subst. cbn [filter].
  destruct (keep r); [|now apply IH]. cbn [map]. constructor; [|now apply IH].
  intros Hin. apply Hr. apply in_map_iff in Hin as (r' & E & Hr').
  apply filter_In in Hr' as [Hr' _]. apply in_map_iff. eauto.
Qed.

(** X20.  The three patterns of [get_models] list no entry twice: in a directory
    of entries with different names, the rows it returns have different
    filepaths, whatever the filters. *)
Theorem get_models_lists_each_entry_once d seg arch tv hv df :
  NoDup (map e_name d) ->
  outcome (get_models d seg arch tv hv) = Return df ->
  NoDup (map filepath (rows df)).
Proof.
  intros Hnd H. rewrite get_models_outcome in H.
  destruct (outcome (scan d)) as [l|e] eqn:Hscan; [|discriminate H].
  assert (Hl : NoDup (map filepath l)).
  { apply (parse_all_NoDup d (model_paths d));
      [now apply model_paths_NoDup | exact Hscan]. }
  destruct l as [|r0 l]; injection H as <-; [constructor|].
  cbn [rows]. unfold select.
  destruct seg, arch, tv, hv; cbn [opt_filter];
    repeat apply filtered_rows_distinct; exact Hl.
Qed.

Lemma get_models_lists_each_entry_once_witness :
  NoDup (map filepath
           (rows {| has_columns := true; rows := [model_a; model_b] |})).
Proof.
  apply (get_models_lists_each_entry_once scenario (Some "roads") None
           None None).
  - repeat constructor; cbn; intuition discriminate.
  - vm_compute. reflexivity.
Defined.

End ScanFacts.

(* ================================================================== *)
(** * What a file name keeps of the scores *)
(* ================================================================== *)

Module Rounding.
Import Str StrFacts CodecFacts MonadFacts RoundTrip.

(** What [float] reads back from a score written with five decimals. *)
Lemma fmt_5f_decodes x :
  exists y, Float.of_string (Float.fmt_5f x) = Some y /\ rounded x y.
Proof.
  destruct x as [q| |[]|]; try (eexists; split; reflexivity).
  cbn [Float.fmt_5f rounded]. unfold fmt_5f.
  assert (Habs : (0 <= Qabs q * (100000 # 1))%Q).
  { apply Qmult_le_0_compat; [apply Qabs_nonneg | discriminate]. }
  destruct (FloatFacts.round_half_even_near _ Habs) as (Hm & Hlo & Hhi).
  set (m := round_half_even (Qabs q * (100000 # 1))) in *.
  assert (Hfr : 0 <= m mod 100000 < 100000) by (apply Z.mod_pos_bound; lia).
  rewrite (of_string_5f (Qnum q <? 0) _ _ Hfr). cbv zeta.
  eexists; split; [reflexivity|].
  assert (Hq : 0 <= m / 100000) by (apply Z.div_pos; lia).
  rewrite Z2N.id by exact Hq.
  assert (Hk : m / 100000 * 100000 + m mod 100000 = m).
  { pose proof (Z.div_mod m 100000). lia. }
  rewrite Hk.
  exists (if Qnum q <? 0 then - m else m). split.
  - apply Qabs_Qle_condition.
    assert (Hy : forall z : Z,
               (Qmake z 100000 == inject_Z z * (1 # 100000))%Q).
    { intros z. unfold Qeq, Qmult, inject_Z. cbn. lia. }
    rewrite Hy.
    destruct (Z.ltb_spec (Qnum q) 0) as [Hneg|Hpos].
    + assert (Hx : (Qabs q == - q)%Q).
      { apply Qabs_neg. unfold Qle. cbn. lia. }
      rewrite Hx in Hlo, Hhi. rewrite inject_Z_opp.
      generalize dependent (inject_Z m). intros M Hlo Hhi. split; lra.
    + assert (Hx : (Qabs q == q)%Q).
      { apply Qabs_pos. unfold Qle. cbn. lia. }
      rewrite Hx in Hlo, Hhi.
      generalize dependent (inject_Z m). intros M Hlo Hhi. split; lra.
  - destruct (Z.eqb_spec m 0) as [E|E].
    + rewrite E. change (Qeq_bool ((0 # 100000) * 1) 0) with true.
      cbn match. destruct (Qnum q <? 0); reflexivity.
    + assert (Hnz : Qeq_bool ((m # 100000) * 1) 0 = false).
      { destruct (Qeq_bool ((m # 100000) * 1) 0) eqn:B; [|reflexivity].
        apply Qeq_bool_iff in B. unfold Qeq, Qmult in B. cbn in B. lia. }
      rewrite Hnz.
      destruct (Qnum q <? 0).
      * destruct (Z.eqb_spec (- m) 0); [lia|].
        apply FloatFacts.of_Q_Qeq. unfold Qeq, Qopp, Qmult. cbn. lia.
      * destruct (Z.eqb_spec m 0); [lia|].
        apply FloatFacts.of_Q_Qeq. unfold Qeq, Qmult. cbn. lia.
Qed.

Lemma decode_after_encode
    (d : directory) subj tv arch hv acc_t acc_v acc_c ep sf :
  no_underscore subj -> no_underscore arch ->
  no_slash subj -> no_slash arch ->
  (hv = 0 -> isdigit (last (split "+" arch) "") = false) ->
  0 <= tv -> 0 <= hv -> 0 <= ep ->
  sf = "h5" \/ sf = "tf" ->
  is_dir d (format_model_filename subj tv arch hv acc_t acc_v acc_c ep sf)
  = (sf =? "tf")%string ->
  exists r,
    outcome (parse_model_filename d
               (format_model_filename subj tv arch hv acc_t acc_v acc_c ep sf))
    = Return (Some r)
    /\ segment_subject r = subj /\ traindata_version r = tv
    /\ model_architecture r = arch /\ hyperparams_version r = hv
    /\ rounded acc_c (acc_combined r) /\ rounded acc_t (acc_train r)
    /\ rounded acc_v (acc_val r) /\ epoch r = ep /\ save_format r = sf.
Proof.
  intros Hs Ha Hs' Ha' Hlast Htv Hhv Hep Hsf Hdir.
  destruct (fmt_5f_decodes acc_c) as (c & Pc & Ec).
  destruct (fmt_5f_decodes acc_t) as (t & Pt & Et).
  destruct (fmt_5f_decodes acc_v) as (v & Pv & Ev).
  destruct (parse_formatted d subj tv arch hv acc_t acc_v acc_c ep sf c t v
              Hs Ha Hs' Ha' Hlast Htv Hhv Hep Hsf Hdir Pc Pt Pv)
    as (r & Hr & H1 & H2 & H3 & H4 & <- & <- & <- & H5 & H6).
  exists r. auto 12.
Qed.

(** X17.  Whatever the scores, a name written by [format_model_filename] for a
    well-formed identity - no underscore and no slash in the subject and
    the architecture - decodes, to the same identity, epoch and format, and
    to the scores as five decimals keep them: [nan], the infinities and
    [-0.0] as themselves, a finite score as the float nearest to a multiple
    of 0.00001 that is off by 0.000005 at most. *)
Theorem decoded_scores_are_rounded
    (d : directory) subj tv arch hv acc_t acc_v acc_c ep sf :
  no_underscore subj -> no_underscore arch ->
  no_slash subj -> no_slash arch ->
  (hv = 0 -> isdigit (last (split "+" arch) "") = false) ->
  0 <= tv -> 0 <= hv -> 0 <= ep ->
  sf = "h5" \/ sf = "tf" ->
  is_dir d (format_model_filename subj tv arch hv acc_t acc_v acc_c ep sf)
  = (sf =? "tf")%string ->
  exists r,
    outcome (parse_model_filename d
               (format_model_filename subj tv arch hv acc_t acc_v acc_c ep sf))
    = Return (Some r)
    /\ segment_subject r = subj /\ traindata_version r = tv
    /\ model_architecture r = arch /\ hyperparams_version r = hv
    /\ rounded acc_c (acc_combined r) /\ rounded acc_t (acc_train r)
    /\ rounded acc_v (acc_val r) /\ epoch r = ep /\ save_format r = sf.
Proof.
  exact (decode_after_encode d subj tv arch hv acc_t acc_v acc_c ep sf).
Qed.

Lemma decoded_scores_are_rounded_witness :
  exists r,
    outcome (parse_model_filename []
               (format_model_filename "roads" 1 "unet" 0
                  (dec (499999 # 1000000)) Float.NaN (dec (1 # 3)) 5 "h5"))
    = Return (Some r)
    /\ segment_subject r = "roads" /\ traindata_version r = 1
    /\ model_architecture r = "unet" /\ hyperparams_version r = 0
    /\ rounded (dec (1 # 3)) (acc_combined r)
    /\ rounded (dec (499999 # 1000000)) (acc_train r)
    /\ rounded Float.NaN (acc_val r)
    /\ epoch r = 5 /\ save_format r = "h5".
Proof.
  apply (decoded_scores_are_rounded [] "roads" 1 "unet" 0
           (dec (499999 # 1000000)) Float.NaN (dec (1 # 3)) 5 "h5");
    try reflexivity; try lia.
  now left.
Defined.

End Rounding.

(* ================================================================== *)
(** * How a retention cycle ends *)
(* ================================================================== *)

Module Outcomes.
Import MonadFacts Ranking Registry Sorting Loop Cycle Ordering Survivors
  Idempotence RunFacts ScanFacts.

Lemma existing_outcome a d :
  outcome (existing a d)
  = match outcome (scan d) with
    | Return [] => Return (DataFrame_of [])
    | Return l =>
        Return {| has_columns := true;
                  rows := select (Some (Args.segment_subject a))
                            (Some (Args.model_architecture a))
                            (Some (Args.traindata_version a))
                            (Some (Args.hyperparams_version a)) l |}
    | Raise e => Raise e
    end.
Proof. unfold existing. apply get_models_outcome. Qed.

(** A run that stops between the scan and the loop. *)
Lemma run_stops a d df :
  valid_args a = true ->
  outcome (existing a d) = Return df ->
  (forall e, with_new_model a df = Raise e ->
             run_outcome a d = Raise e /\ run_dir a d = d
             /\ run_calls a d = [])
  /\ (forall p df', with_new_model a df = Return (p, df') ->
                    has_columns df' = false ->
                    run_outcome a d = Raise (KeyError "acc_combined")
                    /\ run_dir a d = d /\ run_calls a d = []).
Proof.
  intros Hval Hex.
  unfold run_outcome, run_dir, run_calls, save_and_clean_models.
  unfold valid_args in Hval. apply andb_true_iff in Hval as [-> ->].
  cbn [negb]. unfold existing in Hex.
  pose proof (quiet_get_models d (Some (Args.segment_subject a))
                (Some (Args.model_architecture a))
                (Some (Args.traindata_version a))
                (Some (Args.hyperparams_version a))) as Hq.
  destruct (get_models d _ _ _ _) as [tr0 [f|e0]];
    cbn [outcome snd] in Hex; [|discriminate Hex].
  injection Hex as ->. split.
  - intros e Hw. rewrite Hw. repeat split. exact Hq.
  - intros p df' Hw Hc. rewrite Hw, Hc. repeat split. exact Hq.
Qed.

Lemma report_best_returns a d l :
  outcome (scan d) = Return l -> outcome (report_best a d) = Return tt.
Proof.
  intros Hscan. unfold report_best.
  destruct (Args.verbose a || Args.debug a); [|reflexivity].
  rewrite outcome_bind. unfold get_best_model.
  rewrite outcome_bind, get_models_outcome, Hscan.
  assert (H : forall df, outcome (b <- best_row df ;;
                                  match b with
                                  | Some b =>
                                      emit (Print (BestModel (acc_combined b)
                                                     (acc_train b) (acc_val b)
                                                     (epoch b)))
                                  | None => ret tt
                                  end) = Return tt).
  { intros df. rewrite outcome_bind. unfold best_row.
    destruct (rows df); reflexivity. }
  destruct l as [|r0 l].
  - specialize (H (DataFrame_of [])). rewrite outcome_bind in H. exact H.
  - match goal with |- context [best_row ?df] => specialize (H df) end.
    rewrite outcome_bind in H. exact H.
Qed.

Lemma with_new_model_returns a df p df' :
  with_new_model a df = Return (p, df') ->
  (exists N, candidate a = Some N /\ has_columns df' = true)
  \/ (Args.new_model a = false /\ df' = df).
Proof.
  unfold with_new_model, candidate. destruct (Args.new_model a).
  - destruct (Args.new_model_monitor_train a),
      (Args.new_model_monitor_val a), (Args.new_model_epoch a);
      try discriminate.
    intros H. injection H as <- <-. left. eauto.
  - intros H. injection H as <- <-. now right.
Qed.

(** X3.  With the reports off, a run returns exactly when its arguments are
    valid, every listed name decodes, and there is something to sort: a
    candidate with its two metrics and its epoch, or, when no model is
    passed, a decoded model in the directory. *)
Theorem quiet_run_returns_iff a d :
  Args.verbose a = false -> Args.debug a = false ->
  (run_outcome a d = Return tt
   <-> valid_args a = true
       /\ exists l, outcome (scan d) = Return l
                    /\ ((exists N, candidate a = Some N)
                        \/ (Args.new_model a = false /\ l <> []))).
Proof.
  intros Hv Hg. split.
  - intros Hret.
    destruct (run_cases a d)
      as [(_ & _ & e & He)|(df & p & df' & Hval & Hex & Hw & Hc & _)];
      [congruence|].
    split; [exact Hval|].
    rewrite existing_outcome in Hex.
    destruct (outcome (scan d)) as [l|e]; [|discriminate Hex].
    exists l. split; [reflexivity|].
    destruct (with_new_model_returns _ _ _ _ Hw) as [(N & HN & _)|[Hn ->]];
      [left; eauto|].
    right. split; [exact Hn|]. intros ->. injection Hex as <-.
    discriminate Hc.
  - intros (Hval & l & Hscan & Hcand).
    assert (Hex := existing_outcome a d). rewrite Hscan in Hex.
    assert (Hloop : exists df p df',
               outcome (existing a d) = Return df
               /\ with_new_model a df = Return (p, df')
               /\ has_columns df' = true).
    { destruct Hcand as [[N HN]|[Hn Hne]].
      - destruct l as [|r0 l]; eexists; eexists; eexists;
          (split; [exact Hex|]);
          (split; [apply (with_new_model_candidate a N _ HN) | reflexivity]).
      - destruct l as [|r0 l]; [congruence|].
        eexists; eexists; eexists. split; [exact Hex|].
        unfold with_new_model. rewrite Hn. split; reflexivity. }
    destruct Hloop as (df & p & df' & Hex' & Hw & Hc).
    destruct (run_reaches_loop a d df p df' Hval Hex' Hw Hc)
      as (_ & _ & _ & Hout).
    rewrite Hout. unfold report_best. now rewrite Hv, Hg.
Qed.

Lemma quiet_run_returns_iff_witness :
  run_outcome (cycle_args false "max" better_candidate) scenario = Return tt
  <-> valid_args (cycle_args false "max" better_candidate) = true
      /\ exists l,
           outcome (scan scenario) = Return l
           /\ ((exists N,
                  candidate (cycle_args false "max" better_candidate) = Some N)
               \/ (Args.new_model (cycle_args false "max" better_candidate)
                   = false /\ l <> [])).
Proof.
  apply (quiet_run_returns_iff (cycle_args false "max" better_candidate)
           scenario); reflexivity.
Defined.

(** X4.  A cleanup without a candidate in a directory with no model to decode
    raises [KeyError] on the sort, and touches nothing. *)
Theorem cleanup_of_empty_registry_raises a d :
  valid_args a = true ->
  Args.new_model a = false ->
  outcome (scan d) = Return [] ->
  run_outcome a d = Raise (KeyError "acc_combined")
  /\ run_dir a d = d /\ run_calls a d = [].
Proof.
  intros Hval Hn Hscan.
  assert (Hex := existing_outcome a d). rewrite Hscan in Hex.
  apply (proj2 (run_stops a d _ Hval Hex) None (DataFrame_of []));
    [|reflexivity].
  unfold with_new_model. now rewrite Hn.
Qed.

Lemma cleanup_of_empty_registry_raises_witness :
  run_outcome (cycle_args true "max" None) [file "notes.txt"]
  = Raise (KeyError "acc_combined")
  /\ run_dir (cycle_args true "max" None) [file "notes.txt"]
     = [file "notes.txt"]
  /\ run_calls (cycle_args true "max" None) [file "notes.txt"] = [].
Proof.
  apply (cleanup_of_empty_registry_raises (cycle_args true "max" None)
           [file "notes.txt"]); reflexivity.
Defined.

End Outcomes.

(* ================================================================== *)
(** * The checkpoint callback, epoch by epoch *)
(* ================================================================== *)

Module Callback.
Import MonadFacts Ranking Registry Sorting Loop Cycle Ordering Survivors
  Idempotence RunFacts ScanFacts Outcomes.
Import ModelCheckpointExt.

Lemma constructed_is_valid
    seg tv arch hv mode mt mv sf (sbo swo tmpl vb orp : bool) self :
  __init__ seg tv arch hv mode mt mv sf sbo swo tmpl vb orp = Return self ->
  self = {| segment_subject := seg; traindata_version := tv;
            model_architecture := arch; hyperparams_version := hv;
            monitor_metric_mode := mode; monitor_metric_train := mt;
            monitor_metric_validation := mv; save_format := sf;
            save_best_only := sbo; save_weights_only := swo;
            model_template_for_save := tmpl; verbose := vb;
            only_report := orp |}
  /\ forall model epoch logs,
       valid_args (epoch_args self model epoch logs) = true.
Proof.
  unfold __init__, valid_args.
  destruct (existsb (String.eqb mode) ["min"; "max"]) eqn:Hm;
    [|discriminate].
  destruct (existsb (String.eqb sf) ["h5"; "tf"]) eqn:Hf; [|discriminate].
  cbn [negb]. intros H. injection H as <-. split; [reflexivity|].
  intros model epoch logs.
  cbn [epoch_args Args.monitor_metric_mode Args.save_format
       monitor_metric_mode save_format].
  now rewrite Hm, Hf.
Qed.

(** X23.  An epoch of a constructed callback whose logs lack a monitored metric
    raises, once the directory is scanned, and saves and deletes nothing:
    a metric name that keras does not report is an error at every epoch. *)
Theorem epoch_without_metric_raises
    seg tv arch hv mode mt mv sf (sbo swo tmpl vb orp : bool) self
    epoch logs d l :
  __init__ seg tv arch hv mode mt mv sf sbo swo tmpl vb orp = Return self ->
  get logs mt = None \/ get logs mv = None ->
  outcome (scan d) = Return l ->
  epoch_outcome self true epoch logs d = Raise missing_monitor
  /\ epoch_dir self true epoch logs d = d
  /\ epoch_calls self true epoch logs d = [].
Proof.
  intros Hinit Hmiss Hscan.
  destruct (constructed_is_valid _ _ _ _ _ _ _ _ _ _ _ _ _ _ Hinit)
    as [Hself Hval].
  set (a := epoch_args self true epoch logs).
  assert (Hex := existing_outcome a d). rewrite Hscan in Hex.
  change (run_outcome a d = Raise missing_monitor /\ run_dir a d = d
          /\ run_calls a d = []).
  assert (Hw : forall df, with_new_model a df = Raise missing_monitor).
  { intros df. unfold with_new_model, a.
    cbn [epoch_args Args.new_model Args.new_model_monitor_train
         Args.new_model_monitor_val Args.new_model_epoch].
    rewrite Hself. cbn [monitor_metric_train monitor_metric_validation].
    destruct Hmiss as [-> | ->]; [reflexivity|].
    destruct (get logs mt); reflexivity. }
  destruct l as [|r0 l];
    exact (proj1 (run_stops a d _ (Hval true epoch logs) Hex) _ (Hw _)).
Qed.

Lemma epoch_without_metric_raises_witness :
  let self := {| segment_subject := "roads"; traindata_version := 1;
                 model_architecture := "unet"; hyperparams_version := 0;
                 monitor_metric_mode := "max";
                 monitor_metric_train := "jaccard_coef_round";
                 monitor_metric_validation := "val_jaccard_coef_round";
                 save_format := "h5"; save_best_only := true;
                 save_weights_only := false;
                 model_template_for_save := false; verbose := true;
                 only_report := false |} in
  let logs := [("loss", dec (3 # 10)); ("jaccard_coef_round", dec (9 # 10))] in
  epoch_outcome self true 6 logs scenario = Raise missing_monitor
  /\ epoch_dir self true 6 logs scenario = scenario
  /\ epoch_calls self true 6 logs scenario = [].
Proof.
  intros self logs.
  apply (epoch_without_metric_raises "roads" 1 "unet" 0 "max"
           "jaccard_coef_round" "val_jaccard_coef_round" "h5"
           true false false true false self 6 logs scenario
           [model_a; model_b]).
  - reflexivity.
  - right. reflexivity.
  - vm_compute. reflexivity.
Defined.

(** X24.  An epoch of a constructed callback with a model attached and its two
    metrics in the logs returns, provided every listed name decodes before
    the epoch and, when the callback reports, after it. *)
Theorem epoch_completes
    seg tv arch hv mode mt mv sf (sbo swo tmpl vb orp : bool) self
    epoch logs d t v l :
  __init__ seg tv arch hv mode mt mv sf sbo swo tmpl vb orp = Return self ->
  get logs mt = Some t -> get logs mv = Some v ->
  outcome (scan d) = Return l ->
  (vb = false
   \/ exists l', outcome (scan (epoch_dir self true epoch logs d))
                 = Return l') ->
  epoch_outcome self true epoch logs d = Return tt.
Proof.
  intros Hinit Ht Hv Hscan Hrep.
  destruct (constructed_is_valid _ _ _ _ _ _ _ _ _ _ _ _ _ _ Hinit)
    as [Hself Hval].
  set (a := epoch_args self true epoch logs) in *.
  change (epoch_dir self true epoch logs d) with (run_dir a d) in Hrep.
  change (run_outcome a d = Return tt).
  assert (Hex := existing_outcome a d). rewrite Hscan in Hex.
  assert (HN : candidate a = Some (new_model_row a t v epoch)).
  { unfold candidate, a.
    cbn [epoch_args Args.new_model Args.new_model_monitor_train
         Args.new_model_monitor_val Args.new_model_epoch].
    rewrite Hself. cbn [monitor_metric_train monitor_metric_validation].
    now rewrite Ht, Hv. }
  assert (Hloop : exists df, outcome (existing a d) = Return df)
    by (destruct l; eauto).
  destruct Hloop as [df Hex'].
  destruct (run_reaches_loop a d df _ _ (Hval true epoch logs) Hex'
              (with_new_model_candidate a _ df HN) eq_refl)
    as (_ & _ & _ & Hout).
  rewrite Hout.
  destruct Hrep as [->|[l' Hl']].
  - unfold report_best, a. rewrite Hself. reflexivity.
  - exact (report_best_returns a _ l' Hl').
Qed.


Lemma epoch_completes_witness :
  let self := {| segment_subject := "roads"; traindata_version := 1;
                 model_architecture := "unet"; hyperparams_version := 0;
                 monitor_metric_mode := "max";
                 monitor_metric_train := "jaccard_coef_round";
                 monitor_metric_validation := "val_jaccard_coef_round";
                 save_format := "h5"; save_best_only := true;
                 save_weights_only := false;
                 model_template_for_save := false; verbose := true;
                 only_report := false |} in
  let logs := [("jaccard_coef_round", dec (9 # 10));
               ("val_jaccard_coef_round", dec (92 # 100))] in
  epoch_outcome self true 6 logs scenario = Return tt.
Proof.
  intros self logs.
  apply (epoch_completes "roads" 1 "unet" 0 "max"
           "jaccard_coef_round" "val_jaccard_coef_round" "h5"
           true false false true false self 6 logs scenario
           (dec (9 # 10)) (dec (92 # 100))
           [model_a; model_b]).
  - reflexivity.
  - reflexivity.
  - reflexivity.
  - vm_compute. reflexivity.
  - right. eexists. vm_compute. reflexivity.
Defined.

End Callback.

(* ================================================================== *)
(** * The entries a cycle leaves alone *)
(* ================================================================== *)

Module Bystanders.
Import Str StrFacts MonadFacts Ranking Registry Sorting Loop Cycle Ordering
  Survivors Idempotence RoundTrip RunFacts ScanFacts Outcomes.

(** An entry stays when the run discards no row at its path. *)
Lemma untouched a d e :
  In e d ->
  (forall mi, In mi (candidate_set a d) ->
              cell_path (filepath mi) = e_name e ->
              keep_model (Args.save_best_only a) (candidate_set a d) mi
              = true) ->
  In e (run_dir a d).
Proof.
  intros He Hk.
  destruct (run_cases a d)
    as [(_ & Hd & _)|(df & p & df' & _ & _ & _ & _ & Hset & _ & Hd)];
    rewrite Hd; [exact He|].
  rewrite Hset in Hk. apply keep_stays; [exact He|].
  intros mi Hmi. apply Hk.
  exact (Permutation_in _ (sort_values_perm (rows df')) Hmi).
Qed.

(** The rows a cycle classifies, by where they come from. *)
Lemma candidate_set_origin a d mi :
  In mi (candidate_set a d) ->
  (exists p, In p (model_paths d) /\ filepath mi = PathObj p
             /\ outcome (parse_model_filename d p) = Return (Some mi)
             /\ of_identity a mi = true)
  \/ (candidate a = Some mi).
Proof.
  unfold candidate_set.
  destruct (outcome (existing a d)) as [df|e] eqn:Hex; [|intros []].
  destruct (with_new_model a df) as [[p df']|e] eqn:Hw; [|intros []].
  intros Hmi.
  assert (Hold : In mi (rows df) ->
                 exists p, In p (model_paths d) /\ filepath mi = PathObj p
                           /\ outcome (parse_model_filename d p)
                              = Return (Some mi)
                           /\ of_identity a mi = true).
  { intros Hr.
    destruct (existing_rows _ _ _ Hex) as (l & Hscan & Hiff).
    destruct (proj1 (Hiff mi) Hr) as [Hl Hid].
    destruct (proj1 (parse_all_In _ _ _ Hscan mi) Hl) as (q & Hq & Hparse).
    exists q. repeat split; auto.
    exact (parse_model_filename_filepath _ _ _ Hparse). }
  destruct (with_new_model_inv _ _ _ _ Hw) as [[_ ->]|(N & HN & _ & Hrows)];
    [left; auto|].
  rewrite Hrows in Hmi. apply in_app_or in Hmi as [Hmi|[<-|[]]];
    [left; auto | now right].
Qed.

Lemma listed_matches d p :
  In p (model_paths d) ->
  exists suf, In suf [".hdf5"; ".h5"; "_tf"] /\ endswith p suf = true.
Proof.
  intros H. apply scan_paths_In in H as (e & suf & _ & _ & E & Hsuf). eauto.
Qed.

Lemma candidate_name_matches a N :
  candidate a = Some N ->
  exists suf, In suf [".hdf5"; ".h5"; "_tf"]
              /\ endswith (filename N) suf = true.
Proof.
  unfold candidate. destruct (Args.new_model a); [|discriminate].
  destruct (Args.new_model_monitor_train a) as [t|]; [|discriminate].
  destruct (Args.new_model_monitor_val a) as [v|]; [|discriminate].
  destruct (Args.new_model_epoch a) as [e|]; [|discriminate].
  intros H. injection H as <-.
  unfold new_model_row. destruct (new_model_acc _ t v) as [[c t'] v'].
  cbn [filename]. unfold format_model_filename.
  destruct (Args.save_format a =? "tf")%string.
  - exists "_tf". split; [cbn; auto | apply endswith_app].
  - exists ".hdf5". split; [cbn; auto | apply endswith_app].
Qed.

(** X10.  An entry whose name matches none of the three patterns of the
    registry is never deleted: whatever the arguments and the other
    entries, it is still there after the run. *)
Theorem unlisted_entries_survive a d e :
  In e d ->
  (forall suf, In suf [".hdf5"; ".h5"; "_tf"] ->
               endswith (e_name e) suf = false) ->
  In e (run_dir a d).
Proof.
  intros He Hno. apply untouched; [exact He|].
  intros mi Hmi Hpath. exfalso.
  destruct (candidate_set_origin _ _ _ Hmi) as [(p & Hp & Hf & _)|HN].
  - destruct (listed_matches _ _ Hp) as (suf & Hsuf & E).
    rewrite Hf in Hpath. cbn [cell_path] in Hpath. subst p.
    rewrite (Hno suf Hsuf) in E. discriminate E.
  - destruct (candidate_name_matches _ _ HN) as (suf & Hsuf & E).
    rewrite (candidate_filepath _ _ HN) in Hpath. cbn [cell_path] in Hpath.
    rewrite Hpath, (Hno suf Hsuf) in E. discriminate E.
Qed.

Lemma unlisted_entries_survive_witness :
  In (file "hyperparams.json")
     (run_dir (cycle_args true "max" better_candidate)
        (file "hyperparams.json" :: scenario)).
Proof.
  apply (unlisted_entries_survive (cycle_args true "max" better_candidate)
           (file "hyperparams.json" :: scenario) (file "hyperparams.json")).
  - left. reflexivity.
  - intros suf [<-|[<-|[<-|[]]]]; reflexivity.
Defined.

(** X11.  A cycle never deletes the model of another identity: an entry whose
    name decodes to another subject, train data version, architecture or
    version of the hyper parameters is still there after the run, unless
    the candidate is written to that very name. *)
Theorem other_identities_survive a d e :
  In e d ->
  (forall r, outcome (parse_model_filename d (e_name e)) = Return (Some r) ->
             of_identity a r = false) ->
  (forall N, candidate a = Some N -> filename N <> e_name e) ->
  In e (run_dir a d).
Proof.
  intros He Hother Hname. apply untouched; [exact He|].
  intros mi Hmi Hpath. exfalso.
  destruct (candidate_set_origin _ _ _ Hmi) as [(p & _ & Hf & Hparse & Hid)|HN].
  - rewrite Hf in Hpath. cbn [cell_path] in Hpath. subst p.
    rewrite (Hother mi Hparse) in Hid. discriminate Hid.
  - apply (Hname mi HN).
    rewrite (candidate_filepath _ _ HN) in Hpath. exact Hpath.
Qed.

Lemma other_identities_survive_witness :
  In (file "trees_02_unet_0.70000_0.69000_0.71000_3.hdf5")
     (run_dir (cycle_args true "max" better_candidate) two_subjects).
Proof.
  apply (other_identities_survive (cycle_args true "max" better_candidate)
           two_subjects (file "trees_02_unet_0.70000_0.69000_0.71000_3.hdf5")).
  - right. left. reflexivity.
  - intros r Hr. vm_compute in Hr. injection Hr as <-. reflexivity.
  - intros N HN. injection HN as <-. vm_compute. discriminate.
Defined.

Lemma glob_without d1 e d2 suf :
  endswith (e_name e) suf = false ->
  glob (d1 ++ e :: d2)%list suf = glob (d1 ++ d2)%list suf.
Proof.
  intros E. unfold glob. rewrite !filter_app. cbn [filter]. now rewrite E.
Qed.

Lemma is_dir_without d1 e d2 p :
  e_name e <> p -> is_dir (d1 ++ e :: d2)%list p = is_dir (d1 ++ d2)%list p.
Proof.
  intros Hne. unfold is_dir. rewrite !existsb_app. cbn [existsb].
  apply String.eqb_neq in Hne. now rewrite Hne.
Qed.

Lemma parse_all_ext d d' paths :
  (forall p, In p paths -> is_dir d p = is_dir d' p) ->
  parse_all d paths = parse_all d' paths.
Proof.
  induction paths as [|q paths IH]; intros H; [reflexivity|].
  cbn [parse_all].
  rewrite (parse_model_filename_ext d d' q) by (apply H; now left).
  rewrite IH by (intros p Hp; apply H; now right). reflexivity.
Qed.

(** X19.  An entry whose name matches none of the three patterns is invisible
    to the registry: with or without it, [get_models] returns the same
    frame and logs the same warnings. *)
Theorem unlisted_entries_are_invisible d1 e d2 seg arch tv hv :
  (forall suf, In suf [".hdf5"; ".h5"; "_tf"] ->
               endswith (e_name e) suf = false) ->
  get_models (d1 ++ e :: d2)%list seg arch tv hv
  = get_models (d1 ++ d2)%list seg arch tv hv.
Proof.
  intros Hno. rewrite !get_models_scan.
  assert (Hscan : scan (d1 ++ e :: d2)%list = scan (d1 ++ d2)%list); [|now rewrite Hscan].
  unfold scan.
  rewrite !glob_without by (apply Hno; cbn; auto).
  apply parse_all_ext. intros p Hp. apply is_dir_without. intros <-.
  destruct (listed_matches _ _ Hp) as (suf & Hsuf & E).
  rewrite (Hno suf Hsuf) in E. discriminate E.
Qed.

Lemma unlisted_entries_are_invisible_witness :
  get_models ([file "roads_01_unet_0.80000_0.79000_0.81000_5.hdf5"]
              ++ dir "logs"
              :: [file "roads_01_unet_0.75000_0.74000_0.76000_3.hdf5"])%list
    (Some "roads") None None None
  = get_models ([file "roads_01_unet_0.80000_0.79000_0.81000_5.hdf5"]
                ++ [file "roads_01_unet_0.75000_0.74000_0.76000_3.hdf5"])%list
      (Some "roads") None None None.
Proof.
  apply (unlisted_entries_are_invisible
           [file "roads_01_unet_0.80000_0.79000_0.81000_5.hdf5"]
           (dir "logs")
           [file "roads_01_unet_0.75000_0.74000_0.76000_3.hdf5"]
           (Some "roads") None None None).
  intros suf [<-|[<-|[<-|[]]]]; reflexivity.
Defined.

End Bystanders.

(* ================================================================== *)
(** * The order of the calls under the best-only policy *)
(* ================================================================== *)

Module SaveFirst.
Import MonadFacts Ranking Registry Sorting Loop Cycle Ordering BestOnly.



End SaveFirst.

